(** * rAAwr: the Yellowstone infection game, embedded in Rocq

    The repository holds several stand-alone Go programs that play the
    same game.  Three of them carry the statistics, red-herring and
    scoring logic and are embedded here, one module each:

    - [Console]   : the line-mode program with statistics (third program
                    of [main.go]);
    - [Evolution] : the first graphical program of
                    [animals/yellowstone_evolution.go];
    - [Outbreak]  : the graphical program whose INFECT button carries the
                    whole attempt inline (second program of
                    [animals/yellowstone_evolution.go]; the unnamed source
                    file is the same program without sound).

    The two earlier line-mode programs of [main.go], which spread the
    infection along the contact lists for six turns, share the module
    [Contact].

    Go's [int] is taken at 64 bits and written as [Z] with the
    wrap-around spelled out; [float64] is Rocq's primitive binary64
    float; a [map[string]*Animal] is a [gmap string Animal] whose keys
    play the role of the pointers. *)

From Stdlib Require Import ZArith Floats Lia Bool DecimalString.
From stdpp Require Import gmap strings list fin_maps.

Open Scope Z_scope.

(* Decimal rates such as 0.3 stand for the nearest binary64 value. *)
Set Warnings "-inexact-float".

(** ** Go primitives *)

Module Go.

Definition int_min : Z := - 2 ^ 63.
Definition int_max : Z := 2 ^ 63 - 1.

(** Representable [int] values. *)
Definition int_ok (z : Z) : Prop := int_min <= z <= int_max.

(** Two's-complement reduction of a mathematical result to [int]. *)
Definition wrap (z : Z) : Z := (z + 2 ^ 63) mod 2 ^ 64 - 2 ^ 63.

Definition add (a b : Z) : Z := wrap (a + b).
Definition sub (a b : Z) : Z := wrap (a - b).
Definition mul (a b : Z) : Z := wrap (a * b).
(** Integer division truncates toward zero. *)
Definition quot (a b : Z) : Z := wrap (Z.quot a b).

(** [math/rand]: the process-wide generator, seen as the sequence of
    values the coming calls of [rand.Float64] return.  [rand.Seed] only
    selects which sequence that is, so it is not a separate operation
    here. *)
Definition Rand : Type := nat -> float.

Definition Float64 (g : Rand) : float * Rand := (g O, fun n => g (S n)).

(** [time]: instants and durations in nanoseconds. *)
Definition Second : Z := 1000000000.

(** [time.Since(t)] read at instant [now]; the difference saturates. *)
Definition Since (now t : Z) : Z := Z.max int_min (Z.min int_max (now - t)).

(** [float64(n)] for an [int] of magnitude below 2^63. *)
Definition float64_of_int (n : Z) : float :=
  if n <? 0 then PrimFloat.opp (PrimFloat.of_uint63 (Uint63.of_Z (- n)))
  else PrimFloat.of_uint63 (Uint63.of_Z n).

(** [Duration.Seconds]: whole seconds plus the fraction, as the
    library computes it. *)
Definition Seconds (d : Z) : float :=
  let sec := Z.quot d Second in
  let nsec := Z.rem d Second in
  PrimFloat.add (float64_of_int sec)
                (PrimFloat.div (float64_of_int nsec) 1e9%float).

(** [int(f)] for a finite [f]: the fraction is discarded (truncation
    toward zero). *)
Definition int_of_float64 (f : float) : Z :=
  match Prim2SF f with
  | S754_finite s m e =>
      let v := if 0 <=? e then Z.pos m * 2 ^ e else Z.pos m / 2 ^ (- e) in
      wrap (if s then - v else v)
  | _ => 0
  end.

End Go.

(** ** Data shared by the three programs

    The [Animal], [Virus], [RedHerringInfo] and [Stats] declarations are
    the same text in each of them. *)

Record Animal : Type := mkAnimal {
  Name : string;
  Level : Z;
  Mobility : string;
  Intelligence : Z;
  Contacts : list string;
  Infected : bool;
  InfectionRate : float;
  Location : string;
  RedHerring : bool
}.

Record Virus : Type := mkVirus {
  Modes : list string;
  Strength : float
}.

Record RedHerringInfo : Type := mkRedHerringInfo {
  FunFact : string;
  Reason : string
}.

Record Stats : Type := mkStats {
  Attempts : Z;
  SameLevelInfections : Z;
  NextLevelInfections : Z;
  StartTime : Z
}.

(** [a.Infected = true] through a pointer. *)
Definition infect (a : Animal) : Animal :=
  mkAnimal (Name a) (Level a) (Mobility a) (Intelligence a) (Contacts a)
           true (InfectionRate a) (Location a) (RedHerring a).

Definition bumpAttempts (s : Stats) : Stats :=
  mkStats (Go.add (Attempts s) 1) (SameLevelInfections s)
          (NextLevelInfections s) (StartTime s).

Definition bumpSameLevel (s : Stats) : Stats :=
  mkStats (Attempts s) (Go.add (SameLevelInfections s) 1)
          (NextLevelInfections s) (StartTime s).

Definition bumpNextLevel (s : Stats) : Stats :=
  mkStats (Attempts s) (SameLevelInfections s)
          (Go.add (NextLevelInfections s) 1) (StartTime s).

Definition setStartTime (now : Z) (s : Stats) : Stats :=
  mkStats (Attempts s) (SameLevelInfections s) (NextLevelInfections s) now.

(** What the player is told after a command; stands for the messages and
    dialogs of the presentation layer. *)
Inductive Outcome : Type :=
| Success
| Failure
| Blocked
| Skipped
| Started
| Refused
| Shown (score : Z).

(** The loop shared by the three loaders: every parsed animal is stored
    under its name and the running maximum of the levels starts at 0.
    The argument is the decoded JSON, group by group. *)
Definition loadAnimals (raw : list (list Animal)) : gmap string Animal * Z :=
  fold_left
    (fun acc group =>
       fold_left
         (fun (acc : gmap string Animal * Z) animal =>
            (<[Name animal := animal]> (fst acc),
             if snd acc <? Level animal then Level animal else snd acc))
         group acc)
    raw (∅, 0).

(** The target filter of the level test, as written in all three
    programs: the host is at the player's level or one above. *)
Definition adjacent (player a : Animal) : bool :=
  (Level a =? Level player) || (Level a =? Go.add (Level player) 1).

(** A [for ... range] loop that appends to a slice: the elements passing
    [keep] are collected, in iteration order, as [out x]. *)
Definition collect {A B : Type} (keep : A -> bool) (out : A -> B)
    (l : list A) : list B :=
  fold_left (fun acc x => if keep x then acc ++ [out x] else acc) l [].

(** ** The console program with statistics ([main.go]) *)

Module Console.

(** [getValidTargets]: uninfected hosts at the player's level or the
    next one, by name.  [map_to_list] fixes one of the iteration orders
    Go may take. *)
Definition getValidTargets (player : Animal)
    (animals : gmap string Animal) : list string :=
  collect (fun na : string * Animal =>
             if Infected na.2 then false else adjacent player na.2)
          fst (map_to_list animals).

(** How one pass of a prompt loop ends. *)
Inductive Choice : Type :=
| Chosen (name : string)   (* a host is returned *)
| NoTarget                 (* [nil]: skipped, or nothing to choose *)
| RedHerringAgain          (* red herring: explained, prompt repeats *)
| InvalidAgain.            (* invalid number: prompt repeats *)

(** The local list [levelOne] of [askStarterAnimal]. *)
Definition levelOneOf (animals : gmap string Animal) : list string :=
  collect (fun na : string * Animal => Level na.2 =? 1)
          fst (map_to_list animals).

(** [askStarterAnimal], one pass of its loop on the number read. *)
Definition askStarterAnimal (animals : gmap string Animal)
    (levelOne : list string) (choice : Z) : Choice :=
  if (1 <=? choice) && (choice <=? Z.of_nat (length levelOne)) then
    match levelOne !! Z.to_nat (choice - 1) with
    | Some selected =>
        match animals !! selected with
        | Some a => if RedHerring a then RedHerringAgain else Chosen selected
        | None => InvalidAgain
        end
    | None => InvalidAgain
    end
  else InvalidAgain.

(** [chooseTarget], one pass of its loop on the number read. *)
Definition chooseTarget (player : Animal) (animals : gmap string Animal)
    (choice : Z) : Choice :=
  let valid := getValidTargets player animals in
  if Z.of_nat (length valid) =? 0 then NoTarget
  else if choice =? Z.of_nat (length valid) + 1 then NoTarget
  else if (1 <=? choice) && (choice <=? Z.of_nat (length valid)) then
    match valid !! Z.to_nat (choice - 1) with
    | Some targetName =>
        match animals !! targetName with
        | Some target =>
            if RedHerring target then RedHerringAgain else Chosen targetName
        | None => InvalidAgain
        end
    | None => InvalidAgain
    end
  else InvalidAgain.

(** What [attemptInfection] leaves behind: the target and the
    statistics it wrote through its pointers, the generator, and its
    two results ([moved]: the returned host is the target). *)
Record Attempt : Type := mkAttempt {
  target' : Animal;
  stats' : Stats;
  rng' : Go.Rand;
  moved : bool;
  won : bool;
  outcome : Outcome
}.

Definition attemptInfection (maxLevel : Z) (player target : Animal)
    (virus : Virus) (stats : Stats) (g : Go.Rand) : Attempt :=
  let chance := PrimFloat.mul (InfectionRate target) (Strength virus) in
  let stats := bumpAttempts stats in
  let (r, g) := Go.Float64 g in
  if PrimFloat.ltb r chance then
    let target := infect target in
    let stats :=
      if Level target =? Level player then bumpSameLevel stats
      else if Level target =? Go.add (Level player) 1 then bumpNextLevel stats
      else stats in
    if Level player <? Level target then
      if Level target =? maxLevel
      then mkAttempt target stats g true true Success
      else mkAttempt target stats g true false Success
    else mkAttempt target stats g false false Success
  else mkAttempt target stats g false false Failure.

Definition calculateScore (stats : Stats) (elapsed : Z) : Z :=
  let seconds := Go.int_of_float64 (Go.Seconds elapsed) in
  let score := 1000 in
  let score := Go.add score (Go.mul (NextLevelInfections stats) 200) in
  let score := Go.sub score (Go.mul (SameLevelInfections stats) 100) in
  let score := Go.sub score (Go.mul (Attempts stats) 10) in
  let score := Go.sub score (Go.quot seconds 2) in
  if score <? 0 then 0 else score.

(** [main] as a machine that takes the numbers typed at its prompts. *)
Inductive Phase : Type := SelectingStarter | Playing | Won | Ended.

Record Game : Type := mkGame {
  animals : gmap string Animal;
  maxLevel : Z;
  levelOne : list string;
  virus : Virus;
  stats : Stats;
  player : string;
  day : Z;
  phase : Phase;
  rng : Go.Rand
}.

Definition setPhase (ph : Phase) (g : Game) : Game :=
  mkGame (animals g) (maxLevel g) (levelOne g) (virus g) (stats g)
         (player g) (day g) ph (rng g).

Definition setDay (d : Z) (g : Game) : Game :=
  mkGame (animals g) (maxLevel g) (levelOne g) (virus g) (stats g)
         (player g) d (phase g) (rng g).

(** The program up to its first prompt. *)
Definition boot (raw : list (list Animal)) (now : Z) (g : Go.Rand) : Game :=
  let (animals, maxLevel) := loadAnimals raw in
  mkGame animals maxLevel (levelOneOf animals)
         (mkVirus ["Bite"%string] 1%float) (mkStats 0 0 0 now)
         ""%string 1 SelectingStarter g.

(** The [for day] loop from its test to the next prompt: days without
    a valid target pass by themselves, and after day 999 the simulation
    ends. *)
Fixpoint days (fuel : nat) (g : Game) : Game :=
  if 999 <? day g then setPhase Ended g
  else
    match animals g !! player g with
    | None => g
    | Some p =>
        match getValidTargets p (animals g), fuel with
        | [], S fuel' => days fuel' (setDay (Go.add (day g) 1) g)
        | _, _ => g
        end
    end.

Definition nextDay (g : Game) : Game :=
  days 1000 (setDay (Go.add (day g) 1) g).

(** One number typed at the current prompt. *)
Definition step (g : Game) (choice : Z) : Game * Outcome :=
  match phase g with
  | SelectingStarter =>
      match askStarterAnimal (animals g) (levelOne g) choice with
      | Chosen start =>
          (days 1000
             (mkGame (alter infect start (animals g)) (maxLevel g)
                     (levelOne g) (virus g) (stats g) start 1 Playing
                     (rng g)),
           Started)
      | RedHerringAgain => (g, Blocked)
      | _ => (g, Refused)
      end
  | Playing =>
      match animals g !! player g with
      | None => (g, Refused)
      | Some p =>
          match chooseTarget p (animals g) choice with
          | Chosen targetName =>
              match animals g !! targetName with
              | None => (g, Refused)
              | Some target =>
                  let a := attemptInfection (maxLevel g) p target (virus g)
                                            (stats g) (rng g) in
                  let g' :=
                    mkGame (<[targetName := target' a]> (animals g))
                           (maxLevel g) (levelOne g) (virus g) (stats' a)
                           (if moved a then targetName else player g)
                           (day g) (phase g) (rng' a) in
                  (if won a then setPhase Won g' else nextDay g', outcome a)
              end
          | NoTarget => (nextDay g, Skipped)
          | RedHerringAgain => (g, Blocked)
          | InvalidAgain => (g, Refused)
          end
      end
  | Won => (g, Refused)
  | Ended => (g, Refused)
  end.

Definition run (g : Game) (choices : list Z) : Game :=
  fold_left (fun g c => fst (step g c)) choices g.

End Console.

(** The screen a graphical program shows; its buttons are the commands
    it accepts. *)
Inductive Screen : Type := Intro | StarterSelection | GameScreen | WinScreen.

(** A click on a button, or a beat of the display timer. *)
Inductive Click : Type :=
| Begin
| Choose (name : string)
| Infect (name : string)
| Tick.

(** ** The first graphical program ([yellowstone_evolution.go]) *)

Module Evolution.

Record GameState : Type := mkGameState {
  animals : gmap string Animal;
  playerName : string;
  maxLevel : Z;
  currentDay : Z;
  virus : Virus;
  stats : Stats;
  redFacts : gmap string RedHerringInfo
}.

(** [getValidTargets]: the hosts themselves, red herrings left out. *)
Definition getValidTargets (player : Animal)
    (animals : gmap string Animal) : list Animal :=
  collect (fun na : string * Animal =>
             if Infected na.2 || RedHerring na.2 then false
             else adjacent player na.2)
          snd (map_to_list animals).

Record Attempt : Type := mkAttempt {
  target' : Animal;
  stats' : Stats;
  rng' : Go.Rand;
  success : bool
}.

Definition attemptInfection (player target : Animal) (virus : Virus)
    (stats : Stats) (g : Go.Rand) : Attempt :=
  let chance := PrimFloat.mul (InfectionRate target) (Strength virus) in
  let stats := bumpAttempts stats in
  let (r, g) := Go.Float64 g in
  if PrimFloat.ltb r chance then
    let target := infect target in
    let stats :=
      if Level target =? Level player then bumpSameLevel stats
      else if Level target =? Go.add (Level player) 1 then bumpNextLevel stats
      else stats in
    mkAttempt target stats g true
  else mkAttempt target stats g false.

Definition calculateScore (stats : Stats) (elapsed : Z) : Z :=
  let seconds := Go.int_of_float64 (Go.Seconds elapsed) in
  let score := 1000 in
  let score := Go.add score (Go.mul (NextLevelInfections stats) 200) in
  let score := Go.sub score (Go.mul (SameLevelInfections stats) 100) in
  let score := Go.sub score (Go.mul (Attempts stats) 10) in
  let score := Go.sub score (Go.quot seconds 2) in
  if score <? 0 then 0 else score.

(** The window: the state behind the pointer, the screen on display and
    the generator. *)
Record Window : Type := mkWindow {
  state : GameState;
  screen : Screen;
  rng : Go.Rand
}.

Definition boot (raw : list (list Animal))
    (facts : gmap string RedHerringInfo) (g : Go.Rand) : Window :=
  let (animals, maxLevel) := loadAnimals raw in
  mkWindow (mkGameState animals ""%string maxLevel 1
                        (mkVirus ["Bite"%string] 1%float)
                        (mkStats 0 0 0 0) facts)
           Intro g.

(** The button of a card on the game screen is the infect button when
    the card's host is among the valid targets, compared by name. *)
Definition isValidTarget (validTargets : list Animal) (animalData : Animal)
    : bool :=
  existsb (fun vt => String.eqb (Name vt) (Name animalData)) validTargets.

(** The Choose button of a starter card; red herrings get another
    button, which only explains. *)
Definition chooseButton (now : Z) (animalData : Animal) (w : Window)
    : Window * Outcome :=
  let st := state w in
  if RedHerring animalData then (w, Blocked)
  else
    (mkWindow
       (mkGameState (alter infect (Name animalData) (animals st))
                    (Name animalData) (maxLevel st) (currentDay st)
                    (virus st) (setStartTime now (stats st)) (redFacts st))
       GameScreen (rng w),
     Started).

(** The infect button of the card of [infectedAnimal], stored under
    [name].  The delayed screen changes ([time.AfterFunc]) are taken
    with the click. *)
Definition infectButton (player : Animal) (name : string)
    (infectedAnimal : Animal) (w : Window) : Window * Outcome :=
  let st := state w in
  let a := attemptInfection player infectedAnimal (virus st) (stats st)
                            (rng w) in
  let animals' := <[name := target' a]> (animals st) in
  if success a then
    if Level player <? Level (target' a) then
      if Level (target' a) =? maxLevel st then
        (mkWindow
           (mkGameState animals' (Name (target' a)) (maxLevel st)
                        (currentDay st) (virus st) (stats' a) (redFacts st))
           WinScreen (rng' a),
         Success)
      else
        (mkWindow
           (mkGameState animals' (Name (target' a)) (maxLevel st)
                        (Go.add (currentDay st) 1) (virus st) (stats' a)
                        (redFacts st))
           GameScreen (rng' a),
         Success)
    else
      (mkWindow
         (mkGameState animals' (playerName st) (maxLevel st)
                      (Go.add (currentDay st) 1) (virus st) (stats' a)
                      (redFacts st))
         GameScreen (rng' a),
       Success)
  else
    (mkWindow
       (mkGameState animals' (playerName st) (maxLevel st)
                    (Go.add (currentDay st) 1) (virus st) (stats' a)
                    (redFacts st))
       GameScreen (rng' a),
     Failure).

(** One click at instant [now].  On the game screen every host has a
    card; its button infects, explains the red herring, or is
    disabled.  The win screen has one button, which loads the files
    again and starts another run. *)
Definition step (now : Z) (w : Window) (c : Click) : Window * Outcome :=
  let st := state w in
  match screen w, c with
  | Intro, Begin => (mkWindow st StarterSelection (rng w), Started)
  | StarterSelection, Choose name =>
      match animals st !! name with
      | Some animalData =>
          if Level animalData =? 1 then chooseButton now animalData w
          else (w, Refused)
      | None => (w, Refused)
      end
  | GameScreen, Infect name =>
      match animals st !! playerName st, animals st !! name with
      | Some player, Some animalData =>
          if isValidTarget (getValidTargets player (animals st)) animalData
          then infectButton player name animalData w
          else if Infected animalData then (w, Refused)
          else if RedHerring animalData then (w, Blocked)
          else (w, Refused)
      | _, _ => (w, Refused)
      end
  | _, _ => (w, Refused)
  end.

Definition run (w : Window) (clicks : list (Z * Click)) : Window :=
  fold_left (fun w nc => fst (step nc.1 w nc.2)) clicks w.

End Evolution.

(** ** The graphical program with the inline INFECT handler *)

Module Outbreak.

Record GameState : Type := mkGameState {
  animals : gmap string Animal;
  playerName : string;
  maxLevel : Z;
  currentDay : Z;
  virus : Virus;
  stats : Stats;
  redFacts : gmap string RedHerringInfo;
  score : Z
}.

Definition calculateScore (now : Z) (state : GameState) : Z :=
  let secs :=
    Go.int_of_float64 (Go.Seconds (Go.Since now (StartTime (stats state)))) in
  let score :=
    Go.sub
      (Go.sub
         (Go.sub
            (Go.add 1000 (Go.mul (NextLevelInfections (stats state)) 200))
            (Go.mul (SameLevelInfections (stats state)) 100))
         (Go.mul (Attempts (stats state)) 10))
      (Go.quot secs 2) in
  if score <? 0 then 0 else score.

Record Window : Type := mkWindow {
  state : GameState;
  screen : Screen;
  rng : Go.Rand
}.

Definition boot (raw : list (list Animal))
    (facts : gmap string RedHerringInfo) (now : Z) (g : Go.Rand) : Window :=
  let (animals, max) := loadAnimals raw in
  mkWindow (mkGameState animals ""%string max 0
                        (mkVirus ["Bite"%string] 1%float)
                        (mkStats 0 0 0 now) facts 0)
           Intro g.

Definition setStats (s : Stats) (st : GameState) : GameState :=
  mkGameState (animals st) (playerName st) (maxLevel st) (currentDay st)
              (virus st) s (redFacts st) (score st).

(** The game screen builds a card, with its INFECT button, for every
    host that the loop does not pass over. *)
Definition hasCard (player target : Animal) : bool :=
  if Infected target
     || (negb (Level target =? Level player)
         && negb (Level target =? Go.add (Level player) 1))
  then false else true.

(** The INFECT button of the card of [t], stored under [name]; the
    closing part is the function handed to the animation, which runs
    once the animation is over. *)
Definition infectButton (player : Animal) (name : string) (t : Animal)
    (w : Window) : Window * Outcome :=
  let st := state w in
  let stats := bumpAttempts (stats st) in
  if RedHerring t then (mkWindow (setStats stats st) (screen w) (rng w), Blocked)
  else
    let (r, g) := Go.Float64 (rng w) in
    if PrimFloat.ltb r (PrimFloat.mul (InfectionRate t) (Strength (virus st)))
    then
      let t := infect t in
      let day := Go.add (currentDay st) 1 in
      let stats :=
        if Level player <? Level t then bumpNextLevel stats
        else bumpSameLevel stats in
      (mkWindow
         (mkGameState (<[name := t]> (animals st)) (Name t) (maxLevel st)
                      day (virus st) stats (redFacts st) (score st))
         (if Level t =? maxLevel st then WinScreen else GameScreen) g,
       Success)
    else (mkWindow (setStats stats st) (screen w) g, Failure).

(** The Choose button of the starter card of [an], stored under
    [name]. *)
Definition chooseButton (now : Z) (name : string) (an : Animal)
    (w : Window) : Window * Outcome :=
  let st := state w in
  if RedHerring an then (w, Blocked)
  else
    (mkWindow
       (mkGameState (<[name := infect an]> (animals st)) (Name an)
                    (maxLevel st) (currentDay st) (virus st)
                    (setStartTime now (stats st)) (redFacts st) (score st))
       GameScreen (rng w),
     Started).

(** One click, or one beat of the timer, at instant [now].  The timer
    started with the first game screen keeps beating under the win
    screen. *)
Definition step (now : Z) (w : Window) (c : Click) : Window * Outcome :=
  let st := state w in
  match screen w, c with
  | Intro, Begin => (mkWindow st StarterSelection (rng w), Started)
  | StarterSelection, Choose name =>
      match animals st !! name with
      | Some a =>
          if Level a =? 1 then chooseButton now name a w else (w, Refused)
      | None => (w, Refused)
      end
  | GameScreen, Infect name =>
      match animals st !! playerName st, animals st !! name with
      | Some player, Some target =>
          if hasCard player target then infectButton player name target w
          else (w, Refused)
      | _, _ => (w, Refused)
      end
  | GameScreen, Tick => (w, Shown (calculateScore now st))
  | WinScreen, Tick => (w, Shown (calculateScore now st))
  | _, _ => (w, Refused)
  end.

Definition run (w : Window) (clicks : list (Z * Click)) : Window :=
  fold_left (fun w nc => fst (step nc.1 w nc.2)) clicks w.

End Outbreak.

(** ** The two contact-list programs ([main.go])

    The first loads its roster from JSON, the second has it in the
    source; the second also takes the word "skip".  Their [Animal] has
    no red-herring flag, and there are no statistics. *)

Module Contact.

Record Animal : Type := mkAnimal {
  Name : string;
  Level : Z;
  Mobility : string;
  Intelligence : Z;
  Contacts : list string;
  Infected : bool;
  InfectionRate : float;
  Location : string
}.

(** [a.Infected = true] through a pointer. *)
Definition infect (a : Animal) : Animal :=
  mkAnimal (Name a) (Level a) (Mobility a) (Intelligence a) (Contacts a)
           true (InfectionRate a) (Location a).

(** [LoadAnimalsFromJSON] of the first program, from the decoded list on. *)
Definition LoadAnimalsFromJSON (data : list Animal) : gmap string Animal :=
  fold_left (fun animalMap a => <[Name a := a]> animalMap) data ∅.

(** [LoadYellowstoneAnimals] of the second program. *)
Definition LoadYellowstoneAnimals : gmap string Animal :=
  <["Grizzly Bear"%string :=
      mkAnimal "Grizzly Bear" 3 "walk" 7 ["Wolf"; "Tourist"; "Bison"]%string
               false 0.4 "Forest"]>
  (<["Wolf"%string :=
      mkAnimal "Wolf" 3 "walk" 6 ["Elk"; "Bison"; "Grizzly Bear"]%string
               false 0.55 "Mountains"]>
  (<["Bison"%string :=
      mkAnimal "Bison" 2 "walk" 3 ["Wolf"; "Elk"]%string false 0.25
               "Grassland"]>
  (<["Elk"%string :=
      mkAnimal "Elk" 2 "walk" 2 ["Wolf"; "Bison"]%string false 0.3 "Valley"]>
  (<["Tourist"%string :=
      mkAnimal "Tourist" 1 "walk" 9 ["Grizzly Bear"; "Wolf"]%string false
               0.75 "Campsite"]> ∅)))).

(** [attemptInfection]: the result, the target as it is left, and the
    generator.  The programs seed the generator from the clock at every
    call; the stream stands for the values the successive calls get. *)
Definition attemptInfection (source target : Animal) (v : Virus)
    (g : Go.Rand) : bool * Animal * Go.Rand :=
  let chance := PrimFloat.mul (InfectionRate target) (Strength v) in
  let (r, g) := Go.Float64 g in
  if PrimFloat.ltb r chance then (true, infect target, g)
  else (false, target, g).

(** The first loop of [chooseTarget]: the contacts that are in the roster
    and not infected, in the order of the contact list. *)
Definition validTargets (player : Animal) (animals : gmap string Animal)
    : list string :=
  collect (fun contact : string =>
             match animals !! contact with
             | Some a => negb (Infected a)
             | None => false
             end)
          id (Contacts player).

(** [askStarterAnimal], one pass of its loop on the name read. *)
Definition askStarterAnimal (animals : gmap string Animal) (choice : string)
    : bool :=
  match animals !! choice with Some _ => true | None => false end.

(** How one pass of the prompt loop of [chooseTarget] ends. *)
Inductive Pick : Type :=
| Chosen (val : string)
| NoTarget
| InvalidAgain.

Inductive Phase : Type := SelectingStarter | Playing | Complete.

Record Game : Type := mkGame {
  words : bool;          (* the second program: "skip" is understood *)
  animals : gmap string Animal;
  virus : Virus;
  player : string;
  turn : Z;
  phase : Phase;
  rng : Go.Rand
}.

(** The programs up to their first prompt. *)
Definition bootJSON (data : list Animal) (g : Go.Rand) : Game :=
  mkGame false (LoadAnimalsFromJSON data) (mkVirus ["Bite"%string] 1%float)
         ""%string 1 SelectingStarter g.

Definition bootFixed (g : Go.Rand) : Game :=
  mkGame true LoadYellowstoneAnimals (mkVirus ["Bite"%string] 1%float)
         ""%string 1 SelectingStarter g.

Section Prompt.

(** [fmt.Sprint] on an [int] and [strings.EqualFold] belong to Go's
    library; the programs are read for any two such functions. *)
Variable Sprint : Z -> string.
Variable EqualFold : string -> string -> bool.

(** The scan of the valid targets for the number or the name typed. *)
Fixpoint matchTarget (input : string) (idx : Z) (validTargets : list string)
    : option string :=
  match validTargets with
  | [] => None
  | val :: rest =>
      if String.eqb input (Sprint (idx + 1)) || EqualFold input val
      then Some val
      else matchTarget input (idx + 1) rest
  end.

(** [chooseTarget], one pass of its prompt loop on the (trimmed) line
    read. *)
Definition chooseTarget (words : bool) (player : Animal)
    (animals : gmap string Animal) (input : string) : Pick :=
  let valid := validTargets player animals in
  let i := Z.of_nat (length valid) + 1 in
  match matchTarget input 0 valid with
  | Some val => Chosen val
  | None =>
      if String.eqb input (Sprint i) || (words && EqualFold input "skip")
      then NoTarget
      else InvalidAgain
  end.

(** The end of a turn of the [for turn := 1; turn <= 6; turn++] loop. *)
Definition endTurn (g : Game) : Game :=
  let t := Go.add (turn g) 1 in
  mkGame (words g) (animals g) (virus g) (player g) t
         (if 6 <? t then Complete else Playing) (rng g).

(** [main] as a machine that takes the lines typed at its prompts. *)
Definition step (g : Game) (input : string) : Game * Outcome :=
  match phase g with
  | SelectingStarter =>
      if askStarterAnimal (animals g) input then
        (mkGame (words g) (alter infect input (animals g)) (virus g) input 1
                Playing (rng g),
         Started)
      else (g, Refused)
  | Playing =>
      match animals g !! player g with
      | None => (g, Refused)
      | Some p =>
          match chooseTarget (words g) p (animals g) input with
          | Chosen val =>
              match animals g !! val with
              | None => (g, Refused)
              | Some target =>
                  let '(ok, target, r) :=
                    attemptInfection p target (virus g) (rng g) in
                  (endTurn
                     (mkGame (words g) (<[val := target]> (animals g))
                             (virus g) (player g) (turn g) (phase g) r),
                   if ok then Success else Failure)
              end
          | NoTarget => (endTurn g, Skipped)
          | InvalidAgain => (g, Refused)
          end
      end
  | Complete => (g, Refused)
  end.

Definition run (g : Game) (inputs : list string) : Game :=
  fold_left (fun g line => (step g line).1) inputs g.

End Prompt.

(** The roster changes by infections only: no key comes or goes, and an
    entry is what it was or what it was with the flag set. *)
Definition only_infects (m m' : gmap string Animal) : Prop :=
  forall name,
    match m !! name with
    | Some a => m' !! name = Some a \/ m' !! name = Some (infect a)
    | None => m' !! name = None
    end.

End Contact.

(** ** Sample data

    The five animals of the hard-coded roster of [main.go], with a
    second level-one host and a red herring added. *)

Module Sample.

Definition tourist : Animal :=
  mkAnimal "Tourist" 1 "walk" 9 ["Grizzly Bear"; "Wolf"]%string false 0.75
           "Campsite" false.
Definition marmot : Animal :=
  mkAnimal "Marmot" 1 "walk" 2 ["Elk"]%string false 0.5 "Meadow" false.
Definition raven : Animal :=
  mkAnimal "Raven" 1 "fly" 8 ["Wolf"]%string false 0.5 "Canyon" true.
Definition elk : Animal :=
  mkAnimal "Elk" 2 "walk" 2 ["Wolf"; "Bison"]%string false 0.3 "Valley" false.
Definition bison : Animal :=
  mkAnimal "Bison" 2 "walk" 3 ["Wolf"; "Elk"]%string false 0.25 "Grassland"
           false.
Definition wolf : Animal :=
  mkAnimal "Wolf" 3 "walk" 6 ["Elk"; "Bison"; "Grizzly Bear"]%string false
           0.55 "Mountains" false.
Definition grizzly : Animal :=
  mkAnimal "Grizzly Bear" 3 "walk" 7 ["Wolf"; "Tourist"; "Bison"]%string
           false 0.4 "Forest" false.

Definition raw : list (list Animal) :=
  [[tourist; marmot; raven]; [elk; bison]; [wolf; grizzly]].

(** A generator that returns [r] at every call. *)
Definition always (r : float) : Go.Rand := fun _ => r.

(** The console program and the second graphical program after loading
    [raw] at instant 0. *)
Definition console (r : float) : Console.Game :=
  Console.boot raw 0 (always r).
Definition outbreak (r : float) : Outbreak.Window :=
  Outbreak.boot raw ∅ 0 (always r).

(** Files in which the name of the marmot occurs twice: the first
    entry, at level 5, is overwritten in the roster by the second. *)
Definition shadow : Animal :=
  mkAnimal "Marmot" 5 "walk" 2 ["Elk"]%string false 0.5 "Meadow" false.

Definition twice : list (list Animal) := [[shadow; marmot]; [elk]].

(** The two library functions of the contact-list programs, for the
    examples: decimal printing, and comparison under ASCII case
    folding. *)
Definition Sprint (n : Z) : string := NilZero.string_of_int (Z.to_int n).

Definition lower (c : Ascii.ascii) : Ascii.ascii :=
  let n := Ascii.nat_of_ascii c in
  if (65 <=? n)%nat && (n <=? 90)%nat then Ascii.ascii_of_nat (n + 32) else c.

Fixpoint lowered (s : string) : string :=
  match s with
  | EmptyString => EmptyString
  | String c rest => String (lower c) (lowered rest)
  end.

Definition EqualFold (s t : string) : bool :=
  String.eqb (lowered s) (lowered t).

End Sample.

(** ** Notions used by the statements *)

(** The state the console program is in once [attemptInfection] has
    returned for the target stored under [name]. *)
Definition console_after (g : Console.Game) (name : string)
    (a : Console.Attempt) : Console.Game :=
  let g' :=
    Console.mkGame (<[name := Console.target' a]> (Console.animals g))
                   (Console.maxLevel g) (Console.levelOne g) (Console.virus g)
                   (Console.stats' a)
                   (if Console.moved a then name else Console.player g)
                   (Console.day g) (Console.phase g) (Console.rng' a) in
  if Console.won a then Console.setPhase Console.Won g' else Console.nextDay g'.

(** Every step of the console machine is of one of four kinds. *)
Inductive console_step_kind (g : Console.Game) (choice : Z)
    : Console.Game * Outcome -> Prop :=
| console_stays (o : Outcome) :
    o = Refused \/ o = Blocked ->
    console_step_kind g choice (g, o)
| console_starts (start : string) (a : Animal) :
    Console.phase g = Console.SelectingStarter ->
    Console.askStarterAnimal (Console.animals g) (Console.levelOne g) choice
    = Console.Chosen start ->
    Console.animals g !! start = Some a ->
    RedHerring a = false ->
    console_step_kind g choice
      (Console.days 1000
         (Console.mkGame (alter infect start (Console.animals g))
                         (Console.maxLevel g) (Console.levelOne g)
                         (Console.virus g) (Console.stats g) start 1
                         Console.Playing (Console.rng g)),
       Started)
| console_skips (p : Animal) :
    Console.phase g = Console.Playing ->
    Console.animals g !! Console.player g = Some p ->
    Console.chooseTarget p (Console.animals g) choice = Console.NoTarget ->
    console_step_kind g choice (Console.nextDay g, Skipped)
| console_attempts (p : Animal) (name : string) (t : Animal) :
    Console.phase g = Console.Playing ->
    Console.animals g !! Console.player g = Some p ->
    Console.chooseTarget p (Console.animals g) choice = Console.Chosen name ->
    Console.animals g !! name = Some t ->
    RedHerring t = false ->
    Infected t = false ->
    Level t = Level p \/ Level t = Go.add (Level p) 1 ->
    let a := Console.attemptInfection (Console.maxLevel g) p t (Console.virus g)
                                      (Console.stats g) (Console.rng g) in
    console_step_kind g choice (console_after g name a, Console.outcome a).

(** Every step of the second graphical program is of one of four
    kinds. *)
Inductive outbreak_step_kind (now : Z) (w : Outbreak.Window)
    : Outbreak.Window * Outcome -> Prop :=
| outbreak_stays (o : Outcome) : outbreak_step_kind now w (w, o)
| outbreak_begins :
    Outbreak.screen w = Intro ->
    outbreak_step_kind now w
      (Outbreak.mkWindow (Outbreak.state w) StarterSelection (Outbreak.rng w),
       Started)
| outbreak_chooses (name : string) (a : Animal) :
    Outbreak.screen w = StarterSelection ->
    Outbreak.animals (Outbreak.state w) !! name = Some a ->
    Level a = 1 ->
    RedHerring a = false ->
    outbreak_step_kind now w (Outbreak.chooseButton now name a w)
| outbreak_infects (p : Animal) (name : string) (t : Animal) :
    Outbreak.screen w = GameScreen ->
    Outbreak.animals (Outbreak.state w)
      !! Outbreak.playerName (Outbreak.state w) = Some p ->
    Outbreak.animals (Outbreak.state w) !! name = Some t ->
    Outbreak.hasCard p t = true ->
    outbreak_step_kind now w (Outbreak.infectButton p name t w).

(** And so is every step of the first. *)
Inductive evolution_step_kind (now : Z) (w : Evolution.Window)
    : Evolution.Window * Outcome -> Prop :=
| evolution_stays (o : Outcome) : evolution_step_kind now w (w, o)
| evolution_begins :
    Evolution.screen w = Intro ->
    evolution_step_kind now w
      (Evolution.mkWindow (Evolution.state w) StarterSelection
                          (Evolution.rng w),
       Started)
| evolution_chooses (name : string) (a : Animal) :
    Evolution.screen w = StarterSelection ->
    Evolution.animals (Evolution.state w) !! name = Some a ->
    Level a = 1 ->
    RedHerring a = false ->
    evolution_step_kind now w (Evolution.chooseButton now a w)
| evolution_infects (p : Animal) (name : string) (t : Animal) :
    Evolution.screen w = GameScreen ->
    Evolution.animals (Evolution.state w)
      !! Evolution.playerName (Evolution.state w) = Some p ->
    Evolution.animals (Evolution.state w) !! name = Some t ->
    Evolution.isValidTarget
      (Evolution.getValidTargets p (Evolution.animals (Evolution.state w))) t
    = true ->
    evolution_step_kind now w (Evolution.infectButton p name t w).

(** The red herrings of [m] are found unchanged in [m']. *)
Definition rh_kept (m m' : gmap string Animal) : Prop :=
  forall name a, m !! name = Some a -> RedHerring a = true ->
                 m' !! name = Some a.

(** The counters of the tracker are consistent. *)
Definition tally_ok (s : Stats) : Prop :=
  0 <= SameLevelInfections s /\ 0 <= NextLevelInfections s
  /\ SameLevelInfections s + NextLevelInfections s <= Attempts s.

(** No counter of [s'] is below its value in [s]. *)
Definition tally_le (s s' : Stats) : Prop :=
  Attempts s <= Attempts s'
  /\ SameLevelInfections s <= SameLevelInfections s'
  /\ NextLevelInfections s <= NextLevelInfections s'.

(** A tracker after one attempt: the attempt is counted, and at most one
    of the two infection counters with it. *)
Inductive tallied (s : Stats) : Stats -> Prop :=
| tallied_attempt : tallied s (bumpAttempts s)
| tallied_same : tallied s (bumpSameLevel (bumpAttempts s))
| tallied_next : tallied s (bumpNextLevel (bumpAttempts s)).

(** A step of a machine either leaves the tracker's counters alone or
    runs one attempt on them. *)
Definition counted (s s' : Stats) : Prop :=
  (Attempts s' = Attempts s
   /\ SameLevelInfections s' = SameLevelInfections s
   /\ NextLevelInfections s' = NextLevelInfections s)
  \/ tallied s s'.

(** Every host is stored under its own name, as the loaders store it. *)
Definition keyed (m : gmap string Animal) : Prop :=
  forall name a, m !! name = Some a -> Name a = name.

(** ** The specification's own words

    The score of the specification, over the integers: the counters of
    the tracker and the whole seconds of the elapsed time, with the
    floor of the halved seconds and the clamp at zero. *)
Definition specScore (attempts sameLevel nextLevel seconds : Z) : Z :=
  Z.max (1000 + 200 * nextLevel - 100 * sameLevel - 10 * attempts
         - seconds / 2) 0.

(** Counters that leave room for the weights of the score in an [int]. *)
Definition count_ok (n : Z) : Prop := 0 <= n <= 2 ^ 55.

Definition counts_ok (s : Stats) : Prop :=
  count_ok (Attempts s) /\ count_ok (SameLevelInfections s)
  /\ count_ok (NextLevelInfections s).

(** ** Notions used by the further properties *)

(** The roster changes by infections only: no key comes or goes, and an
    entry is what it was or what it was with the flag set. *)
Definition only_infects (m m' : gmap string Animal) : Prop :=
  forall name,
    match m !! name with
    | Some a => m' !! name = Some a \/ m' !! name = Some (infect a)
    | None => m' !! name = None
    end.

(** The host stored under [name] is infected and is no red herring. *)
Definition hosted (m : gmap string Animal) (name : string) : Prop :=
  exists p, m !! name = Some p /\ Infected p = true /\ RedHerring p = false.

(** The names of the parsed animals, in file order. *)
Definition parsedNames (raw : list (list Animal)) : list string :=
  Name <$> concat raw.

(** What holds of the console program all along a run that began with
    the generator [rng0]: the day and the attempts stay under the turn
    ceiling; every value taken from the generator is an attempt; once
    the game has started the player's host is in the roster, infected
    and no red herring; a prompt for a target has a target to offer; the
    game is won only at [maxLevel]; the starters offered are at level
    1. *)
Definition console_sound (rng0 : Go.Rand) (g : Console.Game) : Prop :=
  (1 <= Console.day g <= 1000
   /\ 0 <= Attempts (Console.stats g) <= 999
   /\ (Console.phase g = Console.SelectingStarter ->
       Attempts (Console.stats g) = 0)
   /\ (Console.phase g = Console.Playing ->
       Console.day g <= 999 /\ Attempts (Console.stats g) < Console.day g))
  /\ (forall k : nat,
       Console.rng g k
       = rng0 (Z.to_nat (Attempts (Console.stats g)) + k)%nat)
  /\ (Console.phase g <> Console.SelectingStarter ->
      hosted (Console.animals g) (Console.player g))
  /\ (Console.phase g = Console.Playing ->
      exists p, Console.animals g !! Console.player g = Some p
                /\ Console.getValidTargets p (Console.animals g) <> [])
  /\ (Console.phase g = Console.Won ->
      exists p, Console.animals g !! Console.player g = Some p
                /\ Level p = Console.maxLevel g)
  /\ (Console.phase g = Console.SelectingStarter ->
      forall name a,
        name ∈ Console.levelOne g -> Console.animals g !! name = Some a ->
        Level a = 1).

(** What holds of the window of a graphical program all along a run:
    hosts are stored under their names; on the game screen and on the
    win screen the player's host is in the roster, infected and no red
    herring; the win screen is shown only at [maxLevel]. *)
Definition window_sound (animals : gmap string Animal) (playerName : string)
    (maxLevel : Z) (screen : Screen) : Prop :=
  keyed animals
  /\ (screen = GameScreen \/ screen = WinScreen -> hosted animals playerName)
  /\ (screen = WinScreen ->
      exists p, animals !! playerName = Some p /\ Level p = maxLevel).

(** What holds of a contact-list program all along a run that began
    with the roster [m0] and the generator [rng0]: the roster changes
    by infections only; the turn stays within the six of the loop; fewer
    values were taken from the generator than the number of the turn;
    once the game has started the player's host is in the roster and
    infected, and every infected host is that host, one of its
    contacts, or was infected in [m0]. *)
Definition contact_sound (m0 : gmap string Contact.Animal) (rng0 : Go.Rand)
    (g : Contact.Game) : Prop :=
  Contact.only_infects m0 (Contact.animals g)
  /\ (Contact.phase g = Contact.SelectingStarter ->
      Contact.animals g = m0 /\ Contact.turn g = 1)
  /\ (Contact.phase g = Contact.Playing -> 1 <= Contact.turn g <= 6)
  /\ (Contact.phase g = Contact.Complete -> Contact.turn g = 7)
  /\ (exists n : nat,
        Z.of_nat n < Contact.turn g
        /\ forall k : nat, Contact.rng g k = rng0 (n + k)%nat)
  /\ (Contact.phase g <> Contact.SelectingStarter ->
      exists p,
        Contact.animals g !! Contact.player g = Some p
        /\ Contact.Infected p = true
        /\ forall name a,
             Contact.animals g !! name = Some a ->
             Contact.Infected a = true ->
             name = Contact.player g \/ name ∈ Contact.Contacts p
             \/ exists a0, m0 !! name = Some a0
                           /\ Contact.Infected a0 = true).

(** * Properties *)

(** ** Machine integers *)

Lemma wrap_small (z : Z) : Go.int_ok z -> Go.wrap z = z.
Proof.
  unfold Go.int_ok, Go.int_min, Go.int_max, Go.wrap. intros H.
  rewrite Z.mod_small; lia.
Qed.

Lemma wrap_ok (z : Z) : Go.int_ok (Go.wrap z).
Proof.
  unfold Go.int_ok, Go.int_min, Go.int_max, Go.wrap.
  pose proof (Z.mod_pos_bound (z + 2 ^ 63) (2 ^ 64) ltac:(lia)). lia.
Qed.

Lemma int_of_float64_ok (f : float) : Go.int_ok (Go.int_of_float64 f).
Proof.
  unfold Go.int_of_float64. destruct (Prim2SF f); try apply wrap_ok;
    unfold Go.int_ok, Go.int_min, Go.int_max; lia.
Qed.

Lemma incr_small (z : Z) : Go.int_min <= z < Go.int_max -> Go.add z 1 = z + 1.
Proof.
  intros H. unfold Go.add. apply wrap_small.
  unfold Go.int_ok, Go.int_min, Go.int_max in *. lia.
Qed.

(** ** The collecting loop *)

Lemma elem_of_collect_acc {A B : Type} (keep : A -> bool) (out : A -> B)
    (l : list A) (acc : list B) (y : B) :
  y ∈ fold_left (fun acc x => if keep x then acc ++ [out x] else acc) l acc
  <-> y ∈ acc \/ exists x, x ∈ l /\ keep x = true /\ y = out x.
Proof.
  revert acc. induction l as [|x l IH]; intros acc; simpl.
  - split; [auto | intros [H | (x & H & _)]; [done | by apply elem_of_nil in H]].
  - rewrite IH. destruct (keep x) eqn:Hk.
    + rewrite elem_of_app, list_elem_of_singleton. split.
      * intros [[H | ->] | (x' & H & Hk' & ->)].
        -- by left.
        -- right. exists x. split; [apply elem_of_cons; by left | done].
        -- right. exists x'. split; [apply elem_of_cons; by right | done].
      * intros [H | (x' & H & Hk' & ->)].
        -- left. by left.
        -- apply elem_of_cons in H as [-> | H].
           ++ left. by right.
           ++ right. by exists x'.
    + split.
      * intros [H | (x' & H & Hk' & ->)].
        -- by left.
        -- right. exists x'. split; [apply elem_of_cons; by right | done].
      * intros [H | (x' & H & Hk' & ->)].
        -- by left.
        -- apply elem_of_cons in H as [-> | H]; [congruence |].
           right. by exists x'.
Qed.

Lemma elem_of_collect {A B : Type} (keep : A -> bool) (out : A -> B)
    (l : list A) (y : B) :
  y ∈ collect keep out l <-> exists x, x ∈ l /\ keep x = true /\ y = out x.
Proof.
  unfold collect. rewrite elem_of_collect_acc. split; [|eauto].
  intros [H | H]; [by apply elem_of_nil in H | done].
Qed.

(** ** The score *)

Lemma quot2_floor (q : Z) : 0 <= q -> Go.int_ok q -> Go.quot q 2 = q / 2.
Proof.
  intros Hq Hok. unfold Go.quot. rewrite Z.quot_div_nonneg by lia.
  apply wrap_small. unfold Go.int_ok, Go.int_min, Go.int_max in *.
  pose proof (Z.div_pos q 2). pose proof (Z.div_le_upper_bound q 2 q). lia.
Qed.

Lemma weighted_sum (a s n h : Z) :
  count_ok a -> count_ok s -> count_ok n -> 0 <= h <= 2 ^ 62 ->
  Go.sub (Go.sub (Go.sub (Go.add 1000 (Go.mul n 200)) (Go.mul s 100))
                 (Go.mul a 10)) h
  = 1000 + 200 * n - 100 * s - 10 * a - h.
Proof.
  unfold count_ok. intros Ha Hs Hn Hh.
  assert (Hr : forall z, - 2 ^ 63 <= z <= 2 ^ 63 - 1 -> Go.wrap z = z)
    by (intros z Hz; apply wrap_small; exact Hz).
  unfold Go.add, Go.sub, Go.mul.
  rewrite (Hr (n * 200)) by lia. rewrite (Hr (1000 + n * 200)) by lia.
  rewrite (Hr (s * 100)) by lia. rewrite (Hr (1000 + n * 200 - s * 100)) by lia.
  rewrite (Hr (a * 10)) by lia.
  rewrite (Hr (1000 + n * 200 - s * 100 - a * 10)) by lia.
  rewrite Hr by lia. lia.
Qed.

Lemma clamp_max (z : Z) : (if z <? 0 then 0 else z) = Z.max z 0.
Proof. destruct (Z.ltb_spec z 0); lia. Qed.

Lemma half_bound (q : Z) : 0 <= q -> Go.int_ok q -> 0 <= q / 2 <= 2 ^ 62.
Proof.
  unfold Go.int_ok, Go.int_min, Go.int_max. intros H0 H1. split.
  - apply Z.div_pos; lia.
  - apply Z.div_le_upper_bound; lia.
Qed.

Lemma console_score_spec (stats : Stats) (elapsed : Z) :
  count_ok (Attempts stats) -> count_ok (SameLevelInfections stats) ->
  count_ok (NextLevelInfections stats) ->
  0 <= Go.int_of_float64 (Go.Seconds elapsed) ->
  Console.calculateScore stats elapsed
  = specScore (Attempts stats) (SameLevelInfections stats)
              (NextLevelInfections stats)
              (Go.int_of_float64 (Go.Seconds elapsed)).
Proof.
  intros Ha Hs Hn Hq. unfold Console.calculateScore, specScore.
  pose proof (int_of_float64_ok (Go.Seconds elapsed)) as Hok.
  rewrite quot2_floor by assumption.
  rewrite weighted_sum by (try assumption; by apply half_bound).
  apply clamp_max.
Qed.

Lemma evolution_score_console (stats : Stats) (elapsed : Z) :
  Evolution.calculateScore stats elapsed = Console.calculateScore stats elapsed.
Proof. unfold Evolution.calculateScore, Console.calculateScore. reflexivity. Qed.

Lemma outbreak_score_console (now : Z) (st : Outbreak.GameState) :
  Outbreak.calculateScore now st
  = Console.calculateScore (Outbreak.stats st)
      (Go.Since now (StartTime (Outbreak.stats st))).
Proof. unfold Outbreak.calculateScore, Console.calculateScore. reflexivity. Qed.

Lemma console_score_nonneg (stats : Stats) (elapsed : Z) :
  0 <= Console.calculateScore stats elapsed.
Proof.
  unfold Console.calculateScore.
  match goal with |- 0 <= (if ?z <? 0 then _ else _) =>
    destruct (Z.ltb_spec z 0); lia end.
Qed.

(** ** The attempt, program by program *)

Lemma console_attempt_failure (maxLevel : Z) (p t : Animal) (v : Virus)
    (s : Stats) (g : Go.Rand) :
  PrimFloat.ltb (g O) (PrimFloat.mul (InfectionRate t) (Strength v)) = false ->
  Console.attemptInfection maxLevel p t v s g
  = Console.mkAttempt t (bumpAttempts s) (fun n => g (S n)) false false Failure.
Proof. intros H. unfold Console.attemptInfection. simpl. by rewrite H. Qed.

Lemma console_attempt_success (maxLevel : Z) (p t : Animal) (v : Virus)
    (s : Stats) (g : Go.Rand) :
  PrimFloat.ltb (g O) (PrimFloat.mul (InfectionRate t) (Strength v)) = true ->
  Console.attemptInfection maxLevel p t v s g
  = Console.mkAttempt (infect t)
      (if Level t =? Level p then bumpSameLevel (bumpAttempts s)
       else if Level t =? Go.add (Level p) 1 then bumpNextLevel (bumpAttempts s)
       else bumpAttempts s)
      (fun n => g (S n))
      (Level p <? Level t)
      ((Level p <? Level t) && (Level t =? maxLevel))
      Success.
Proof.
  intros H. unfold Console.attemptInfection. simpl. rewrite H.
  destruct (Level p <? Level t); [destruct (Level t =? maxLevel)|]; reflexivity.
Qed.

Lemma evolution_attempt_failure (p t : Animal) (v : Virus) (s : Stats)
    (g : Go.Rand) :
  PrimFloat.ltb (g O) (PrimFloat.mul (InfectionRate t) (Strength v)) = false ->
  Evolution.attemptInfection p t v s g
  = Evolution.mkAttempt t (bumpAttempts s) (fun n => g (S n)) false.
Proof. intros H. unfold Evolution.attemptInfection. simpl. by rewrite H. Qed.

Lemma evolution_attempt_success (p t : Animal) (v : Virus) (s : Stats)
    (g : Go.Rand) :
  PrimFloat.ltb (g O) (PrimFloat.mul (InfectionRate t) (Strength v)) = true ->
  Evolution.attemptInfection p t v s g
  = Evolution.mkAttempt (infect t)
      (if Level t =? Level p then bumpSameLevel (bumpAttempts s)
       else if Level t =? Go.add (Level p) 1 then bumpNextLevel (bumpAttempts s)
       else bumpAttempts s)
      (fun n => g (S n)) true.
Proof. intros H. unfold Evolution.attemptInfection. simpl. by rewrite H. Qed.

Lemma outbreak_button_blocked (p : Animal) (name : string) (t : Animal)
    (w : Outbreak.Window) :
  RedHerring t = true ->
  Outbreak.infectButton p name t w
  = (Outbreak.mkWindow
       (Outbreak.setStats (bumpAttempts (Outbreak.stats (Outbreak.state w)))
                          (Outbreak.state w))
       (Outbreak.screen w) (Outbreak.rng w),
     Blocked).
Proof. intros H. unfold Outbreak.infectButton. by rewrite H. Qed.

Lemma outbreak_button_failure (p : Animal) (name : string) (t : Animal)
    (w : Outbreak.Window) :
  RedHerring t = false ->
  PrimFloat.ltb (Outbreak.rng w O)
    (PrimFloat.mul (InfectionRate t)
                   (Strength (Outbreak.virus (Outbreak.state w)))) = false ->
  Outbreak.infectButton p name t w
  = (Outbreak.mkWindow
       (Outbreak.setStats (bumpAttempts (Outbreak.stats (Outbreak.state w)))
                          (Outbreak.state w))
       (Outbreak.screen w) (fun n => Outbreak.rng w (S n)),
     Failure).
Proof.
  intros Hr H. unfold Outbreak.infectButton. rewrite Hr. simpl. by rewrite H.
Qed.

Lemma outbreak_button_success (p : Animal) (name : string) (t : Animal)
    (w : Outbreak.Window) :
  RedHerring t = false ->
  PrimFloat.ltb (Outbreak.rng w O)
    (PrimFloat.mul (InfectionRate t)
                   (Strength (Outbreak.virus (Outbreak.state w)))) = true ->
  Outbreak.infectButton p name t w
  = (let st := Outbreak.state w in
     Outbreak.mkWindow
       (Outbreak.mkGameState
          (<[name := infect t]> (Outbreak.animals st)) (Name t)
          (Outbreak.maxLevel st) (Go.add (Outbreak.currentDay st) 1)
          (Outbreak.virus st)
          (if Level p <? Level t
           then bumpNextLevel (bumpAttempts (Outbreak.stats st))
           else bumpSameLevel (bumpAttempts (Outbreak.stats st)))
          (Outbreak.redFacts st) (Outbreak.score st))
       (if Level t =? Outbreak.maxLevel st then WinScreen else GameScreen)
       (fun n => Outbreak.rng w (S n)),
     Success).
Proof.
  intros Hr H. unfold Outbreak.infectButton. rewrite Hr. simpl. by rewrite H.
Qed.

(** ** Eligibility *)

Lemma adjacent_iff (p a : Animal) :
  adjacent p a = true
  <-> Level a = Level p \/ Level a = Go.add (Level p) 1.
Proof.
  unfold adjacent. rewrite orb_true_iff, !Z.eqb_eq. reflexivity.
Qed.

Lemma console_valid_iff (p : Animal) (m : gmap string Animal) (name : string) :
  name ∈ Console.getValidTargets p m
  <-> exists a, m !! name = Some a /\ Infected a = false
                /\ (Level a = Level p \/ Level a = Go.add (Level p) 1).
Proof.
  unfold Console.getValidTargets. rewrite elem_of_collect. split.
  - intros ([k a] & Hin & Hkeep & ->). simpl in *.
    apply elem_of_map_to_list in Hin. exists a.
    destruct (Infected a); [discriminate|].
    by rewrite <- adjacent_iff.
  - intros (a & Hm & Hi & Hadj). exists (name, a). simpl.
    rewrite elem_of_map_to_list, Hi. by rewrite <- adjacent_iff in Hadj.
Qed.

Lemma evolution_valid_iff (p : Animal) (m : gmap string Animal) (a : Animal) :
  a ∈ Evolution.getValidTargets p m
  <-> (exists name, m !! name = Some a) /\ Infected a = false
      /\ RedHerring a = false
      /\ (Level a = Level p \/ Level a = Go.add (Level p) 1).
Proof.
  unfold Evolution.getValidTargets. rewrite elem_of_collect. split.
  - intros ([k b] & Hin & Hkeep & ->). simpl in *.
    apply elem_of_map_to_list in Hin.
    destruct (Infected b); [discriminate|].
    destruct (RedHerring b); [discriminate|]. simpl in Hkeep.
    rewrite <- adjacent_iff. eauto.
  - intros ((name & Hm) & Hi & Hr & Hadj). exists (name, a). simpl.
    rewrite elem_of_map_to_list, Hi, Hr. by rewrite <- adjacent_iff in Hadj.
Qed.

Lemma outbreak_card_iff (p t : Animal) :
  Outbreak.hasCard p t = true
  <-> Infected t = false
      /\ (Level t = Level p \/ Level t = Go.add (Level p) 1).
Proof.
  unfold Outbreak.hasCard.
  destruct (Infected t); simpl.
  - split; [discriminate | intros [? _]; discriminate].
  - destruct (Z.eqb_spec (Level t) (Level p)) as [E1|E1];
      destruct (Z.eqb_spec (Level t) (Go.add (Level p) 1)) as [E2|E2];
      simpl; split; auto; try discriminate.
    intros [_ [?|?]]; contradiction.
Qed.

Lemma console_chosen (p : Animal) (m : gmap string Animal) (choice : Z)
    (name : string) :
  Console.chooseTarget p m choice = Console.Chosen name ->
  exists t, m !! name = Some t /\ RedHerring t = false
            /\ name ∈ Console.getValidTargets p m.
Proof.
  unfold Console.chooseTarget. intros H.
  destruct (_ =? 0); [discriminate|].
  destruct (choice =? _); [discriminate|].
  destruct (_ && _); [|discriminate].
  destruct (Console.getValidTargets p m !! Z.to_nat (choice - 1))
    as [targetName|] eqn:Hl; [|discriminate].
  destruct (m !! targetName) as [t|] eqn:Hm; [|discriminate].
  destruct (RedHerring t) eqn:Hr; [discriminate|].
  injection H as <-. exists t. split; [done | split; [done|]].
  eapply list_elem_of_lookup_2; eauto.
Qed.

Lemma console_red_herring_again (p : Animal) (m : gmap string Animal)
    (choice : Z) :
  Console.chooseTarget p m choice = Console.RedHerringAgain
  <-> exists name t,
        Console.getValidTargets p m !! Z.to_nat (choice - 1) = Some name
        /\ 1 <= choice <= Z.of_nat (length (Console.getValidTargets p m))
        /\ m !! name = Some t /\ RedHerring t = true.
Proof.
  unfold Console.chooseTarget.
  set (valid := Console.getValidTargets p m). split.
  - intros H.
    destruct (_ =? 0); [discriminate|].
    destruct (choice =? _); [discriminate|].
    destruct (_ && _) eqn:Hb; [|discriminate].
    apply andb_true_iff in Hb as [H1 H2]. apply Z.leb_le in H1, H2.
    destruct (valid !! Z.to_nat (choice - 1)) as [name|]; [|discriminate].
    destruct (m !! name) as [t|] eqn:Hm; [|discriminate].
    destruct (RedHerring t) eqn:Hr; [|discriminate].
    exists name, t. repeat split; auto.
  - intros (name & t & Hl & [H1 H2] & Hm & Hr).
    destruct (Z.eqb_spec (Z.of_nat (length valid)) 0); [lia|].
    destruct (Z.eqb_spec choice (Z.of_nat (length valid) + 1)); [lia|].
    destruct (Z.leb_spec 1 choice); [|lia].
    destruct (Z.leb_spec choice (Z.of_nat (length valid))); [|lia].
    simpl. by rewrite Hl, Hm, Hr.
Qed.

Lemma console_starter_chosen (m : gmap string Animal) (l : list string)
    (choice : Z) (start : string) :
  Console.askStarterAnimal m l choice = Console.Chosen start ->
  exists a, m !! start = Some a /\ RedHerring a = false /\ start ∈ l.
Proof.
  unfold Console.askStarterAnimal. intros H.
  destruct (_ && _); [|discriminate].
  destruct (l !! Z.to_nat (choice - 1)) as [selected|] eqn:Hl; [|discriminate].
  destruct (m !! selected) as [a|] eqn:Hm; [|discriminate].
  destruct (RedHerring a) eqn:Hr; [discriminate|].
  injection H as <-. exists a. split; [done | split; [done|]].
  eapply list_elem_of_lookup_2; eauto.
Qed.

(** ** The console machine *)

(** Passing days touches the day counter and the phase only, and the
    only phase it can enter is [Ended]. *)
Lemma console_days_frame (fuel : nat) (g : Console.Game) :
  let g' := Console.days fuel g in
  Console.animals g' = Console.animals g
  /\ Console.stats g' = Console.stats g
  /\ Console.player g' = Console.player g
  /\ Console.maxLevel g' = Console.maxLevel g
  /\ Console.rng g' = Console.rng g
  /\ (Console.phase g' = Console.phase g
      \/ Console.phase g' = Console.Ended).
Proof.
  revert g. induction fuel as [|fuel IH]; intros g; simpl.
  - destruct (999 <? Console.day g); simpl; [tauto|].
    destruct (Console.animals g !! Console.player g) as [p|]; [|tauto].
    destruct (Console.getValidTargets p (Console.animals g)); tauto.
  - destruct (999 <? Console.day g); simpl; [tauto|].
    destruct (Console.animals g !! Console.player g) as [p|]; [|tauto].
    destruct (Console.getValidTargets p (Console.animals g)); [|tauto].
    apply (IH (Console.setDay (Go.add (Console.day g) 1) g)).
Qed.

Lemma console_nextDay_frame (g : Console.Game) :
  let g' := Console.nextDay g in
  Console.animals g' = Console.animals g
  /\ Console.stats g' = Console.stats g
  /\ Console.player g' = Console.player g
  /\ Console.maxLevel g' = Console.maxLevel g
  /\ Console.rng g' = Console.rng g
  /\ (Console.phase g' = Console.phase g
      \/ Console.phase g' = Console.Ended).
Proof.
  unfold Console.nextDay.
  apply (console_days_frame 1000 (Console.setDay (Go.add (Console.day g) 1) g)).
Qed.

Lemma console_step_inv (g : Console.Game) (choice : Z) :
  console_step_kind g choice (Console.step g choice).
Proof.
  unfold Console.step.
  destruct (Console.phase g) eqn:Hph.
  - destruct (Console.askStarterAnimal _ _ choice) as [start| | |] eqn:Hask;
      try (constructor; auto).
    destruct (console_starter_chosen _ _ _ _ Hask) as (a & Hm & Hr & _).
    by eapply console_starts.
  - destruct (Console.animals g !! Console.player g) as [p|] eqn:Hp;
      [|constructor; auto].
    destruct (Console.chooseTarget p _ choice) as [name| | |] eqn:Hch;
      try (constructor; auto).
    + destruct (console_chosen _ _ _ _ Hch) as (t & Hm & Hr & Hv).
      rewrite Hm.
      apply console_valid_iff in Hv as (t' & Hm' & Hi & Hadj).
      assert (t' = t) as -> by congruence.
      rewrite <- Hph.
      exact (console_attempts g choice p name t Hph Hp Hch Hm Hr Hi Hadj).
    + by eapply console_skips.
  - constructor; auto.
  - constructor; auto.
Qed.

#[global] Arguments Console.days : simpl never.
#[global] Arguments Console.nextDay : simpl never.

Ltac console_cases g choice :=
  generalize (console_step_inv g choice);
  generalize (Console.step g choice);
  let r := fresh "r" in let H := fresh "Hkind" in
  intros r H; destruct H.

Lemma console_step_attempt (g : Console.Game) (choice : Z) (p : Animal)
    (name : string) (t : Animal) :
  Console.phase g = Console.Playing ->
  Console.animals g !! Console.player g = Some p ->
  Console.chooseTarget p (Console.animals g) choice = Console.Chosen name ->
  Console.animals g !! name = Some t ->
  Console.step g choice
  = (let a := Console.attemptInfection (Console.maxLevel g) p t
                (Console.virus g) (Console.stats g) (Console.rng g) in
     (console_after g name a, Console.outcome a)).
Proof.
  intros Hph Hp Hch Hm. unfold Console.step, console_after.
  rewrite Hph, Hp, Hch, Hm. reflexivity.
Qed.

Lemma console_step_red_herring (g : Console.Game) (choice : Z) (p : Animal) :
  Console.phase g = Console.Playing ->
  Console.animals g !! Console.player g = Some p ->
  Console.chooseTarget p (Console.animals g) choice = Console.RedHerringAgain ->
  Console.step g choice = (g, Blocked).
Proof.
  intros Hph Hp Hch. unfold Console.step. by rewrite Hph, Hp, Hch.
Qed.

Lemma console_terminal (g : Console.Game) (choice : Z) :
  Console.phase g = Console.Won \/ Console.phase g = Console.Ended ->
  Console.step g choice = (g, Refused).
Proof. intros [H|H]; unfold Console.step; by rewrite H. Qed.

Lemma console_run_terminal (g : Console.Game) (choices : list Z) :
  Console.phase g = Console.Won \/ Console.phase g = Console.Ended ->
  Console.run g choices = g.
Proof.
  intros H. induction choices as [|c cs IH]; [reflexivity|].
  unfold Console.run in *. simpl. by rewrite console_terminal.
Qed.

Lemma console_after_frame (g : Console.Game) (name : string)
    (a : Console.Attempt) :
  let g' := console_after g name a in
  Console.animals g' = <[name := Console.target' a]> (Console.animals g)
  /\ Console.stats g' = Console.stats' a
  /\ Console.player g'
     = (if Console.moved a then name else Console.player g)
  /\ Console.maxLevel g' = Console.maxLevel g
  /\ Console.rng g' = Console.rng' a.
Proof.
  unfold console_after. destruct (Console.won a); simpl; [tauto|].
  match goal with |- context [Console.nextDay ?x] =>
    destruct (console_nextDay_frame x) as (-> & -> & -> & -> & -> & _) end.
  simpl. tauto.
Qed.

(** ** Red herrings stay as they are *)

Lemma rh_kept_refl (m : gmap string Animal) : rh_kept m m.
Proof. intros name a H _. exact H. Qed.

Lemma rh_kept_trans (m1 m2 m3 : gmap string Animal) :
  rh_kept m1 m2 -> rh_kept m2 m3 -> rh_kept m1 m3.
Proof. intros H12 H23 name a H Hr. apply H23; auto. Qed.

Lemma rh_kept_insert (m : gmap string Animal) (k : string) (t t' : Animal) :
  m !! k = Some t -> RedHerring t = false -> rh_kept m (<[k := t']> m).
Proof.
  intros Hk Hr name a Hm Ha.
  rewrite lookup_insert_ne; [done|]. intros ->. congruence.
Qed.

Lemma rh_kept_alter (m : gmap string Animal) (k : string) (t : Animal)
    (f : Animal -> Animal) :
  m !! k = Some t -> RedHerring t = false -> rh_kept m (alter f k m).
Proof.
  intros Hk Hr name a Hm Ha.
  rewrite lookup_alter_ne; [done|]. intros ->. congruence.
Qed.

Lemma console_step_rh_kept (g : Console.Game) (choice : Z) :
  rh_kept (Console.animals g) (Console.animals (Console.step g choice).1).
Proof.
  console_cases g choice; simpl.
  - apply rh_kept_refl.
  - match goal with |- context [Console.days ?f ?x] =>
      destruct (console_days_frame f x) as (-> & _) end.
    simpl. by eapply rh_kept_alter.
  - destruct (console_nextDay_frame g) as (-> & _). apply rh_kept_refl.
  - destruct (console_after_frame g name a) as (-> & _).
    by eapply rh_kept_insert.
Qed.

Lemma console_run_rh_kept (g : Console.Game) (choices : list Z) :
  rh_kept (Console.animals g) (Console.animals (Console.run g choices)).
Proof.
  revert g. induction choices as [|c cs IH]; intros g.
  - apply rh_kept_refl.
  - eapply rh_kept_trans; [apply (console_step_rh_kept g c)|].
    apply (IH (Console.step g c).1).
Qed.

Lemma console_starter_not_red_herring (g : Console.Game) (choice : Z) :
  Console.phase g = Console.SelectingStarter ->
  (Console.step g choice).2 = Started ->
  exists a, Console.animals g !! Console.player (Console.step g choice).1
            = Some a
            /\ RedHerring a = false.
Proof.
  intros Hph. console_cases g choice; simpl; intros Ho.
  - destruct H; congruence.
  - match goal with |- context [Console.days ?f ?x] =>
      destruct (console_days_frame f x) as (_ & _ & -> & _) end.
    simpl. eauto.
  - congruence.
  - congruence.
Qed.

(** ** The counters *)

Lemma tallied_counts (s s' : Stats) :
  tallied s s' -> tally_ok s -> Attempts s < Go.int_max ->
  tally_ok s' /\ tally_le s s' /\ Attempts s' = Attempts s + 1.
Proof.
  unfold tally_ok, tally_le. intros H (H1 & H2 & H3) Hmax.
  assert (Ha : Go.add (Attempts s) 1 = Attempts s + 1)
    by (apply incr_small; unfold Go.int_min; lia).
  assert (Hs : Go.add (SameLevelInfections s) 1 = SameLevelInfections s + 1)
    by (apply incr_small; unfold Go.int_min; lia).
  assert (Hn : Go.add (NextLevelInfections s) 1 = NextLevelInfections s + 1)
    by (apply incr_small; unfold Go.int_min; lia).
  destruct H; simpl; rewrite ?Ha, ?Hs, ?Hn; lia.
Qed.

Lemma console_attempt_tallied (maxLevel : Z) (p t : Animal) (v : Virus)
    (s : Stats) (g : Go.Rand) :
  tallied s (Console.stats' (Console.attemptInfection maxLevel p t v s g)).
Proof.
  destruct (PrimFloat.ltb (g O) (PrimFloat.mul (InfectionRate t) (Strength v)))
    eqn:E.
  - rewrite console_attempt_success by exact E. simpl.
    destruct (Level t =? Level p); [constructor|].
    destruct (Level t =? Go.add (Level p) 1); constructor.
  - rewrite console_attempt_failure by exact E. constructor.
Qed.

Lemma outbreak_button_tallied (p : Animal) (name : string) (t : Animal)
    (w : Outbreak.Window) :
  tallied (Outbreak.stats (Outbreak.state w))
          (Outbreak.stats (Outbreak.state (Outbreak.infectButton p name t w).1)).
Proof.
  destruct (RedHerring t) eqn:Hr.
  - rewrite outbreak_button_blocked by exact Hr. constructor.
  - destruct (PrimFloat.ltb (Outbreak.rng w O)
                (PrimFloat.mul (InfectionRate t)
                   (Strength (Outbreak.virus (Outbreak.state w))))) eqn:E.
    + rewrite outbreak_button_success by assumption. simpl.
      destruct (Level p <? Level t); constructor.
    + rewrite outbreak_button_failure by assumption. constructor.
Qed.

Lemma counted_counts (s s' : Stats) (k : Z) :
  counted s s' -> tally_ok s -> Attempts s <= k -> k < Go.int_max ->
  tally_ok s' /\ tally_le s s' /\ Attempts s' <= k + 1.
Proof.
  intros [(Ha & Hs & Hn) | H] Hok Hk Hmax.
  - unfold tally_ok, tally_le in *. rewrite Ha, Hs, Hn. lia.
  - destruct (tallied_counts s s' H Hok) as (? & ? & ?); [lia|].
    split; [assumption | split; [assumption | lia]].
Qed.

Lemma console_step_counted (g : Console.Game) (choice : Z) :
  counted (Console.stats g) (Console.stats (Console.step g choice).1).
Proof.
  console_cases g choice; simpl.
  - by left.
  - match goal with |- context [Console.days ?f ?x] =>
      destruct (console_days_frame f x) as (_ & -> & _) end.
    by left.
  - destruct (console_nextDay_frame g) as (_ & -> & _). by left.
  - destruct (console_after_frame g name a) as (_ & -> & _).
    right. apply console_attempt_tallied.
Qed.

(** ** The graphical machines *)

Lemma outbreak_step_inv (now : Z) (w : Outbreak.Window) (c : Click) :
  outbreak_step_kind now w (Outbreak.step now w c).
Proof.
  unfold Outbreak.step.
  destruct (Outbreak.screen w) eqn:Hs; destruct c as [|name|name|];
    try apply outbreak_stays.
  - by apply outbreak_begins.
  - destruct (Outbreak.animals (Outbreak.state w) !! name) as [a|] eqn:Ha;
      [|apply outbreak_stays].
    destruct (Z.eqb_spec (Level a) 1) as [H1|H1]; [|apply outbreak_stays].
    destruct (RedHerring a) eqn:Hr.
    + unfold Outbreak.chooseButton. rewrite Hr. apply outbreak_stays.
    + by apply outbreak_chooses.
  - destruct (Outbreak.animals (Outbreak.state w)
                !! Outbreak.playerName (Outbreak.state w)) as [p|] eqn:Hp;
      [|apply outbreak_stays].
    destruct (Outbreak.animals (Outbreak.state w) !! name) as [t|] eqn:Ht;
      [|apply outbreak_stays].
    destruct (Outbreak.hasCard p t) eqn:Hc; [|apply outbreak_stays].
    by apply outbreak_infects.
Qed.

Lemma evolution_step_inv (now : Z) (w : Evolution.Window) (c : Click) :
  evolution_step_kind now w (Evolution.step now w c).
Proof.
  unfold Evolution.step.
  destruct (Evolution.screen w) eqn:Hs; destruct c as [|name|name|];
    try apply evolution_stays.
  - by apply evolution_begins.
  - destruct (Evolution.animals (Evolution.state w) !! name) as [a|] eqn:Ha;
      [|apply evolution_stays].
    destruct (Z.eqb_spec (Level a) 1) as [H1|H1]; [|apply evolution_stays].
    destruct (RedHerring a) eqn:Hr.
    + unfold Evolution.chooseButton. rewrite Hr. apply evolution_stays.
    + by eapply evolution_chooses.
  - destruct (Evolution.animals (Evolution.state w)
                !! Evolution.playerName (Evolution.state w)) as [p|] eqn:Hp;
      [|apply evolution_stays].
    destruct (Evolution.animals (Evolution.state w) !! name) as [t|] eqn:Ht;
      [|apply evolution_stays].
    destruct (Evolution.isValidTarget _ t) eqn:Hc.
    + by apply evolution_infects.
    + destruct (Infected t); [apply evolution_stays|].
      destruct (RedHerring t); apply evolution_stays.
Qed.

Ltac outbreak_cases now w c :=
  generalize (outbreak_step_inv now w c);
  generalize (Outbreak.step now w c);
  let r := fresh "r" in let H := fresh "Hkind" in
  intros r H; destruct H.

Ltac evolution_cases now w c :=
  generalize (evolution_step_inv now w c);
  generalize (Evolution.step now w c);
  let r := fresh "r" in let H := fresh "Hkind" in
  intros r H; destruct H.

(** On the first graphical program's game screen the infect button sits
    on valid targets only, provided hosts are stored under their names. *)
Lemma evolution_button_valid (p t : Animal) (m : gmap string Animal)
    (name : string) :
  keyed m -> m !! name = Some t ->
  Evolution.isValidTarget (Evolution.getValidTargets p m) t = true ->
  Infected t = false /\ RedHerring t = false
  /\ (Level t = Level p \/ Level t = Go.add (Level p) 1).
Proof.
  intros Hk Hm H. unfold Evolution.isValidTarget in H.
  apply existsb_exists in H as (vt & Hin & Heq).
  apply String.eqb_eq in Heq. apply list_elem_of_In in Hin.
  apply evolution_valid_iff in Hin as ((k & Hm') & Hi & Hr & Hadj).
  assert (k = name) as ->.
  { rewrite <- (Hk _ _ Hm'), <- (Hk _ _ Hm). exact Heq. }
  assert (vt = t) as -> by congruence. auto.
Qed.

Lemma keyed_insert (m : gmap string Animal) (k : string) (a : Animal) :
  keyed m -> Name a = k -> keyed (<[k := a]> m).
Proof.
  intros Hk Ha name b. rewrite lookup_insert.
  case_decide as E; [intros [= <-]; by subst | apply Hk].
Qed.

Lemma loadAnimals_keyed (raw : list (list Animal)) : keyed (loadAnimals raw).1.
Proof.
  unfold loadAnimals.
  assert (Hinner : forall group (acc : gmap string Animal * Z),
    keyed acc.1 ->
    keyed (fold_left
             (fun (acc : gmap string Animal * Z) animal =>
                (<[Name animal := animal]> acc.1,
                 if acc.2 <? Level animal then Level animal else acc.2))
             group acc).1).
  { induction group as [|a group IH]; intros acc Hacc; [exact Hacc|].
    simpl. apply IH. simpl. by apply keyed_insert. }
  assert (Houter : forall (acc : gmap string Animal * Z),
    keyed acc.1 ->
    keyed (fold_left
             (fun acc group =>
                fold_left
                  (fun (acc : gmap string Animal * Z) animal =>
                     (<[Name animal := animal]> acc.1,
                      if acc.2 <? Level animal then Level animal else acc.2))
                  group acc)
             raw acc).1).
  { induction raw as [|group raw IH]; intros acc Hacc; [exact Hacc|].
    simpl. apply IH. by apply Hinner. }
  apply Houter. intros name a. simpl. by rewrite lookup_empty.
Qed.

Lemma evolution_button_failure (p : Animal) (name : string) (t : Animal)
    (w : Evolution.Window) :
  PrimFloat.ltb (Evolution.rng w O)
    (PrimFloat.mul (InfectionRate t)
                   (Strength (Evolution.virus (Evolution.state w)))) = false ->
  Evolution.infectButton p name t w
  = (let st := Evolution.state w in
     Evolution.mkWindow
       (Evolution.mkGameState
          (<[name := t]> (Evolution.animals st)) (Evolution.playerName st)
          (Evolution.maxLevel st) (Go.add (Evolution.currentDay st) 1)
          (Evolution.virus st) (bumpAttempts (Evolution.stats st))
          (Evolution.redFacts st))
       GameScreen (fun n => Evolution.rng w (S n)),
     Failure).
Proof.
  intros H. unfold Evolution.infectButton.
  by rewrite evolution_attempt_failure.
Qed.

Lemma evolution_button_success (p : Animal) (name : string) (t : Animal)
    (w : Evolution.Window) :
  PrimFloat.ltb (Evolution.rng w O)
    (PrimFloat.mul (InfectionRate t)
                   (Strength (Evolution.virus (Evolution.state w)))) = true ->
  Evolution.infectButton p name t w
  = (let st := Evolution.state w in
     let stats :=
       if Level t =? Level p
       then bumpSameLevel (bumpAttempts (Evolution.stats st))
       else if Level t =? Go.add (Level p) 1
            then bumpNextLevel (bumpAttempts (Evolution.stats st))
            else bumpAttempts (Evolution.stats st) in
     Evolution.mkWindow
       (Evolution.mkGameState
          (<[name := infect t]> (Evolution.animals st))
          (if Level p <? Level t then Name t else Evolution.playerName st)
          (Evolution.maxLevel st)
          (if (Level p <? Level t) && (Level t =? Evolution.maxLevel st)
           then Evolution.currentDay st
           else Go.add (Evolution.currentDay st) 1)
          (Evolution.virus st) stats (Evolution.redFacts st))
       (if (Level p <? Level t) && (Level t =? Evolution.maxLevel st)
        then WinScreen else GameScreen)
       (fun n => Evolution.rng w (S n)),
     Success).
Proof.
  intros H. unfold Evolution.infectButton.
  rewrite evolution_attempt_success by exact H. simpl.
  destruct (Level p <? Level t);
    [destruct (Level t =? Evolution.maxLevel (Evolution.state w))|];
    reflexivity.
Qed.

Lemma outbreak_button_rh_kept (p : Animal) (name : string) (t : Animal)
    (w : Outbreak.Window) :
  Outbreak.animals (Outbreak.state w) !! name = Some t ->
  rh_kept (Outbreak.animals (Outbreak.state w))
          (Outbreak.animals (Outbreak.state (Outbreak.infectButton p name t w).1)).
Proof.
  intros Ht. destruct (RedHerring t) eqn:Hr.
  - rewrite outbreak_button_blocked by exact Hr. apply rh_kept_refl.
  - destruct (PrimFloat.ltb (Outbreak.rng w O)
                (PrimFloat.mul (InfectionRate t)
                   (Strength (Outbreak.virus (Outbreak.state w))))) eqn:E.
    + rewrite outbreak_button_success by assumption. simpl.
      by eapply rh_kept_insert.
    + rewrite outbreak_button_failure by assumption. apply rh_kept_refl.
Qed.

Lemma outbreak_step_rh_kept (now : Z) (w : Outbreak.Window) (c : Click) :
  rh_kept (Outbreak.animals (Outbreak.state w))
          (Outbreak.animals (Outbreak.state (Outbreak.step now w c).1)).
Proof.
  outbreak_cases now w c.
  - apply rh_kept_refl.
  - apply rh_kept_refl.
  - unfold Outbreak.chooseButton.
    match goal with H : RedHerring a = false |- _ => rewrite H end.
    simpl. by eapply rh_kept_insert.
  - by apply outbreak_button_rh_kept.
Qed.

Lemma outbreak_run_rh_kept (w : Outbreak.Window) (clicks : list (Z * Click)) :
  rh_kept (Outbreak.animals (Outbreak.state w))
          (Outbreak.animals (Outbreak.state (Outbreak.run w clicks))).
Proof.
  revert w. induction clicks as [|[now c] cs IH]; intros w.
  - apply rh_kept_refl.
  - eapply rh_kept_trans; [apply (outbreak_step_rh_kept now w c)|].
    apply (IH (Outbreak.step now w c).1).
Qed.

Lemma outbreak_starter_not_red_herring (now : Z) (w : Outbreak.Window)
    (c : Click) :
  Outbreak.screen w = StarterSelection ->
  (Outbreak.step now w c).2 = Started ->
  exists name a,
    c = Choose name
    /\ Outbreak.animals (Outbreak.state w) !! name = Some a
    /\ RedHerring a = false
    /\ Outbreak.playerName (Outbreak.state (Outbreak.step now w c).1) = Name a.
Proof.
  intros Hs. unfold Outbreak.step. rewrite Hs.
  destruct c as [|name|name|]; simpl; try discriminate.
  destruct (Outbreak.animals (Outbreak.state w) !! name) as [a|] eqn:Ha;
    simpl; [|discriminate].
  destruct (Level a =? 1); simpl; [|discriminate].
  unfold Outbreak.chooseButton.
  destruct (RedHerring a) eqn:Hr; simpl; [discriminate|].
  intros _. exists name, a. auto.
Qed.

Lemma outbreak_step_counted (now : Z) (w : Outbreak.Window) (c : Click) :
  counted (Outbreak.stats (Outbreak.state w))
          (Outbreak.stats (Outbreak.state (Outbreak.step now w c).1)).
Proof.
  outbreak_cases now w c.
  - by left.
  - by left.
  - unfold Outbreak.chooseButton.
    match goal with H : RedHerring a = false |- _ => rewrite H end.
    by left.
  - right. apply outbreak_button_tallied.
Qed.

Lemma evolution_button_tallied (p : Animal) (name : string) (t : Animal)
    (w : Evolution.Window) :
  tallied (Evolution.stats (Evolution.state w))
    (Evolution.stats (Evolution.state (Evolution.infectButton p name t w).1)).
Proof.
  destruct (PrimFloat.ltb (Evolution.rng w O)
              (PrimFloat.mul (InfectionRate t)
                 (Strength (Evolution.virus (Evolution.state w))))) eqn:E.
  - rewrite evolution_button_success by exact E. simpl.
    destruct (Level t =? Level p); [constructor|].
    destruct (Level t =? Go.add (Level p) 1); constructor.
  - rewrite evolution_button_failure by exact E. constructor.
Qed.

Lemma evolution_step_counted (now : Z) (w : Evolution.Window) (c : Click) :
  counted (Evolution.stats (Evolution.state w))
          (Evolution.stats (Evolution.state (Evolution.step now w c).1)).
Proof.
  evolution_cases now w c.
  - by left.
  - by left.
  - unfold Evolution.chooseButton.
    match goal with H : RedHerring a = false |- _ => rewrite H end.
    by left.
  - right. apply evolution_button_tallied.
Qed.

(** Along a run of any machine whose steps are [counted], the counters
    stay consistent and grow by at most one attempt per command. *)
Lemma run_counts {G C : Type} (stats : G -> Stats) (step : G -> C -> G) :
  (forall g c, counted (stats g) (stats (step g c))) ->
  forall cs g k,
    tally_ok (stats g) -> Attempts (stats g) <= k ->
    k + Z.of_nat (length cs) <= Go.int_max ->
    tally_ok (stats (fold_left step cs g))
    /\ Attempts (stats (fold_left step cs g)) <= k + Z.of_nat (length cs)
    /\ tally_le (stats g) (stats (fold_left step cs g)).
Proof.
  intros Hstep. induction cs as [|c cs IH]; intros g k Hok Hk Hmax.
  - simpl. unfold tally_le. split; [exact Hok | split; lia].
  - simpl fold_left. rewrite length_cons, Nat2Z.inj_succ in *.
    destruct (counted_counts _ _ k (Hstep g c) Hok Hk) as (Hok' & Hle & Hk');
      [lia|].
    destruct (IH (step g c) (k + 1) Hok' Hk') as (H1 & H2 & H3); [lia|].
    split; [exact H1 | split; [lia|]].
    unfold tally_le in *. lia.
Qed.

Lemma run_then_step_counts {G C : Type} (stats : G -> Stats)
    (step : G -> C -> G) (g : G) (cs : list C) (c : C) :
  (forall g c, counted (stats g) (stats (step g c))) ->
  Attempts (stats g) = 0 -> SameLevelInfections (stats g) = 0 ->
  NextLevelInfections (stats g) = 0 ->
  Z.of_nat (length cs) < Go.int_max ->
  let g1 := fold_left step cs g in
  tally_ok (stats g1) /\ tally_le (stats g1) (stats (step g1 c))
  /\ tally_ok (stats (step g1 c)).
Proof.
  intros Hstep Ha Hs Hn Hlen g1.
  assert (Hok : tally_ok (stats g)) by (unfold tally_ok; lia).
  destruct (run_counts stats step Hstep cs g 0 Hok) as (H1 & H2 & _);
    [lia | lia |]. fold g1 in H1, H2.
  destruct (counted_counts _ _ (Z.of_nat (length cs)) (Hstep g1 c) H1)
    as (H3 & H4 & _); [lia | lia |].
  auto.
Qed.

Lemma run_counts_ok {G C : Type} (stats : G -> Stats) (step : G -> C -> G)
    (g : G) (cs : list C) :
  (forall g c, counted (stats g) (stats (step g c))) ->
  Attempts (stats g) = 0 -> SameLevelInfections (stats g) = 0 ->
  NextLevelInfections (stats g) = 0 ->
  Z.of_nat (length cs) <= 2 ^ 55 ->
  counts_ok (stats (fold_left step cs g)).
Proof.
  intros Hstep Ha Hs Hn Hlen.
  assert (Hok : tally_ok (stats g)) by (unfold tally_ok; lia).
  destruct (run_counts stats step Hstep cs g 0 Hok) as (H1 & H2 & H3);
    [lia | unfold Go.int_max; lia |].
  unfold tally_ok, tally_le, counts_ok, count_ok in *. lia.
Qed.

Lemma console_boot_stats (raw : list (list Animal)) (now : Z) (g : Go.Rand) :
  Console.stats (Console.boot raw now g) = mkStats 0 0 0 now.
Proof. unfold Console.boot. by destruct (loadAnimals raw). Qed.

Lemma evolution_boot_stats (raw : list (list Animal))
    (facts : gmap string RedHerringInfo) (g : Go.Rand) :
  Evolution.stats (Evolution.state (Evolution.boot raw facts g))
  = mkStats 0 0 0 0.
Proof. unfold Evolution.boot. by destruct (loadAnimals raw). Qed.

Lemma outbreak_boot_stats (raw : list (list Animal))
    (facts : gmap string RedHerringInfo) (now : Z) (g : Go.Rand) :
  Outbreak.stats (Outbreak.state (Outbreak.boot raw facts now g))
  = mkStats 0 0 0 now.
Proof. unfold Outbreak.boot. by destruct (loadAnimals raw). Qed.

(** ** The loader's bound, terminal screens and successful presses *)

Lemma loadAnimals_bound (raw : list (list Animal)) (name : string)
    (a : Animal) :
  (loadAnimals raw).1 !! name = Some a -> Level a <= (loadAnimals raw).2.
Proof.
  unfold loadAnimals.
  set (store := fun (acc : gmap string Animal * Z) animal =>
                  (<[Name animal := animal]> acc.1,
                   if acc.2 <? Level animal then Level animal else acc.2)).
  set (inv := fun acc : gmap string Animal * Z =>
                forall k b, acc.1 !! k = Some b -> Level b <= acc.2).
  assert (Hstore : forall acc animal, inv acc -> inv (store acc animal)).
  { intros acc animal Hacc k b. unfold store. simpl. rewrite lookup_insert.
    case_decide as E.
    - intros [= <-]. destruct (Z.ltb_spec acc.2 (Level animal)); lia.
    - intros Hb. specialize (Hacc k b Hb).
      destruct (Z.ltb_spec acc.2 (Level animal)); lia. }
  assert (Hinner : forall group acc, inv acc -> inv (fold_left store group acc)).
  { induction group as [|x group IH]; intros acc Hacc; [exact Hacc|].
    simpl. apply IH, Hstore, Hacc. }
  assert (Houter : forall acc,
    inv acc ->
    inv (fold_left (fun acc group => fold_left store group acc) raw acc)).
  { induction raw as [|group raw' IH]; intros acc Hacc; [exact Hacc|].
    simpl. apply IH, Hinner, Hacc. }
  apply (Houter (∅, 0)). intros k b. simpl. by rewrite lookup_empty.
Qed.

Lemma loadAnimals_attained (raw : list (list Animal)) :
  (loadAnimals raw).2 = 0
  \/ exists group a, group ∈ raw /\ a ∈ group /\ Level a = (loadAnimals raw).2.
Proof.
  unfold loadAnimals.
  set (store := fun (acc : gmap string Animal * Z) animal =>
                  (<[Name animal := animal]> acc.1,
                   if acc.2 <? Level animal then Level animal else acc.2)).
  set (seen := fun a : Animal => exists group, group ∈ raw /\ a ∈ group).
  set (inv := fun acc : gmap string Animal * Z =>
                acc.2 = 0 \/ exists a, seen a /\ Level a = acc.2).
  assert (Hinner : forall group acc,
    (forall a, a ∈ group -> seen a) -> inv acc ->
    inv (fold_left store group acc)).
  { induction group as [|x group IH]; intros acc Hin Hacc; [exact Hacc|].
    simpl. apply IH.
    - intros a Ha. apply Hin. by right.
    - unfold inv, store. simpl.
      destruct (Z.ltb_spec acc.2 (Level x)); [|exact Hacc].
      right. exists x. split; [apply Hin; by left | done]. }
  assert (Houter : forall groups acc,
    (forall group, group ∈ groups -> group ∈ raw) -> inv acc ->
    inv (fold_left (fun acc group => fold_left store group acc) groups acc)).
  { induction groups as [|group groups IH]; intros acc Hin Hacc; [exact Hacc|].
    simpl. apply IH.
    - intros x Hx. apply Hin. by right.
    - apply Hinner; [|exact Hacc].
      intros a Ha. exists group. split; [apply Hin; by left | exact Ha]. }
  destruct (Houter raw (∅, 0)) as [H | (a & (group & Hg & Ha) & Hl)].
  - auto.
  - by left.
  - by left.
  - right. by exists group, a.
Qed.

Lemma outbreak_terminal (now : Z) (w : Outbreak.Window) (c : Click) :
  Outbreak.screen w = WinScreen -> (Outbreak.step now w c).1 = w.
Proof. intros H. unfold Outbreak.step. rewrite H. by destruct c. Qed.

Lemma outbreak_run_terminal (w : Outbreak.Window) (clicks : list (Z * Click)) :
  Outbreak.screen w = WinScreen -> Outbreak.run w clicks = w.
Proof.
  intros H. induction clicks as [|[now c] cs IH]; [reflexivity|].
  unfold Outbreak.run in *. simpl. by rewrite outbreak_terminal.
Qed.

Lemma outbreak_step_infect (now : Z) (w : Outbreak.Window) (name : string)
    (p t : Animal) :
  Outbreak.screen w = GameScreen ->
  Outbreak.animals (Outbreak.state w)
    !! Outbreak.playerName (Outbreak.state w) = Some p ->
  Outbreak.animals (Outbreak.state w) !! name = Some t ->
  Outbreak.hasCard p t = true ->
  Outbreak.step now w (Infect name) = Outbreak.infectButton p name t w.
Proof.
  intros Hs Hp Ht Hc. unfold Outbreak.step. by rewrite Hs, Hp, Ht, Hc.
Qed.

Lemma outbreak_success_card (now : Z) (w : Outbreak.Window) (name : string)
    (p t : Animal) :
  Outbreak.screen w = GameScreen ->
  Outbreak.animals (Outbreak.state w)
    !! Outbreak.playerName (Outbreak.state w) = Some p ->
  Outbreak.animals (Outbreak.state w) !! name = Some t ->
  (Outbreak.step now w (Infect name)).2 = Success ->
  Outbreak.hasCard p t = true.
Proof.
  intros Hs Hp Ht. unfold Outbreak.step. rewrite Hs, Hp, Ht.
  destruct (Outbreak.hasCard p t); [done | discriminate].
Qed.

(** What a successful button press means for the generator's value. *)
Lemma outbreak_success_draw (p : Animal) (name : string) (t : Animal)
    (w : Outbreak.Window) :
  (Outbreak.infectButton p name t w).2 = Success ->
  RedHerring t = false
  /\ PrimFloat.ltb (Outbreak.rng w O)
       (PrimFloat.mul (InfectionRate t)
                      (Strength (Outbreak.virus (Outbreak.state w)))) = true.
Proof.
  destruct (RedHerring t) eqn:Hr.
  - rewrite outbreak_button_blocked by exact Hr. discriminate.
  - destruct (PrimFloat.ltb _ _) eqn:E; [auto|].
    rewrite outbreak_button_failure by assumption. discriminate.
Qed.

Lemma evolution_success_draw (p : Animal) (name : string) (t : Animal)
    (w : Evolution.Window) :
  (Evolution.infectButton p name t w).2 = Success ->
  PrimFloat.ltb (Evolution.rng w O)
    (PrimFloat.mul (InfectionRate t)
                   (Strength (Evolution.virus (Evolution.state w)))) = true.
Proof.
  destruct (PrimFloat.ltb _ _) eqn:E; [auto|].
  rewrite evolution_button_failure by assumption. discriminate.
Qed.

Lemma console_success_draw (maxLevel : Z) (p t : Animal) (v : Virus)
    (s : Stats) (g : Go.Rand) :
  Console.outcome (Console.attemptInfection maxLevel p t v s g) = Success ->
  PrimFloat.ltb (g O) (PrimFloat.mul (InfectionRate t) (Strength v)) = true.
Proof.
  destruct (PrimFloat.ltb _ _) eqn:E; [auto|].
  rewrite console_attempt_failure by assumption. discriminate.
Qed.

(** ** Hosts stay under their names *)

Lemma outbreak_step_keyed (now : Z) (w : Outbreak.Window) (c : Click) :
  keyed (Outbreak.animals (Outbreak.state w)) ->
  keyed (Outbreak.animals (Outbreak.state (Outbreak.step now w c).1)).
Proof.
  intros Hk. outbreak_cases now w c.
  - exact Hk.
  - exact Hk.
  - match goal with H : _ !! name = Some a |- _ => pose proof (Hk _ _ H) end.
    unfold Outbreak.chooseButton.
    match goal with H : RedHerring a = false |- _ => rewrite H end.
    simpl. by apply keyed_insert.
  - match goal with H : _ !! name = Some t |- _ => pose proof (Hk _ _ H) end.
    destruct (RedHerring t) eqn:Hr.
    + by rewrite outbreak_button_blocked.
    + destruct (PrimFloat.ltb (Outbreak.rng w O)
                  (PrimFloat.mul (InfectionRate t)
                     (Strength (Outbreak.virus (Outbreak.state w))))) eqn:E.
      * rewrite outbreak_button_success by assumption. simpl.
        by apply keyed_insert.
      * by rewrite outbreak_button_failure.
Qed.

Lemma outbreak_run_keyed (raw : list (list Animal))
    (facts : gmap string RedHerringInfo) (now : Z) (g : Go.Rand)
    (clicks : list (Z * Click)) :
  keyed (Outbreak.animals
           (Outbreak.state (Outbreak.run (Outbreak.boot raw facts now g) clicks))).
Proof.
  assert (H0 : keyed (Outbreak.animals
                        (Outbreak.state (Outbreak.boot raw facts now g)))).
  { pose proof (loadAnimals_keyed raw) as H. unfold Outbreak.boot.
    by destruct (loadAnimals raw). }
  revert H0. generalize (Outbreak.boot raw facts now g).
  induction clicks as [|[at_ c] cs IH]; intros w Hw; [exact Hw|].
  apply (IH (Outbreak.step at_ w c).1). by apply outbreak_step_keyed.
Qed.

(** ** Level cases and timer beats *)

Lemma next_level_cases (p t : Animal) :
  Level t = Level p \/ Level t = Go.add (Level p) 1 ->
  (Level p < Level t ->
   (Level t =? Level p) = false /\ (Level t =? Go.add (Level p) 1) = true
   /\ (Level p <? Level t) = true)
  /\ (Level t = Level p ->
      (Level t =? Level p) = true /\ (Level p <? Level t) = false).
Proof.
  intros Hadj. split.
  - intros Hlt. destruct Hadj as [E|E]; [lia|].
    rewrite <- E, Z.eqb_refl.
    split; [apply Z.eqb_neq; lia | split; [done | by apply Z.ltb_lt]].
  - intros E. rewrite E, Z.eqb_refl. split; [done | apply Z.ltb_irrefl].
Qed.

Lemma outbreak_tick (now : Z) (w : Outbreak.Window) :
  (Outbreak.step now w Tick).1 = w.
Proof. unfold Outbreak.step. by destruct (Outbreak.screen w). Qed.

(** * The claims *)

(** ** The resolver *)

(** C1: an attempt on a target that is not a red herring takes one value
    [r] from the generator and compares it with the product
    [target.InfectionRate * virus.Strength] as it stands; it succeeds
    exactly when [r] is below the product, and then the target is marked
    infected; otherwise it fails and the target is left as it was.  This
    is so in [attemptInfection] of the console program and of the first
    graphical program (for every target) and in the INFECT button of the
    second.  With rate 0.75 and strength 2 the product is 1.5. *)
Theorem resolver_threshold :
  (forall maxLevel p t v s g,
     let a := Console.attemptInfection maxLevel p t v s g in
     let chance := PrimFloat.mul (InfectionRate t) (Strength v) in
     Console.rng' a = snd (Go.Float64 g)
     /\ (Console.outcome a = Success <-> PrimFloat.ltb (g O) chance = true)
     /\ (Console.outcome a = Success -> Console.target' a = infect t)
     /\ (Console.outcome a <> Success ->
         Console.outcome a = Failure /\ Console.target' a = t))
  /\ (forall p t v s g,
     let a := Evolution.attemptInfection p t v s g in
     let chance := PrimFloat.mul (InfectionRate t) (Strength v) in
     Evolution.rng' a = snd (Go.Float64 g)
     /\ (Evolution.success a = true <-> PrimFloat.ltb (g O) chance = true)
     /\ (Evolution.success a = true -> Evolution.target' a = infect t)
     /\ (Evolution.success a <> true -> Evolution.target' a = t))
  /\ (forall p name t w,
     RedHerring t = false ->
     let r := Outbreak.infectButton p name t w in
     let st := Outbreak.state w in
     let chance :=
       PrimFloat.mul (InfectionRate t) (Strength (Outbreak.virus st)) in
     Outbreak.rng r.1 = snd (Go.Float64 (Outbreak.rng w))
     /\ (r.2 = Success <-> PrimFloat.ltb (Outbreak.rng w O) chance = true)
     /\ (r.2 = Success ->
         Outbreak.animals (Outbreak.state r.1)
         = <[name := infect t]> (Outbreak.animals st))
     /\ (r.2 <> Success ->
         r.2 = Failure
         /\ Outbreak.animals (Outbreak.state r.1) = Outbreak.animals st))
  /\ (PrimFloat.mul 0.75 2 = 1.5%float
      /\ forall maxLevel p t s,
           InfectionRate t = 0.75%float ->
           Console.outcome
             (Console.attemptInfection maxLevel p t (mkVirus [] 2) s
                                       (fun _ => 0.999%float)) = Success).
Proof.
  split; [|split; [|split]].
  - intros maxLevel p t v s g a chance. subst a chance.
    destruct (PrimFloat.ltb (g O) (PrimFloat.mul (InfectionRate t) (Strength v)))
      eqn:E.
    + rewrite console_attempt_success by exact E. simpl.
      repeat split; intros; congruence || auto.
    + rewrite console_attempt_failure by exact E. simpl.
      repeat split; intros; congruence || auto.
  - intros p t v s g a chance. subst a chance.
    destruct (PrimFloat.ltb (g O) (PrimFloat.mul (InfectionRate t) (Strength v)))
      eqn:E.
    + rewrite evolution_attempt_success by exact E. simpl.
      repeat split; intros; congruence || auto.
    + rewrite evolution_attempt_failure by exact E. simpl.
      repeat split; intros; congruence || auto.
  - intros p name t w Hr r st chance. subst r st chance.
    destruct (PrimFloat.ltb (Outbreak.rng w O)
                (PrimFloat.mul (InfectionRate t)
                   (Strength (Outbreak.virus (Outbreak.state w))))) eqn:E.
    + rewrite outbreak_button_success by assumption. simpl.
      repeat split; intros; congruence || auto.
    + rewrite outbreak_button_failure by assumption. simpl.
      repeat split; intros; congruence || auto.
  - split; [vm_compute; reflexivity|].
    intros maxLevel p t s Ht.
    rewrite console_attempt_success; [reflexivity|].
    simpl. rewrite Ht. vm_compute. reflexivity.
Qed.

(** The elk's INFECT button, pressed by the tourist when the generator
    gives 0.25: one value is taken and the attempt succeeds. *)
Lemma resolver_threshold_witness :
  let w := Outbreak.run (Sample.outbreak 0.25)
             [(0, Begin); (5, Choose "Tourist")] in
  let r := Outbreak.infectButton (infect Sample.tourist) "Elk" Sample.elk w in
  Outbreak.rng r.1 = (Go.Float64 (Outbreak.rng w)).2 /\ r.2 = Success.
Proof.
  destruct (proj1 (proj2 (proj2 resolver_threshold))
              (infect Sample.tourist) "Elk"%string Sample.elk
              (Outbreak.run (Sample.outbreak 0.25)
                 [(0, Begin); (5, Choose "Tourist"%string)]) eq_refl)
    as (H1 & H2 & _).
  split; [exact H1 | apply H2; vm_compute; reflexivity].
Defined.

(** ** Who the player becomes *)

(** C2, as stated, fails in the second graphical program: after the
    tourist has infected the marmot, a host of its own level, the
    player's host is the marmot. *)
Lemma infection_classification_counterexample :
  let w := Outbreak.run (Sample.outbreak 0.25)
             [(0, Begin); (5, Choose "Tourist")] in
  let r := Outbreak.step 9 w (Infect "Marmot") in
  Outbreak.playerName (Outbreak.state w) = "Tourist"%string
  /\ Outbreak.animals (Outbreak.state w) !! "Tourist"%string
     = Some (infect Sample.tourist)
  /\ Outbreak.animals (Outbreak.state w) !! "Marmot"%string
     = Some Sample.marmot
  /\ Level Sample.marmot = Level (infect Sample.tourist)
  /\ r.2 = Success
  /\ Outbreak.playerName (Outbreak.state r.1) = "Marmot"%string
  /\ Outbreak.playerName (Outbreak.state r.1)
     <> Outbreak.playerName (Outbreak.state w).
Proof. vm_compute. repeat split; discriminate. Qed.

(** C2, amended: after a successful attempt the target is infected, and
    - if the target's level is above the player's, the target becomes the
      player's host and [NextLevelInfections] goes up by one;
    - if the levels are equal, [SameLevelInfections] goes up by one; the
      player's host stays in the console program and in the first
      graphical program, and becomes the target in the second.
    The other infection counter keeps its value.  The attempts are those
    the programs make: on a host returned by the console's
    [chooseTarget], on a host whose card got the infect button in the
    first graphical program (for the roster [m] and the player [p] the
    screen was built from), and on a host with an INFECT card in a run of
    the second. *)
Theorem infection_classification :
  (forall g choice p name t,
     Console.phase g = Console.Playing ->
     Console.animals g !! Console.player g = Some p ->
     Console.chooseTarget p (Console.animals g) choice = Console.Chosen name ->
     Console.animals g !! name = Some t ->
     (Console.step g choice).2 = Success ->
     let g' := (Console.step g choice).1 in
     Console.animals g' !! name = Some (infect t)
     /\ (Level p < Level t ->
         Console.player g' = name
         /\ NextLevelInfections (Console.stats g')
            = Go.add (NextLevelInfections (Console.stats g)) 1
         /\ SameLevelInfections (Console.stats g')
            = SameLevelInfections (Console.stats g))
     /\ (Level t = Level p ->
         Console.player g' = Console.player g
         /\ SameLevelInfections (Console.stats g')
            = Go.add (SameLevelInfections (Console.stats g)) 1
         /\ NextLevelInfections (Console.stats g')
            = NextLevelInfections (Console.stats g)))
  /\ (forall m p name t w,
     keyed m -> m !! name = Some t ->
     Evolution.isValidTarget (Evolution.getValidTargets p m) t = true ->
     (Evolution.infectButton p name t w).2 = Success ->
     let st := Evolution.state w in
     let st' := Evolution.state (Evolution.infectButton p name t w).1 in
     Evolution.animals st' !! name = Some (infect t)
     /\ (Level p < Level t ->
         Evolution.playerName st' = name
         /\ NextLevelInfections (Evolution.stats st')
            = Go.add (NextLevelInfections (Evolution.stats st)) 1
         /\ SameLevelInfections (Evolution.stats st')
            = SameLevelInfections (Evolution.stats st))
     /\ (Level t = Level p ->
         Evolution.playerName st' = Evolution.playerName st
         /\ SameLevelInfections (Evolution.stats st')
            = Go.add (SameLevelInfections (Evolution.stats st)) 1
         /\ NextLevelInfections (Evolution.stats st')
            = NextLevelInfections (Evolution.stats st)))
  /\ (forall raw facts start rng clicks now name p t,
     let w := Outbreak.run (Outbreak.boot raw facts start rng) clicks in
     let st := Outbreak.state w in
     let st' := Outbreak.state (Outbreak.step now w (Infect name)).1 in
     Outbreak.screen w = GameScreen ->
     Outbreak.animals st !! Outbreak.playerName st = Some p ->
     Outbreak.animals st !! name = Some t ->
     (Outbreak.step now w (Infect name)).2 = Success ->
     Outbreak.animals st' !! name = Some (infect t)
     /\ (Level p < Level t ->
         Outbreak.playerName st' = name
         /\ NextLevelInfections (Outbreak.stats st')
            = Go.add (NextLevelInfections (Outbreak.stats st)) 1
         /\ SameLevelInfections (Outbreak.stats st')
            = SameLevelInfections (Outbreak.stats st))
     /\ (Level t = Level p ->
         Outbreak.playerName st' = name
         /\ SameLevelInfections (Outbreak.stats st')
            = Go.add (SameLevelInfections (Outbreak.stats st)) 1
         /\ NextLevelInfections (Outbreak.stats st')
            = NextLevelInfections (Outbreak.stats st))).
Proof.
  split; [|split].
  - intros g choice p name t Hph Hp Hch Hm.
    rewrite (console_step_attempt g choice p name t Hph Hp Hch Hm).
    cbn [fst snd]. intros Ho. apply console_success_draw in Ho.
    rewrite console_attempt_success by exact Ho.
    match goal with |- context [console_after g name ?a] =>
      destruct (console_after_frame g name a) as (-> & -> & -> & _) end.
    cbn [Console.target' Console.stats' Console.moved].
    destruct (console_chosen _ _ _ _ Hch) as (t0 & _ & _ & Hv).
    apply console_valid_iff in Hv as (t' & Hm' & _ & Hadj).
    assert (t' = t) as -> by congruence.
    destruct (next_level_cases p t Hadj) as [Hup Hsame].
    split; [apply lookup_insert_eq|]. split.
    + intros Hlt. destruct (Hup Hlt) as (-> & -> & ->). by simpl.
    + intros E. destruct (Hsame E) as (-> & ->). by simpl.
  - intros m p name t w Hk Ht Hv Ho st st'. subst st st'.
    apply evolution_success_draw in Ho.
    rewrite evolution_button_success by exact Ho. cbv zeta.
    cbn [fst Evolution.state Evolution.animals Evolution.playerName
         Evolution.stats].
    destruct (evolution_button_valid p t _ name Hk Ht Hv) as (_ & _ & Hadj).
    destruct (next_level_cases p t Hadj) as [Hup Hsame].
    rewrite (Hk _ _ Ht).
    split; [apply lookup_insert_eq|]. split.
    + intros Hlt. destruct (Hup Hlt) as (-> & -> & ->). by simpl.
    + intros E. destruct (Hsame E) as (-> & ->). by simpl.
  - intros raw facts start rng clicks now name p t w st st' Hs Hp Ht.
    pose proof (outbreak_run_keyed raw facts start rng clicks) as Hk.
    fold w in Hk. subst st st'. revert Hs Hp Ht Hk.
    generalize w. clear w. intros w Hs Hp Ht Hk.
    intros Ho.
    pose proof (outbreak_success_card now w name p t Hs Hp Ht Ho) as Hc.
    revert Ho. rewrite (outbreak_step_infect now w name p t Hs Hp Ht Hc).
    intros Ho. apply outbreak_success_draw in Ho as [Hr Ho].
    rewrite outbreak_button_success by assumption. cbv zeta.
    cbn [fst Outbreak.state Outbreak.animals Outbreak.playerName
         Outbreak.stats].
    apply outbreak_card_iff in Hc as [_ Hadj].
    destruct (next_level_cases p t Hadj) as [Hup Hsame].
    rewrite (Hk _ _ Ht).
    split; [apply lookup_insert_eq|]. split.
    + intros Hlt. destruct (Hup Hlt) as (_ & _ & ->). by simpl.
    + intros E. destruct (Hsame E) as (_ & ->). by simpl.
Qed.

(** The tourist infects the marmot, a host of its own level, in the
    second graphical program. *)
Lemma infection_classification_witness :
  let w := Outbreak.run (Sample.outbreak 0.25)
             [(0, Begin); (5, Choose "Tourist")] in
  let st' := Outbreak.state (Outbreak.step 9 w (Infect "Marmot")).1 in
  Outbreak.playerName st' = "Marmot"%string
  /\ SameLevelInfections (Outbreak.stats st') = 1
  /\ NextLevelInfections (Outbreak.stats st') = 0.
Proof.
  destruct (proj2 (proj2 infection_classification)
              Sample.raw ∅ 0 (Sample.always 0.25)
              [(0, Begin); (5, Choose "Tourist"%string)] 9 "Marmot"%string
              (infect Sample.tourist) Sample.marmot)
    as (_ & _ & H); try (vm_compute; reflexivity).
  apply H. reflexivity.
Defined.

(** ** Which hosts are offered *)

(** C3, as stated, fails in the console program and in the second
    graphical program: the raven, a red herring at the marmot's level, is
    among the targets that the console's [getValidTargets] returns, and
    it has a card with an INFECT button on the game screen. *)
Lemma eligibility_counterexample :
  let g := Console.run (Sample.console 0.25) [1] in
  Console.animals g !! "Raven"%string = Some Sample.raven
  /\ RedHerring Sample.raven = true
  /\ "Raven"%string
     ∈ Console.getValidTargets (infect Sample.marmot) (Console.animals g)
  /\ Outbreak.hasCard (infect Sample.marmot) Sample.raven = true.
Proof.
  cbv zeta. split; [|split; [|split]].
  - vm_compute. reflexivity.
  - reflexivity.
  - apply console_valid_iff. exists Sample.raven.
    vm_compute. repeat split; auto.
  - reflexivity.
Qed.

(** C3, amended: a host is among the first graphical program's valid
    targets exactly when it is in the roster, not infected, not a red
    herring, and at the player's level or the next.  The console
    program's [getValidTargets] and the second graphical program's cards
    apply the same test without the red-herring condition; the console's
    [chooseTarget] then returns only hosts that are not red herrings.
    Of the player, the level alone matters: contacts play no part. *)
Theorem eligibility :
  (forall p m a,
     a ∈ Evolution.getValidTargets p m
     <-> (exists name, m !! name = Some a) /\ Infected a = false
         /\ RedHerring a = false
         /\ (Level a = Level p \/ Level a = Go.add (Level p) 1))
  /\ (forall p m name,
     name ∈ Console.getValidTargets p m
     <-> exists a, m !! name = Some a /\ Infected a = false
                   /\ (Level a = Level p \/ Level a = Go.add (Level p) 1))
  /\ (forall p m choice name,
     Console.chooseTarget p m choice = Console.Chosen name ->
     exists a, m !! name = Some a /\ Infected a = false
               /\ RedHerring a = false
               /\ (Level a = Level p \/ Level a = Go.add (Level p) 1))
  /\ (forall p t,
     Outbreak.hasCard p t = true
     <-> Infected t = false
         /\ (Level t = Level p \/ Level t = Go.add (Level p) 1))
  /\ (forall p p' m,
     Level p = Level p' ->
     Evolution.getValidTargets p m = Evolution.getValidTargets p' m
     /\ Console.getValidTargets p m = Console.getValidTargets p' m
     /\ forall t, Outbreak.hasCard p t = Outbreak.hasCard p' t).
Proof.
  split; [exact evolution_valid_iff|].
  split; [exact console_valid_iff|].
  split.
  { intros p m choice name H.
    destruct (console_chosen _ _ _ _ H) as (t & Hm & Hr & Hv).
    apply console_valid_iff in Hv as (t' & Hm' & Hi & Hadj).
    assert (t' = t) as -> by congruence. eauto. }
  split; [exact outbreak_card_iff|].
  intros p p' m E.
  unfold Evolution.getValidTargets, Console.getValidTargets, Outbreak.hasCard,
    adjacent. rewrite E. auto.
Qed.

(** The valid targets of the tourist in the first graphical program do
    not change when the tourist's contacts are emptied. *)
Lemma eligibility_witness :
  Evolution.getValidTargets Sample.tourist (loadAnimals Sample.raw).1
  = Evolution.getValidTargets
      (mkAnimal "Tourist" 1 "walk" 9 [] true 0.75 "Campsite" false)
      (loadAnimals Sample.raw).1.
Proof.
  destruct eligibility as (_ & _ & _ & _ & H).
  apply (H Sample.tourist
           (mkAnimal "Tourist" 1 "walk" 9 [] true 0.75 "Campsite" false)).
  reflexivity.
Defined.

(** ** Red herrings are never infected *)

(** C4: whatever numbers are typed into the console program and whatever
    is clicked in the second graphical program, from any state on, a red
    herring is found in the roster exactly as it was -- uninfected if it
    was uninfected -- and a command that starts the game never makes a
    red herring the player's host. *)
Theorem red_herring_never_infected :
  (forall g choices name a,
     Console.animals g !! name = Some a ->
     RedHerring a = true -> Infected a = false ->
     exists a',
       Console.animals (Console.run g choices) !! name = Some a'
       /\ a' = a /\ Infected a' = false)
  /\ (forall g choice,
     Console.phase g = Console.SelectingStarter ->
     (Console.step g choice).2 = Started ->
     exists a,
       Console.animals g !! Console.player (Console.step g choice).1 = Some a
       /\ RedHerring a = false)
  /\ (forall w clicks name a,
     Outbreak.animals (Outbreak.state w) !! name = Some a ->
     RedHerring a = true -> Infected a = false ->
     exists a',
       Outbreak.animals (Outbreak.state (Outbreak.run w clicks)) !! name
       = Some a'
       /\ a' = a /\ Infected a' = false)
  /\ (forall now w c,
     Outbreak.screen w = StarterSelection ->
     (Outbreak.step now w c).2 = Started ->
     exists name a,
       c = Choose name
       /\ Outbreak.animals (Outbreak.state w) !! name = Some a
       /\ RedHerring a = false
       /\ Outbreak.playerName (Outbreak.state (Outbreak.step now w c).1)
          = Name a).
Proof.
  split; [|split; [|split]].
  - intros g choices name a Hm Hr Hi. exists a.
    split; [|auto]. by apply console_run_rh_kept.
  - apply console_starter_not_red_herring.
  - intros w clicks name a Hm Hr Hi. exists a.
    split; [|auto]. by apply outbreak_run_rh_kept.
  - apply outbreak_starter_not_red_herring.
Qed.

(** The raven, a level-one red herring, after a game of the console
    program in which it is picked as starter and then as target. *)
Lemma red_herring_never_infected_witness :
  exists a',
    Console.animals (Console.run (Sample.console 0.25) [2; 1; 2; 1; 1])
      !! "Raven"%string = Some a'
    /\ a' = Sample.raven /\ Infected a' = false.
Proof.
  apply (proj1 red_herring_never_infected (Sample.console 0.25)
           [2; 1; 2; 1; 1] "Raven"%string Sample.raven);
    vm_compute; reflexivity.
Defined.

(** ** The score formula *)

(** C5: the score is never negative; for counters in range and
    non-negative whole seconds (as [int(elapsed.Seconds())] gives them) it
    is 1000 + 200 * nextLevelInfections - 100 * sameLevelInfections
    - 10 * attempts - floor(seconds / 2), clamped below at 0, in the
    console program, in the first graphical program and, with the elapsed
    time read off the clock, in the second.  The counters are in range
    in every run of up to 2^55 commands.  One attempt, one next-level
    infection and no elapsed time score 1190. *)
Theorem score_formula (stats : Stats) (elapsed : Z) :
  (0 <= Console.calculateScore stats elapsed
   /\ 0 <= Evolution.calculateScore stats elapsed
   /\ forall now st, 0 <= Outbreak.calculateScore now st)
  /\ (counts_ok stats ->
      0 <= Go.int_of_float64 (Go.Seconds elapsed) ->
      let score :=
        specScore (Attempts stats) (SameLevelInfections stats)
                  (NextLevelInfections stats)
                  (Go.int_of_float64 (Go.Seconds elapsed)) in
      Console.calculateScore stats elapsed = score
      /\ Evolution.calculateScore stats elapsed = score
      /\ forall now st,
           Outbreak.stats st = stats ->
           Go.Since now (StartTime stats) = elapsed ->
           Outbreak.calculateScore now st = score)
  /\ (forall raw facts start rng choices clicks,
      Z.of_nat (length choices) <= 2 ^ 55 ->
      Z.of_nat (length clicks) <= 2 ^ 55 ->
      counts_ok (Console.stats (Console.run (Console.boot raw start rng) choices))
      /\ counts_ok
           (Evolution.stats
              (Evolution.state
                 (Evolution.run (Evolution.boot raw facts rng) clicks)))
      /\ counts_ok
           (Outbreak.stats
              (Outbreak.state
                 (Outbreak.run (Outbreak.boot raw facts start rng) clicks))))
  /\ Console.calculateScore (mkStats 1 0 1 0) 0 = 1190.
Proof.
  split; [|split; [|split]].
  - split; [|split].
    + apply console_score_nonneg.
    + rewrite evolution_score_console. apply console_score_nonneg.
    + intros now st. rewrite outbreak_score_console. apply console_score_nonneg.
  - intros (Ha & Hs & Hn) Hq score. subst score.
    rewrite <- console_score_spec by assumption.
    split; [reflexivity | split].
    + apply evolution_score_console.
    + intros now st <- <-. apply outbreak_score_console.
  - intros raw facts start rng choices clicks Hc1 Hc2. split; [|split].
    + apply (run_counts_ok Console.stats (fun g c => (Console.step g c).1));
        [apply console_step_counted | by rewrite console_boot_stats ..
        | exact Hc1].
    + apply (run_counts_ok (fun w => Evolution.stats (Evolution.state w))
               (fun w nc => (Evolution.step nc.1 w nc.2).1));
        [intros w [n c]; apply evolution_step_counted
        | by rewrite evolution_boot_stats .. | exact Hc2].
    + apply (run_counts_ok (fun w => Outbreak.stats (Outbreak.state w))
               (fun w nc => (Outbreak.step nc.1 w nc.2).1));
        [intros w [n c]; apply outbreak_step_counted
        | by rewrite outbreak_boot_stats .. | exact Hc2].
  - vm_compute. reflexivity.
Qed.

(** The formula at work in the second graphical program: started at
    instant 0 and read seven and a half seconds later, after three
    attempts with one infection of each kind. *)
Lemma score_formula_witness :
  Outbreak.calculateScore 7500000000
    (Outbreak.mkGameState ∅ "Elk" 3 2 (mkVirus [] 1%float) (mkStats 3 1 1 0) ∅ 0)
  = specScore 3 1 1 7.
Proof.
  destruct (score_formula (mkStats 3 1 1 0) 7500000000) as (_ & H & _).
  destruct H as (_ & _ & H);
    [vm_compute; repeat split; discriminate | vm_compute; discriminate |].
  exact (H 7500000000
           (Outbreak.mkGameState ∅ "Elk" 3 2 (mkVirus [] 1%float)
                                 (mkStats 3 1 1 0) ∅ 0)
           eq_refl eq_refl).
Defined.

(** ** The score is a function of its inputs *)

(** C6: the score is a function of the three counters and of the elapsed
    time: trackers that agree on the counters get the same score for the
    same elapsed time, whatever their start instants, and in the second
    graphical program, where the elapsed time is read off the clock, game
    states that agree on the counters and on the elapsed time get the
    same score, whatever else they hold.  Computing it for the display
    changes nothing: a beat of the timer shows the score and leaves the
    window as it is, and so does any number of beats. *)
Theorem score_pure :
  (forall s1 s2 elapsed,
     Attempts s1 = Attempts s2 ->
     SameLevelInfections s1 = SameLevelInfections s2 ->
     NextLevelInfections s1 = NextLevelInfections s2 ->
     Console.calculateScore s1 elapsed = Console.calculateScore s2 elapsed)
  /\ (forall now1 now2 st1 st2,
     Attempts (Outbreak.stats st1) = Attempts (Outbreak.stats st2) ->
     SameLevelInfections (Outbreak.stats st1)
     = SameLevelInfections (Outbreak.stats st2) ->
     NextLevelInfections (Outbreak.stats st1)
     = NextLevelInfections (Outbreak.stats st2) ->
     Go.Since now1 (StartTime (Outbreak.stats st1))
     = Go.Since now2 (StartTime (Outbreak.stats st2)) ->
     Outbreak.calculateScore now1 st1 = Outbreak.calculateScore now2 st2)
  /\ (forall now w,
     Outbreak.screen w = GameScreen ->
     Outbreak.step now w Tick
     = (w, Shown (Outbreak.calculateScore now (Outbreak.state w))))
  /\ (forall w nows,
     Outbreak.run w (map (fun now => (now, Tick)) nows) = w).
Proof.
  split; [|split; [|split]].
  - intros s1 s2 elapsed Ha Hs Hn. unfold Console.calculateScore.
    by rewrite Ha, Hs, Hn.
  - intros now1 now2 st1 st2 Ha Hs Hn He. unfold Outbreak.calculateScore.
    by rewrite Ha, Hs, Hn, He.
  - intros now w Hs. unfold Outbreak.step. by rewrite Hs.
  - intros w nows. induction nows as [|now nows IH]; [reflexivity|].
    unfold Outbreak.run in *. simpl. by rewrite outbreak_tick.
Qed.

(** Two game states of the second graphical program with the same
    counters, read seven and a half seconds after their different start
    instants. *)
Lemma score_pure_witness :
  Outbreak.calculateScore 7500000000
    (Outbreak.mkGameState ∅ "Elk" 3 2 (mkVirus [] 1) (mkStats 3 1 1 0) ∅ 0)
  = Outbreak.calculateScore 9500000000
      (Outbreak.mkGameState (loadAnimals Sample.raw).1 "Wolf" 3 7
                            (mkVirus ["Bite"%string] 1)
                            (mkStats 3 1 1 2000000000) ∅ 55).
Proof.
  apply (proj1 (proj2 score_pure)); reflexivity.
Defined.

(** ** The counters along a run *)

(** C7: in every run of the three programs, from the loaded roster on
    and for as many commands as an [int] can count, each command leaves
    [Attempts], [SameLevelInfections] and [NextLevelInfections] at least
    as large as they were, and before and after it
    [SameLevelInfections + NextLevelInfections <= Attempts] (with both
    infection counters non-negative). *)
Theorem counters_monotone (raw : list (list Animal))
    (facts : gmap string RedHerringInfo) (now : Z) (rng : Go.Rand) :
  (forall choices choice,
     Z.of_nat (length choices) < Go.int_max ->
     let g := Console.run (Console.boot raw now rng) choices in
     let g' := (Console.step g choice).1 in
     tally_ok (Console.stats g)
     /\ tally_le (Console.stats g) (Console.stats g')
     /\ tally_ok (Console.stats g'))
  /\ (forall clicks at_ click,
     Z.of_nat (length clicks) < Go.int_max ->
     let w := Evolution.run (Evolution.boot raw facts rng) clicks in
     let w' := (Evolution.step at_ w click).1 in
     tally_ok (Evolution.stats (Evolution.state w))
     /\ tally_le (Evolution.stats (Evolution.state w))
                 (Evolution.stats (Evolution.state w'))
     /\ tally_ok (Evolution.stats (Evolution.state w')))
  /\ (forall clicks at_ click,
     Z.of_nat (length clicks) < Go.int_max ->
     let w := Outbreak.run (Outbreak.boot raw facts now rng) clicks in
     let w' := (Outbreak.step at_ w click).1 in
     tally_ok (Outbreak.stats (Outbreak.state w))
     /\ tally_le (Outbreak.stats (Outbreak.state w))
                 (Outbreak.stats (Outbreak.state w'))
     /\ tally_ok (Outbreak.stats (Outbreak.state w'))).
Proof.
  split; [|split].
  - intros choices choice Hlen.
    apply (run_then_step_counts Console.stats
             (fun g c => (Console.step g c).1) _ choices choice);
      [apply console_step_counted | by rewrite console_boot_stats ..
      | exact Hlen].
  - intros clicks at_ click Hlen.
    apply (run_then_step_counts
             (fun w => Evolution.stats (Evolution.state w))
             (fun w nc => (Evolution.step nc.1 w nc.2).1) _ clicks
             (at_, click));
      [intros w [n c]; apply evolution_step_counted
      | by rewrite evolution_boot_stats .. | exact Hlen].
  - intros clicks at_ click Hlen.
    apply (run_then_step_counts
             (fun w => Outbreak.stats (Outbreak.state w))
             (fun w nc => (Outbreak.step nc.1 w nc.2).1) _ clicks
             (at_, click));
      [intros w [n c]; apply outbreak_step_counted
      | by rewrite outbreak_boot_stats .. | exact Hlen].
Qed.

(** The counters around the third click of a short game of the second
    graphical program. *)
Lemma counters_monotone_witness :
  let w := Outbreak.run (Sample.outbreak 0.25)
             [(0, Begin); (5, Choose "Tourist")] in
  let w' := (Outbreak.step 9 w (Infect "Marmot")).1 in
  tally_ok (Outbreak.stats (Outbreak.state w))
  /\ tally_le (Outbreak.stats (Outbreak.state w))
              (Outbreak.stats (Outbreak.state w'))
  /\ tally_ok (Outbreak.stats (Outbreak.state w')).
Proof.
  apply (proj2 (proj2 (counters_monotone Sample.raw ∅ 0 (Sample.always 0.25)))
           [(0, Begin); (5, Choose "Tourist"%string)] 9
           (Infect "Marmot")).
  vm_compute. reflexivity.
Defined.

(** ** Attempts on red herrings *)

(** C9, as stated, fails in the console program: with the marmot as
    host, the raven -- a red herring -- is among the valid targets;
    choosing it is answered by the red-herring message and the attempts
    are not counted up. *)
Lemma red_herring_attempt_counterexample :
  let g := Console.run (Sample.console 0.25) [1] in
  Console.animals g !! Console.player g = Some (infect Sample.marmot)
  /\ Console.getValidTargets (infect Sample.marmot) (Console.animals g)
       !! 1%nat = Some "Raven"%string
  /\ Console.animals g !! "Raven"%string = Some Sample.raven
  /\ RedHerring Sample.raven = true
  /\ (Console.step g 2).2 = Blocked
  /\ Attempts (Console.stats (Console.step g 2).1)
     <> Go.add (Attempts (Console.stats g)) 1.
Proof. vm_compute. repeat split; discriminate. Qed.

(** C9, amended: the first graphical program leaves red herrings out of
    the valid targets, so none can be attempted there.  In the second,
    a red herring at the player's level or the next has a card; its
    INFECT button counts the attempt, takes nothing from the generator
    and changes nothing else.  In the console program a red herring
    picked from the list is refused with an explanation and the state,
    attempts included, stays as it is. *)
Theorem red_herring_attempt :
  (forall p m a, a ∈ Evolution.getValidTargets p m -> RedHerring a = false)
  /\ (forall now w name p t,
     Outbreak.screen w = GameScreen ->
     Outbreak.animals (Outbreak.state w)
       !! Outbreak.playerName (Outbreak.state w) = Some p ->
     Outbreak.animals (Outbreak.state w) !! name = Some t ->
     Outbreak.hasCard p t = true ->
     RedHerring t = true ->
     let r := Outbreak.step now w (Infect name) in
     let st := Outbreak.state w in
     let st' := Outbreak.state r.1 in
     r.2 = Blocked
     /\ Outbreak.rng r.1 = Outbreak.rng w
     /\ Outbreak.screen r.1 = GameScreen
     /\ Outbreak.animals st' = Outbreak.animals st
     /\ Outbreak.playerName st' = Outbreak.playerName st
     /\ Outbreak.currentDay st' = Outbreak.currentDay st
     /\ Outbreak.stats st' = bumpAttempts (Outbreak.stats st)
     /\ Attempts (Outbreak.stats st') = Go.add (Attempts (Outbreak.stats st)) 1)
  /\ (forall g choice p,
     Console.phase g = Console.Playing ->
     Console.animals g !! Console.player g = Some p ->
     (exists name t,
        Console.getValidTargets p (Console.animals g)
          !! Z.to_nat (choice - 1) = Some name
        /\ 1 <= choice
           <= Z.of_nat (length (Console.getValidTargets p (Console.animals g)))
        /\ Console.animals g !! name = Some t /\ RedHerring t = true) ->
     Console.step g choice = (g, Blocked)).
Proof.
  split; [|split].
  - intros p m a H. apply evolution_valid_iff in H. tauto.
  - intros now w name p t Hs Hp Ht Hc Hr r st st'. subst r st st'.
    rewrite (outbreak_step_infect now w name p t Hs Hp Ht Hc).
    rewrite outbreak_button_blocked by exact Hr. simpl. by rewrite Hs.
  - intros g choice p Hph Hp H.
    apply console_step_red_herring with p; [done | done |].
    by apply console_red_herring_again.
Qed.

(** The raven's INFECT button in the second graphical program. *)
Lemma red_herring_attempt_witness :
  let w := Outbreak.run (Sample.outbreak 0.25)
             [(0, Begin); (5, Choose "Tourist")] in
  let r := Outbreak.step 9 w (Infect "Raven") in
  r.2 = Blocked
  /\ Outbreak.animals (Outbreak.state r.1) = Outbreak.animals (Outbreak.state w)
  /\ Attempts (Outbreak.stats (Outbreak.state r.1)) = 1.
Proof.
  destruct (proj1 (proj2 red_herring_attempt) 9
              (Outbreak.run (Sample.outbreak 0.25)
                 [(0, Begin); (5, Choose "Tourist"%string)])
              "Raven"%string (infect Sample.tourist) Sample.raven)
    as (H1 & _ & _ & H2 & _ & _ & _ & H3); try (vm_compute; reflexivity).
  split; [exact H1 | split; [exact H2 | exact H3]].
Defined.

(** ** Targets two or more levels up *)

(** C10: in the console program's [attemptInfection], a successful
    attempt on a target two or more levels above the player returns the
    target as the new host, reports a win exactly when the target is at
    [maxLevel], and counts the attempt without counting an infection of
    either kind; whenever a successful attempt does change an infection
    counter, the target is at the player's level or exactly one above. *)
Theorem console_far_target (maxLevel : Z) (p t : Animal) (v : Virus)
    (s : Stats) (g : Go.Rand) :
  PrimFloat.ltb (g O) (PrimFloat.mul (InfectionRate t) (Strength v)) = true ->
  let a := Console.attemptInfection maxLevel p t v s g in
  (Go.int_ok (Level p) -> Go.int_ok (Level t) -> Level p + 2 <= Level t ->
   Console.outcome a = Success
   /\ Console.target' a = infect t
   /\ Console.moved a = true
   /\ Console.won a = (Level t =? maxLevel)
   /\ Console.stats' a = bumpAttempts s
   /\ Attempts (Console.stats' a) = Go.add (Attempts s) 1
   /\ SameLevelInfections (Console.stats' a) = SameLevelInfections s
   /\ NextLevelInfections (Console.stats' a) = NextLevelInfections s)
  /\ (SameLevelInfections (Console.stats' a) <> SameLevelInfections s
      \/ NextLevelInfections (Console.stats' a) <> NextLevelInfections s ->
      Level t = Level p \/ Level t = Go.add (Level p) 1).
Proof.
  intros Hdraw a. subst a. rewrite console_attempt_success by exact Hdraw.
  simpl. split.
  - intros Hp Ht Hfar.
    assert (Hnext : Go.add (Level p) 1 = Level p + 1).
    { apply incr_small. unfold Go.int_ok, Go.int_min, Go.int_max in *. lia. }
    destruct (Z.eqb_spec (Level t) (Level p)) as [E|_]; [lia|].
    destruct (Z.eqb_spec (Level t) (Go.add (Level p) 1)) as [E|_]; [lia|].
    destruct (Z.ltb_spec (Level p) (Level t)); [|lia].
    simpl. repeat split; reflexivity.
  - destruct (Z.eqb_spec (Level t) (Level p)) as [E|_]; [by left|].
    destruct (Z.eqb_spec (Level t) (Go.add (Level p) 1)) as [E|_]; [by right|].
    simpl. intros [H|H]; congruence.
Qed.

(** The tourist (level 1) infects the wolf (level 3): the wolf becomes
    the host and only the attempt is counted. *)
Lemma console_far_target_witness :
  let a := Console.attemptInfection 3 Sample.tourist Sample.wolf
             (mkVirus ["Bite"%string] 1) (mkStats 4 1 1 0)
             (Sample.always 0.25) in
  Console.moved a = true /\ Console.won a = true
  /\ Console.stats' a = mkStats 5 1 1 0.
Proof.
  destruct (console_far_target 3 Sample.tourist Sample.wolf
              (mkVirus ["Bite"%string] 1) (mkStats 4 1 1 0)
              (Sample.always 0.25) eq_refl) as [H _].
  destruct H as (_ & _ & Hm & Hw & Hs & _);
    [vm_compute; split; discriminate .. | vm_compute; discriminate |].
  auto.
Defined.

(** * Further properties *)

(** ** The loaders *)

(** Storing a list of records under a key each: a key is bound to the
    last record that carries it. *)
Lemma fold_insert_last {A : Type} (key : A -> string) (l : list A)
    (acc : gmap string A) (k : string) :
  fold_left (fun m a => <[key a := a]> m) l acc !! k
  = match last (filter (fun a => key a = k) l) with
    | Some a => Some a
    | None => acc !! k
    end.
Proof.
  revert acc. induction l as [|x l IH]; intros acc; [reflexivity|].
  simpl fold_left. rewrite IH. rewrite filter_cons.
  destruct (decide (key x = k)) as [E|E].
  - rewrite last_cons. destruct (last (filter _ l)); [reflexivity|].
    subst k. apply lookup_insert_eq.
  - destruct (last (filter _ l)); [reflexivity|].
    by apply lookup_insert_ne.
Qed.

Lemma loadAnimals_flat (raw : list (list Animal)) :
  loadAnimals raw
  = fold_left
      (fun (acc : gmap string Animal * Z) animal =>
         (<[Name animal := animal]> acc.1,
          if acc.2 <? Level animal then Level animal else acc.2))
      (concat raw) (∅, 0).
Proof.
  unfold loadAnimals. generalize (∅ : gmap string Animal, 0).
  induction raw as [|group raw IH]; intros acc; [reflexivity|].
  simpl. rewrite fold_left_app. apply IH.
Qed.

Lemma loadAnimals_roster (raw : list (list Animal)) :
  (loadAnimals raw).1
  = fold_left (fun m a => <[Name a := a]> m) (concat raw) ∅.
Proof.
  rewrite loadAnimals_flat.
  change (∅ : gmap string Animal) with ((∅ : gmap string Animal, 0).1) at 2.
  generalize (∅ : gmap string Animal, 0).
  induction (concat raw) as [|x l IH]; intros acc; [reflexivity|].
  simpl. by rewrite IH.
Qed.

Lemma loadAnimals_level_bound (raw : list (list Animal)) (a : Animal) :
  a ∈ concat raw -> Level a <= (loadAnimals raw).2.
Proof.
  rewrite loadAnimals_flat.
  assert (H : forall l (acc : gmap string Animal * Z),
    acc.2 <= (fold_left
                (fun (acc : gmap string Animal * Z) animal =>
                   (<[Name animal := animal]> acc.1,
                    if acc.2 <? Level animal then Level animal else acc.2))
                l acc).2
    /\ forall a, a ∈ l ->
         Level a <= (fold_left
                (fun (acc : gmap string Animal * Z) animal =>
                   (<[Name animal := animal]> acc.1,
                    if acc.2 <? Level animal then Level animal else acc.2))
                l acc).2).
  { induction l as [|x l IH]; intros acc.
    - split; [simpl; lia | intros b Hb; by apply elem_of_nil in Hb].
    - simpl. match goal with |- context [fold_left _ l ?acc'] =>
        destruct (IH acc') as [H1 H2] end.
      simpl in H1. split.
      + destruct (Z.ltb_spec acc.2 (Level x)); lia.
      + intros b Hb. apply elem_of_cons in Hb as [-> | Hb]; [|by apply H2].
        destruct (Z.ltb_spec acc.2 (Level x)); lia. }
  intros Ha. by apply (H (concat raw) (∅, 0)).
Qed.

Lemma last_filter_elem {A : Type} (P : A -> Prop) `{forall x, Decision (P x)}
    (l : list A) (a : A) :
  last (filter P l) = Some a -> a ∈ l /\ P a.
Proof.
  intros Hl. assert (Ha : a ∈ filter P l).
  { apply last_Some in Hl as [l' ->]. apply elem_of_app. right. by left. }
  by apply list_elem_of_filter in Ha as [? ?].
Qed.

Lemma last_filter_nodup {A : Type} (key : A -> string) (l : list A) (a : A) :
  NoDup (key <$> l) -> a ∈ l ->
  last (filter (fun b => key b = key a) l) = Some a.
Proof.
  induction l as [|x l IH]; intros Hnd Ha; [by apply elem_of_nil in Ha|].
  rewrite fmap_cons in Hnd. apply NoDup_cons in Hnd as [Hx Hnd].
  rewrite filter_cons. apply elem_of_cons in Ha as [-> | Ha].
  - rewrite decide_True by done. rewrite last_cons.
    destruct (last (filter _ l)) as [b|] eqn:Hb; [|reflexivity].
    apply last_filter_elem in Hb as [Hb Hk].
    exfalso. apply Hx. rewrite <- Hk. by apply list_elem_of_fmap_2.
  - destruct (decide (key x = key a)) as [E|E].
    + exfalso. apply Hx. rewrite E. by apply list_elem_of_fmap_2.
    + by apply IH.
Qed.

Lemma loadAnimals_found (raw : list (list Animal)) (a : Animal) :
  NoDup (parsedNames raw) -> a ∈ concat raw ->
  (loadAnimals raw).1 !! Name a = Some a.
Proof.
  intros Hnd Ha. rewrite loadAnimals_roster, fold_insert_last.
  by rewrite (last_filter_nodup Name (concat raw) a Hnd Ha).
Qed.

(** X1: both loaders bind every name to the last parsed animal that
    carries it; a name no parsed animal carries is not in the roster. *)
Theorem loader_last_wins :
  (forall raw name,
     (loadAnimals raw).1 !! name
     = last (filter (fun a => Name a = name) (concat raw)))
  /\ (forall data name,
     Contact.LoadAnimalsFromJSON data !! name
     = last (filter (fun a => Contact.Name a = name) data)).
Proof.
  split.
  - intros raw name. rewrite loadAnimals_roster, fold_insert_last.
    destruct (last _); [reflexivity | apply lookup_empty].
  - intros data name. unfold Contact.LoadAnimalsFromJSON.
    rewrite fold_insert_last.
    destruct (last _); [reflexivity | apply lookup_empty].
Qed.

(** X2: when no two parsed animals share a name, every one of them is
    found in the roster under its name, and [maxLevel] is 0 or the level
    of a host of the roster, which no host exceeds.  Without that, the
    bound can lie above the whole roster: of two entries named alike
    only the second is kept, while both count for [maxLevel]. *)
Theorem loader_unique_names :
  (forall raw,
     NoDup (parsedNames raw) ->
     (forall a, a ∈ concat raw -> (loadAnimals raw).1 !! Name a = Some a)
     /\ ((loadAnimals raw).2 = 0
         \/ exists a, (loadAnimals raw).1 !! Name a = Some a
                      /\ Level a = (loadAnimals raw).2)
     /\ forall name a,
          (loadAnimals raw).1 !! name = Some a -> Level a <= (loadAnimals raw).2)
  /\ (exists raw,
        0 < (loadAnimals raw).2
        /\ forall name a,
             (loadAnimals raw).1 !! name = Some a -> Level a < (loadAnimals raw).2).
Proof.
  split.
  - intros raw Hnd.
    assert (Hfound : forall a, a ∈ concat raw ->
                               (loadAnimals raw).1 !! Name a = Some a).
    { intros a Ha. by apply loadAnimals_found. }
    split; [exact Hfound|]. split.
    + destruct (loadAnimals_attained raw) as [H0 | (group & a & Hg & Ha & Hl)];
        [by left|].
      right. exists a. split; [|exact Hl].
      apply Hfound. apply list_elem_of_In, in_concat.
      exists group. split; by apply list_elem_of_In.
    + apply loadAnimals_bound.
  - exists [[mkAnimal "Elk" 2 "walk" 2 [] false 0.5 "Valley" false;
             mkAnimal "Elk" 1 "walk" 2 [] false 0.5 "Valley" false]].
    split; [reflexivity|].
    intros name a. unfold loadAnimals. simpl.
    rewrite insert_insert_eq, lookup_insert.
    case_decide; [intros [= <-]; reflexivity|].
    rewrite lookup_empty. discriminate.
Qed.

(** The sample roster has no name twice: the wolf is found under its
    name. *)
Lemma loader_unique_names_witness :
  (loadAnimals Sample.raw).1 !! "Wolf"%string = Some Sample.wolf.
Proof.
  refine (proj1 (proj1 loader_unique_names Sample.raw _) Sample.wolf _).
  - apply (bool_decide_unpack _). vm_compute. reflexivity.
  - simpl. rewrite !elem_of_cons. tauto.
Defined.

(** ** The roster changes by infections only *)

Lemma only_infects_refl (m : gmap string Animal) : only_infects m m.
Proof. intros name. destruct (m !! name); auto. Qed.

Lemma only_infects_trans (m1 m2 m3 : gmap string Animal) :
  only_infects m1 m2 -> only_infects m2 m3 -> only_infects m1 m3.
Proof.
  intros H12 H23 name. specialize (H12 name). specialize (H23 name).
  destruct (m1 !! name) as [a|].
  - destruct H12 as [E|E]; rewrite E in H23; [exact H23|].
    destruct H23 as [E'|E']; auto.
  - by rewrite H12 in H23.
Qed.

Lemma only_infects_insert (m : gmap string Animal) (k : string)
    (t t' : Animal) :
  m !! k = Some t -> t' = t \/ t' = infect t ->
  only_infects m (<[k := t']> m).
Proof.
  intros Hk Ht name. rewrite lookup_insert. case_decide as E.
  - subst name. rewrite Hk. destruct Ht as [-> | ->]; auto.
  - destruct (m !! name); auto.
Qed.

Lemma only_infects_alter (m : gmap string Animal) (k : string) :
  only_infects m (alter infect k m).
Proof.
  intros name. rewrite lookup_alter. case_decide as E.
  - subst name. destruct (m !! k); simpl; auto.
  - destruct (m !! name); auto.
Qed.

Lemma console_target_left (maxLevel : Z) (p t : Animal) (v : Virus)
    (s : Stats) (g : Go.Rand) :
  let a := Console.attemptInfection maxLevel p t v s g in
  Console.target' a = t \/ Console.target' a = infect t.
Proof.
  simpl.
  destruct (PrimFloat.ltb (g O) (PrimFloat.mul (InfectionRate t) (Strength v)))
    eqn:E.
  - rewrite console_attempt_success by exact E. by right.
  - rewrite console_attempt_failure by exact E. by left.
Qed.

Lemma console_step_only_infects (g : Console.Game) (choice : Z) :
  only_infects (Console.animals g) (Console.animals (Console.step g choice).1).
Proof.
  console_cases g choice; simpl.
  - apply only_infects_refl.
  - match goal with |- context [Console.days ?f ?x] =>
      destruct (console_days_frame f x) as (-> & _) end.
    apply only_infects_alter.
  - destruct (console_nextDay_frame g) as (-> & _). apply only_infects_refl.
  - destruct (console_after_frame g name a) as (-> & _).
    eapply only_infects_insert; [eassumption|]. apply console_target_left.
Qed.

Lemma console_run_only_infects (g : Console.Game) (choices : list Z) :
  only_infects (Console.animals g) (Console.animals (Console.run g choices)).
Proof.
  revert g. induction choices as [|c cs IH]; intros g;
    [apply only_infects_refl|].
  eapply only_infects_trans; [apply (console_step_only_infects g c)|].
  apply (IH (Console.step g c).1).
Qed.

Lemma outbreak_step_only_infects (now : Z) (w : Outbreak.Window) (c : Click) :
  only_infects (Outbreak.animals (Outbreak.state w))
               (Outbreak.animals (Outbreak.state (Outbreak.step now w c).1)).
Proof.
  outbreak_cases now w c.
  - apply only_infects_refl.
  - apply only_infects_refl.
  - unfold Outbreak.chooseButton.
    match goal with H : RedHerring a = false |- _ => rewrite H end.
    simpl. eapply only_infects_insert; eauto.
  - destruct (RedHerring t) eqn:Hr.
    + rewrite outbreak_button_blocked by exact Hr. apply only_infects_refl.
    + destruct (PrimFloat.ltb (Outbreak.rng w O)
                  (PrimFloat.mul (InfectionRate t)
                     (Strength (Outbreak.virus (Outbreak.state w))))) eqn:E.
      * rewrite outbreak_button_success by assumption. simpl.
        eapply only_infects_insert; eauto.
      * rewrite outbreak_button_failure by assumption.
        apply only_infects_refl.
Qed.

Lemma evolution_step_only_infects (now : Z) (w : Evolution.Window)
    (c : Click) :
  only_infects (Evolution.animals (Evolution.state w))
               (Evolution.animals (Evolution.state (Evolution.step now w c).1)).
Proof.
  evolution_cases now w c.
  - apply only_infects_refl.
  - apply only_infects_refl.
  - unfold Evolution.chooseButton.
    match goal with H : RedHerring a = false |- _ => rewrite H end.
    simpl. apply only_infects_alter.
  - destruct (PrimFloat.ltb (Evolution.rng w O)
                (PrimFloat.mul (InfectionRate t)
                   (Strength (Evolution.virus (Evolution.state w))))) eqn:E.
    + rewrite evolution_button_success by exact E. simpl.
      eapply only_infects_insert; eauto.
    + rewrite evolution_button_failure by exact E. simpl.
      eapply only_infects_insert; eauto.
Qed.

Lemma evolution_run_only_infects (w : Evolution.Window)
    (clicks : list (Z * Click)) :
  only_infects (Evolution.animals (Evolution.state w))
               (Evolution.animals (Evolution.state (Evolution.run w clicks))).
Proof.
  revert w. induction clicks as [|[now c] cs IH]; intros w;
    [apply only_infects_refl|].
  eapply only_infects_trans; [apply (evolution_step_only_infects now w c)|].
  apply (IH (Evolution.step now w c).1).
Qed.

Lemma outbreak_run_only_infects (w : Outbreak.Window)
    (clicks : list (Z * Click)) :
  only_infects (Outbreak.animals (Outbreak.state w))
               (Outbreak.animals (Outbreak.state (Outbreak.run w clicks))).
Proof.
  revert w. induction clicks as [|[now c] cs IH]; intros w;
    [apply only_infects_refl|].
  eapply only_infects_trans; [apply (outbreak_step_only_infects now w c)|].
  apply (IH (Outbreak.step now w c).1).
Qed.

(** X3: in every run of the three programs with statistics, from any
    state, no host enters or leaves the roster, and a host is left as it
    was or as it was with [Infected] set: an infection is never undone,
    and name, level, rate and red-herring flag never change. *)
Theorem roster_only_infected :
  (forall g choices,
     only_infects (Console.animals g)
                  (Console.animals (Console.run g choices)))
  /\ (forall w clicks,
     only_infects (Evolution.animals (Evolution.state w))
                  (Evolution.animals (Evolution.state (Evolution.run w clicks))))
  /\ (forall w clicks,
     only_infects (Outbreak.animals (Outbreak.state w))
                  (Outbreak.animals (Outbreak.state (Outbreak.run w clicks)))).
Proof.
  split; [|split].
  - apply console_run_only_infects.
  - apply evolution_run_only_infects.
  - apply outbreak_run_only_infects.
Qed.

(** ** The console program from its first prompt *)

Lemma console_days_eq (fuel : nat) (g : Console.Game) :
  Console.days fuel g
  = if 999 <? Console.day g then Console.setPhase Console.Ended g
    else
      match Console.animals g !! Console.player g with
      | None => g
      | Some p =>
          match Console.getValidTargets p (Console.animals g), fuel with
          | [], S fuel' =>
              Console.days fuel' (Console.setDay (Go.add (Console.day g) 1) g)
          | _, _ => g
          end
      end.
Proof. destruct fuel; reflexivity. Qed.

(** The loop over the days stops at a prompt that has a target to
    offer, or ends the simulation; the fuel of [nextDay] is enough for
    the days that are left. *)
Lemma console_days_spec (fuel : nat) (g : Console.Game) :
  1 <= Console.day g <= 1000 ->
  let g' := Console.days fuel g in
  Console.day g <= Console.day g' <= 1000
  /\ (Console.phase g' = Console.Ended
      \/ (Console.phase g' = Console.phase g /\ Console.day g' <= 999))
  /\ (1001 <= Z.of_nat fuel + Console.day g ->
      Console.phase g' <> Console.Ended ->
      forall p, Console.animals g !! Console.player g = Some p ->
                Console.getValidTargets p (Console.animals g) <> []).
Proof.
  revert g. induction fuel as [|fuel IH]; intros g Hd; cbv zeta;
    rewrite console_days_eq;
    (destruct (999 <? Console.day g) eqn:E;
     [apply Z.ltb_lt in E | apply Z.ltb_ge in E]).
  - simpl. split; [lia|]. split; [by left|]. intros _ H. by contradict H.
  - split; [|split].
    + destruct (Console.animals g !! Console.player g) as [p|]; [|lia].
      destruct (Console.getValidTargets p (Console.animals g)); lia.
    + right.
      destruct (Console.animals g !! Console.player g) as [p|]; [|split; [done|lia]].
      destruct (Console.getValidTargets p (Console.animals g)); split; done || lia.
    + intros H. simpl in H. lia.
  - simpl. split; [lia|]. split; [by left|]. intros _ H. by contradict H.
  - destruct (Console.animals g !! Console.player g) as [p|] eqn:Hp;
      [|split; [lia | split; [right; split; [done|lia] | discriminate]]].
    destruct (Console.getValidTargets p (Console.animals g)) as [|x l] eqn:Hv.
    + assert (Hadd : Go.add (Console.day g) 1 = Console.day g + 1)
        by (apply incr_small; unfold Go.int_min, Go.int_max; lia).
      destruct (IH (Console.setDay (Go.add (Console.day g) 1) g))
        as (H1 & H2 & H3); [simpl; lia|].
      simpl in H1, H2, H3. rewrite Hadd in H1, H2, H3 |- *.
      split; [lia | split; [exact H2|]].
      intros Hf Hne p' Hp'. assert (p' = p) as -> by congruence.
      rewrite Hv. exfalso. refine (H3 _ Hne p Hp Hv). lia.
    + split; [lia | split; [right; split; [done|lia]|]].
      intros _ _ p' Hp'. assert (p' = p) as -> by congruence.
      rewrite Hv. discriminate.
Qed.

Lemma console_attempt_shape (maxLevel : Z) (p t : Animal) (v : Virus)
    (s : Stats) (g : Go.Rand) :
  let a := Console.attemptInfection maxLevel p t v s g in
  Attempts (Console.stats' a) = Go.add (Attempts s) 1
  /\ (forall k, Console.rng' a k = g (S k))
  /\ (Console.target' a = t \/ Console.target' a = infect t)
  /\ (Console.moved a = true -> Console.target' a = infect t)
  /\ (Console.won a = true -> Console.moved a = true /\ Level t = maxLevel).
Proof.
  cbv zeta.
  destruct (PrimFloat.ltb (g O) (PrimFloat.mul (InfectionRate t) (Strength v)))
    eqn:E.
  - rewrite console_attempt_success by exact E. simpl.
    split; [|split; [done | split; [by right | split; [done|]]]].
    + destruct (Level t =? Level p); [reflexivity|].
      destruct (Level t =? Go.add (Level p) 1); reflexivity.
    + intros H. apply andb_true_iff in H as [H1 H2].
      split; [exact H1 | by apply Z.eqb_eq].
  - rewrite console_attempt_failure by exact E. simpl.
    split; [done | split; [done | split; [by left | split; discriminate]]].
Qed.

Lemma hosted_after (m : gmap string Animal) (player name : string)
    (t t' : Animal) (moved : bool) :
  hosted m player ->
  m !! name = Some t -> Infected t = false -> RedHerring t = false ->
  t' = t \/ t' = infect t -> (moved = true -> t' = infect t) ->
  hosted (<[name := t']> m) (if moved then name else player).
Proof.
  intros (p & Hp & Hi & Hr) Ht Hti Htr Ht' Hm. destruct moved.
  - exists t'. rewrite lookup_insert_eq, (Hm eq_refl). simpl. auto.
  - exists p. rewrite lookup_insert_ne; [auto|].
    intros ->. rewrite Ht in Hp. injection Hp as ->. congruence.
Qed.

Lemma console_days_sound (rng0 : Go.Rand) (g0 : Console.Game) :
  Console.phase g0 = Console.Playing ->
  1 <= Console.day g0 <= 1000 ->
  0 <= Attempts (Console.stats g0) < Console.day g0 ->
  (forall k : nat,
     Console.rng g0 k
     = rng0 (Z.to_nat (Attempts (Console.stats g0)) + k)%nat) ->
  hosted (Console.animals g0) (Console.player g0) ->
  console_sound rng0 (Console.days 1000 g0).
Proof.
  intros Hph Hd Ha Hr Hh.
  destruct (console_days_frame 1000 g0) as (Ea & Es & Ep & Em & Er & _).
  destruct (console_days_spec 1000 g0 Hd) as (Hd' & Hphase & Hvalid).
  unfold console_sound. rewrite Ea, Es, Ep, Er, Em.
  split; [|split; [|split; [|split; [|split]]]].
  - split; [lia|]. split; [lia|]. split.
    + intros H. destruct Hphase as [H'|[H' _]]; congruence.
    + intros H. destruct Hphase as [H'|[H' ?]]; [congruence|]. lia.
  - exact Hr.
  - intros _. exact Hh.
  - intros H. destruct Hh as (p & Hp & _). exists p. split; [exact Hp|].
    apply Hvalid; [lia | congruence | exact Hp].
  - intros H. destruct Hphase as [H'|[H' _]]; congruence.
  - intros H. destruct Hphase as [H'|[H' _]]; congruence.
Qed.

Lemma console_step_sound (rng0 : Go.Rand) (g : Console.Game) (choice : Z) :
  console_sound rng0 g -> console_sound rng0 (Console.step g choice).1.
Proof.
  intros Hs. console_cases g choice; simpl.
  - exact Hs.
  - destruct Hs as ((Hd & Ha & Ha0 & _) & Hr & _).
    specialize (Ha0 ltac:(assumption)).
    apply console_days_sound; simpl; [done | lia | lia | exact Hr |].
    exists (infect a). rewrite lookup_alter_eq.
    match goal with H : _ !! start = Some a |- _ => rewrite H end.
    simpl. auto.
  - destruct Hs as ((Hd & Ha & _ & Hpl) & Hr & Hh & _).
    destruct (Hpl ltac:(assumption)) as (Hd9 & Hlt).
    assert (Hadd : Go.add (Console.day g) 1 = Console.day g + 1)
      by (apply incr_small; unfold Go.int_min, Go.int_max; lia).
    unfold Console.nextDay.
    apply console_days_sound; simpl; rewrite ?Hadd;
      [done | lia | lia | exact Hr | apply Hh; congruence].
  - destruct Hs as ((Hd & Ha & _ & Hpl) & Hr & Hh & _).
    destruct (Hpl ltac:(assumption)) as (Hd9 & Hlt).
    assert (Hhost : hosted (Console.animals g) (Console.player g))
      by (apply Hh; congruence).
    assert (Hadd : Go.add (Console.day g) 1 = Console.day g + 1)
      by (apply incr_small; unfold Go.int_min, Go.int_max; lia).
    assert (Hinc : Go.add (Attempts (Console.stats g)) 1
                   = Attempts (Console.stats g) + 1)
      by (apply incr_small; unfold Go.int_min, Go.int_max; lia).
    destruct (console_attempt_shape (Console.maxLevel g) p t (Console.virus g)
                (Console.stats g) (Console.rng g))
      as (Hatt & Hrng & Htgt & Hmov & Hwon).
    fold a in Hatt, Hrng, Htgt, Hmov, Hwon. rewrite Hinc in Hatt.
    assert (Hrng' : forall k : nat,
               Console.rng' a k
               = rng0 (Z.to_nat (Attempts (Console.stats' a)) + k)%nat).
    { intros k. rewrite Hrng, Hr, Hatt. f_equal. lia. }
    assert (Hhost' : hosted (<[name := Console.target' a]> (Console.animals g))
                            (if Console.moved a then name
                             else Console.player g))
      by (eapply hosted_after; eauto).
    unfold console_after. destruct (Console.won a) eqn:Hw.
    + destruct (Hwon eq_refl) as (Hm & Hlvl).
      unfold console_sound. simpl.
      split; [|split; [exact Hrng'|split; [intros _; exact Hhost'|]]].
      * split; [lia|]. split; [lia|]. split; discriminate.
      * split; [discriminate|]. split; [|discriminate]. intros _.
        rewrite Hm. exists (Console.target' a).
        rewrite lookup_insert_eq, (Hmov Hm). split; [done|exact Hlvl].
    + unfold Console.nextDay.
      apply console_days_sound; simpl; rewrite ?Hadd;
        [done | lia | lia | exact Hrng' | exact Hhost'].
Qed.

Lemma console_run_sound (rng0 : Go.Rand) (g : Console.Game)
    (choices : list Z) :
  console_sound rng0 g -> console_sound rng0 (Console.run g choices).
Proof.
  revert g. induction choices as [|c cs IH]; intros g Hs; [exact Hs|].
  apply (IH (Console.step g c).1). by apply console_step_sound.
Qed.

Lemma console_boot_sound (raw : list (list Animal)) (now : Z)
    (rng : Go.Rand) :
  console_sound rng (Console.boot raw now rng).
Proof.
  unfold Console.boot. destruct (loadAnimals raw) as [animals maxLevel].
  unfold console_sound. simpl.
  split; [|split; [done | split; [done | split; [discriminate|]]]].
  - split; [lia|]. split; [lia|]. split; [done|discriminate].
  - split; [discriminate|]. intros _ name a Hin Hm.
    apply elem_of_collect in Hin as ([k b] & Hin & Hkeep & ->). simpl in *.
    apply elem_of_map_to_list in Hin. rewrite Hin in Hm. injection Hm as <-.
    by apply Z.eqb_eq.
Qed.

Lemma console_step_maxLevel (g : Console.Game) (choice : Z) :
  Console.maxLevel (Console.step g choice).1 = Console.maxLevel g.
Proof.
  console_cases g choice; simpl.
  - reflexivity.
  - match goal with |- context [Console.days ?f ?x] =>
      destruct (console_days_frame f x) as (_ & _ & _ & -> & _) end.
    reflexivity.
  - by destruct (console_nextDay_frame g) as (_ & _ & _ & -> & _).
  - by destruct (console_after_frame g name a) as (_ & _ & _ & -> & _).
Qed.

Lemma console_run_maxLevel (g : Console.Game) (choices : list Z) :
  Console.maxLevel (Console.run g choices) = Console.maxLevel g.
Proof.
  revert g. induction choices as [|c cs IH]; intros g; [reflexivity|].
  unfold Console.run in *. simpl. rewrite IH. apply console_step_maxLevel.
Qed.

Lemma console_boot_roster (raw : list (list Animal)) (now : Z)
    (rng : Go.Rand) :
  Console.animals (Console.boot raw now rng) = (loadAnimals raw).1
  /\ Console.maxLevel (Console.boot raw now rng) = (loadAnimals raw).2.
Proof. unfold Console.boot. by destruct (loadAnimals raw). Qed.

Lemma only_infects_level (m m' : gmap string Animal) (name : string)
    (a : Animal) :
  only_infects m m' -> m' !! name = Some a ->
  exists b, m !! name = Some b /\ Level b = Level a.
Proof.
  intros H Ha. specialize (H name). destruct (m !! name) as [b|].
  - exists b. split; [done|].
    destruct H as [H|H]; rewrite H in Ha; by injection Ha as <-.
  - congruence.
Qed.

Lemma console_outcome (maxLevel : Z) (p t : Animal) (v : Virus) (s : Stats)
    (g : Go.Rand) :
  let o := Console.outcome (Console.attemptInfection maxLevel p t v s g) in
  o = Success \/ o = Failure.
Proof.
  cbv zeta.
  destruct (PrimFloat.ltb (g O) (PrimFloat.mul (InfectionRate t) (Strength v)))
    eqn:E.
  - rewrite console_attempt_success by exact E. by left.
  - rewrite console_attempt_failure by exact E. by right.
Qed.

(** X4: in every run of the console program from its start the day
    stays between 1 and 1000 and the attempts between 0 and 999; at a
    prompt for a target the day is at most 999 and there were fewer
    attempts than the number of the day. *)
Theorem console_turn_ceiling (raw : list (list Animal)) (now : Z)
    (rng : Go.Rand) (choices : list Z) :
  let g := Console.run (Console.boot raw now rng) choices in
  1 <= Console.day g <= 1000
  /\ 0 <= Attempts (Console.stats g) <= 999
  /\ (Console.phase g = Console.Playing ->
      Console.day g <= 999 /\ Attempts (Console.stats g) < Console.day g).
Proof.
  intros g.
  destruct (console_run_sound rng _ choices (console_boot_sound raw now rng))
    as ((H1 & H2 & _ & H3) & _).
  auto.
Qed.

(** X5: in every run of the console program from its start, the values
    taken from the random generator are as many as the attempts
    counted: the generator stands where the one of the start stands
    after [Attempts] calls. *)
Theorem console_draws_are_attempts (raw : list (list Animal)) (now : Z)
    (rng : Go.Rand) (choices : list Z) (k : nat) :
  let g := Console.run (Console.boot raw now rng) choices in
  Console.rng g k = rng (Z.to_nat (Attempts (Console.stats g)) + k)%nat.
Proof.
  intros g.
  destruct (console_run_sound rng _ choices (console_boot_sound raw now rng))
    as (_ & H & _).
  apply H.
Qed.

(** X6: once the starter is chosen, the host the player inhabits is in
    the roster, infected, and no red herring, all along the run of the
    console program. *)
Theorem console_player_hosted (raw : list (list Animal)) (now : Z)
    (rng : Go.Rand) (choices : list Z) :
  let g := Console.run (Console.boot raw now rng) choices in
  Console.phase g <> Console.SelectingStarter ->
  hosted (Console.animals g) (Console.player g).
Proof.
  intros g.
  destruct (console_run_sound rng _ choices (console_boot_sound raw now rng))
    as (_ & _ & H & _).
  exact H.
Qed.

Lemma console_player_hosted_witness :
  hosted (Console.animals (Console.run (Sample.console 0.1) [1]))
         (Console.player (Console.run (Sample.console 0.1) [1])).
Proof.
  apply (console_player_hosted Sample.raw 0 (Sample.always 0.1) [1]).
  vm_compute. discriminate.
Defined.

(** X7: the console program declares the game won only when the player
    inhabits a host at the highest level of the files: that host is
    infected, is no red herring, and no host of the roster has a higher
    level. *)
Theorem console_win_sound (raw : list (list Animal)) (now : Z)
    (rng : Go.Rand) (choices : list Z) :
  let g := Console.run (Console.boot raw now rng) choices in
  Console.phase g = Console.Won ->
  exists p,
    Console.animals g !! Console.player g = Some p
    /\ Level p = (loadAnimals raw).2
    /\ Infected p = true /\ RedHerring p = false
    /\ forall name a, Console.animals g !! name = Some a -> Level a <= Level p.
Proof.
  intros g Hwon.
  destruct (console_run_sound rng _ choices (console_boot_sound raw now rng))
    as (_ & _ & Hh & _ & Hw & _).
  fold g in Hh, Hw.
  destruct (Hw Hwon) as (p & Hp & Hl).
  destruct Hh as (p' & Hp' & Hi & Hr); [congruence|].
  assert (p' = p) as -> by congruence.
  destruct (console_boot_roster raw now rng) as (Ea & Em).
  unfold g in Hl. rewrite console_run_maxLevel, Em in Hl.
  exists p. split; [done | split; [done | split; [done | split; [done|]]]].
  intros name a Ha. rewrite Hl.
  destruct (only_infects_level _ _ name a
              (console_run_only_infects (Console.boot raw now rng) choices)
              Ha) as (b & Hb & <-).
  rewrite Ea in Hb. by eapply loadAnimals_bound.
Qed.

Lemma console_win_sound_witness :
  exists p,
    Console.animals (Console.run (Sample.console 0.1) [1; 1; 1])
      !! Console.player (Console.run (Sample.console 0.1) [1; 1; 1]) = Some p
    /\ Level p = (loadAnimals Sample.raw).2
    /\ Infected p = true /\ RedHerring p = false
    /\ forall name a,
         Console.animals (Console.run (Sample.console 0.1) [1; 1; 1]) !! name
         = Some a -> Level a <= Level p.
Proof.
  apply (console_win_sound Sample.raw 0 (Sample.always 0.1) [1; 1; 1]).
  vm_compute. reflexivity.
Defined.

(** X8: whenever the console program waits for the number of a target,
    the list it has printed is not empty, and the day is passed without
    an attempt for one choice only, the number printed for skipping. *)
Theorem console_prompt_has_targets (raw : list (list Animal)) (now : Z)
    (rng : Go.Rand) (choices : list Z) :
  let g := Console.run (Console.boot raw now rng) choices in
  Console.phase g = Console.Playing ->
  exists p,
    Console.animals g !! Console.player g = Some p
    /\ Console.getValidTargets p (Console.animals g) <> []
    /\ forall choice,
         Console.chooseTarget p (Console.animals g) choice = Console.NoTarget
         <-> choice
             = Z.of_nat (length (Console.getValidTargets p (Console.animals g)))
               + 1.
Proof.
  intros g Hph.
  destruct (console_run_sound rng _ choices (console_boot_sound raw now rng))
    as (_ & _ & _ & H & _).
  destruct (H Hph) as (p & Hp & Hv). fold g in Hp, Hv.
  exists p. split; [done | split; [done|]].
  intros choice. unfold Console.chooseTarget. cbv zeta.
  destruct (Console.getValidTargets p (Console.animals g)) as [|x l] eqn:E;
    [done|].
  destruct (Z.of_nat (length (x :: l)) =? 0) eqn:E0;
    [apply Z.eqb_eq in E0; simpl in E0; lia|].
  destruct (choice =? Z.of_nat (length (x :: l)) + 1) eqn:E1.
  - apply Z.eqb_eq in E1. by split.
  - apply Z.eqb_neq in E1. split; [|done].
    destruct (_ && _); [|discriminate].
    destruct ((x :: l) !! Z.to_nat (choice - 1)) as [n|]; [|discriminate].
    destruct (Console.animals g !! n) as [t|]; [|discriminate].
    destruct (RedHerring t); discriminate.
Qed.

Lemma console_prompt_has_targets_witness :
  exists p,
    Console.animals (Console.run (Sample.console 0.1) [1])
      !! Console.player (Console.run (Sample.console 0.1) [1]) = Some p
    /\ Console.getValidTargets p
         (Console.animals (Console.run (Sample.console 0.1) [1])) <> []
    /\ forall choice,
         Console.chooseTarget p
           (Console.animals (Console.run (Sample.console 0.1) [1])) choice
         = Console.NoTarget
         <-> choice
             = Z.of_nat
                 (length
                    (Console.getValidTargets p
                       (Console.animals
                          (Console.run (Sample.console 0.1) [1]))))
               + 1.
Proof.
  apply (console_prompt_has_targets Sample.raw 0 (Sample.always 0.1) [1]).
  vm_compute. reflexivity.
Defined.

(** X9: the console program starts the game in a host of level 1 that
    is no red herring, and leaves it infected: whenever a number typed
    is answered by the start of the game, the program was at the
    starter prompt and the player's host is such a host. *)
Theorem console_starter_level_one (raw : list (list Animal)) (now : Z)
    (rng : Go.Rand) (choices : list Z) (c : Z) :
  let g := Console.run (Console.boot raw now rng) choices in
  let g' := (Console.step g c).1 in
  (Console.step g c).2 = Started ->
  Console.phase g = Console.SelectingStarter
  /\ exists a,
       Console.animals g !! Console.player g' = Some a
       /\ Level a = 1 /\ RedHerring a = false
       /\ Console.animals g' !! Console.player g' = Some (infect a).
Proof.
  intros g g'.
  destruct (console_run_sound rng _ choices (console_boot_sound raw now rng))
    as (_ & _ & _ & _ & _ & HF).
  fold g in HF. unfold g'. clear g'. revert HF. generalize g. clear g.
  intros g HF. console_cases g c; simpl; intros Hst.
  - match goal with H : _ \/ _ |- _ => destruct H; congruence end.
  - split; [done|].
    match goal with |- context [Console.days ?f ?x] =>
      destruct (console_days_frame f x) as (-> & _ & -> & _) end.
    simpl. exists a.
    match goal with H : Console.askStarterAnimal _ _ _ = _ |- _ =>
      destruct (console_starter_chosen _ _ _ _ H) as (a' & Ha' & _ & Hin) end.
    assert (a' = a) as -> by congruence.
    split; [done|]. split; [by eapply HF|]. split; [done|].
    rewrite lookup_alter_eq. by rewrite Ha'.
  - discriminate.
  - destruct (console_outcome (Console.maxLevel g) p t (Console.virus g)
                (Console.stats g) (Console.rng g)) as [Ho|Ho];
      fold a in Ho; congruence.
Qed.

Lemma console_starter_level_one_witness :
  Console.phase (Console.run (Sample.console 0.1) []) = Console.SelectingStarter
  /\ exists a,
       Console.animals (Console.run (Sample.console 0.1) [])
         !! Console.player
              (Console.step (Console.run (Sample.console 0.1) []) 1).1
       = Some a
       /\ Level a = 1 /\ RedHerring a = false
       /\ Console.animals
            (Console.step (Console.run (Sample.console 0.1) []) 1).1
            !! Console.player
                 (Console.step (Console.run (Sample.console 0.1) []) 1).1
          = Some (infect a).
Proof.
  apply (console_starter_level_one Sample.raw 0 (Sample.always 0.1) [] 1).
  vm_compute. reflexivity.
Defined.

(** ** The score of the console program, whatever the run *)

Lemma console_run_tally (rng0 : Go.Rand) (g : Console.Game)
    (choices : list Z) :
  console_sound rng0 g -> tally_ok (Console.stats g) ->
  tally_ok (Console.stats (Console.run g choices)).
Proof.
  revert g. induction choices as [|c cs IH]; intros g Hs Hok; [exact Hok|].
  apply (IH (Console.step g c).1); [by apply console_step_sound|].
  destruct Hs as ((_ & Ha & _) & _).
  destruct (counted_counts _ _ 999 (console_step_counted g c) Hok)
    as (H & _); [lia | unfold Go.int_max; lia | exact H].
Qed.

(** X10: in the console program the counters never leave the range of
    the score formula, however long the run: the turn ceiling keeps the
    attempts under 1000, so for non-negative whole seconds the score is
    that of the specification's formula, and it is at most
    1000 + 200 * 999. *)
Theorem console_score_any_run (raw : list (list Animal)) (now : Z)
    (rng : Go.Rand) (choices : list Z) (elapsed : Z) :
  let stats := Console.stats (Console.run (Console.boot raw now rng) choices) in
  0 <= Go.int_of_float64 (Go.Seconds elapsed) ->
  tally_ok stats
  /\ Console.calculateScore stats elapsed
     = specScore (Attempts stats) (SameLevelInfections stats)
                 (NextLevelInfections stats)
                 (Go.int_of_float64 (Go.Seconds elapsed))
  /\ Console.calculateScore stats elapsed <= 200800.
Proof.
  intros stats Hsec.
  pose proof (console_boot_sound raw now rng) as Hb.
  destruct (console_run_sound rng _ choices Hb) as ((_ & Ha & _) & _).
  assert (Hok : tally_ok stats).
  { apply (console_run_tally rng); [exact Hb|].
    rewrite console_boot_stats. unfold tally_ok. simpl. lia. }
  fold stats in Ha. split; [exact Hok|].
  assert (Hspec : Console.calculateScore stats elapsed
                  = specScore (Attempts stats) (SameLevelInfections stats)
                      (NextLevelInfections stats)
                      (Go.int_of_float64 (Go.Seconds elapsed))).
  { unfold tally_ok in Hok.
    apply console_score_spec; unfold count_ok; try lia. }
  split; [exact Hspec|]. rewrite Hspec. unfold specScore, tally_ok in *.
  assert (0 <= Go.int_of_float64 (Go.Seconds elapsed) / 2)
    by (apply Z.div_pos; lia).
  lia.
Qed.

Lemma console_score_any_run_witness :
  Console.calculateScore
    (Console.stats (Console.run (Sample.console 0.1) [1; 1; 1])) 7500000000
  = 1377.
Proof.
  destruct (console_score_any_run Sample.raw 0 (Sample.always 0.1) [1; 1; 1]
              7500000000) as (_ & H & _); [vm_compute; discriminate|].
  unfold Sample.console. rewrite H. vm_compute. reflexivity.
Defined.

(** ** The player's host in the graphical programs *)

Lemma keyed_alter_infect (m : gmap string Animal) (k : string) :
  keyed m -> keyed (alter infect k m).
Proof.
  intros Hk name a. rewrite lookup_alter. case_decide as E.
  - subst name. destruct (m !! k) as [b|] eqn:Hb; [|discriminate].
    simpl. intros [= <-]. simpl. by apply Hk.
  - apply Hk.
Qed.

Lemma hosted_insert_infect (m : gmap string Animal) (name : string)
    (t : Animal) :
  RedHerring t = false -> hosted (<[name := infect t]> m) name.
Proof.
  intros Hr. exists (infect t). by rewrite lookup_insert_eq.
Qed.

Lemma outbreak_step_sound (now : Z) (w : Outbreak.Window) (c : Click) :
  let w' := (Outbreak.step now w c).1 in
  window_sound (Outbreak.animals (Outbreak.state w))
               (Outbreak.playerName (Outbreak.state w))
               (Outbreak.maxLevel (Outbreak.state w)) (Outbreak.screen w) ->
  window_sound (Outbreak.animals (Outbreak.state w'))
               (Outbreak.playerName (Outbreak.state w'))
               (Outbreak.maxLevel (Outbreak.state w')) (Outbreak.screen w').
Proof.
  cbv zeta. intros (Hk & Hh & Hw). outbreak_cases now w c.
  - by split.
  - simpl. split; [done|]. split; [intros [?|?]; discriminate | discriminate].
  - unfold Outbreak.chooseButton.
    match goal with H : RedHerring a = false |- _ => rewrite H end.
    simpl. assert (Hn : Name a = name) by (by apply Hk).
    split; [by apply keyed_insert|]. rewrite Hn.
    split; [intros _; by apply hosted_insert_infect | discriminate].
  - destruct (RedHerring t) eqn:Hr.
    + rewrite outbreak_button_blocked by exact Hr. by split.
    + destruct (PrimFloat.ltb (Outbreak.rng w O)
                  (PrimFloat.mul (InfectionRate t)
                     (Strength (Outbreak.virus (Outbreak.state w))))) eqn:E.
      * rewrite outbreak_button_success by assumption. simpl.
        assert (Hn : Name t = name) by (by apply Hk).
        split; [by apply keyed_insert|]. rewrite Hn.
        split; [intros _; by apply hosted_insert_infect|].
        intros Hs. exists (infect t). rewrite lookup_insert_eq.
        split; [done|]. simpl.
        destruct (Level t =? Outbreak.maxLevel (Outbreak.state w)) eqn:El;
          [by apply Z.eqb_eq | discriminate].
      * rewrite outbreak_button_failure by assumption. by split.
Qed.

Lemma evolution_step_sound (now : Z) (w : Evolution.Window) (c : Click) :
  let w' := (Evolution.step now w c).1 in
  window_sound (Evolution.animals (Evolution.state w))
               (Evolution.playerName (Evolution.state w))
               (Evolution.maxLevel (Evolution.state w)) (Evolution.screen w) ->
  window_sound (Evolution.animals (Evolution.state w'))
               (Evolution.playerName (Evolution.state w'))
               (Evolution.maxLevel (Evolution.state w')) (Evolution.screen w').
Proof.
  cbv zeta. intros (Hk & Hh & Hw). evolution_cases now w c.
  - by split.
  - simpl. split; [done|]. split; [intros [?|?]; discriminate | discriminate].
  - unfold Evolution.chooseButton.
    match goal with H : RedHerring a = false |- _ => rewrite H end.
    simpl. assert (Hn : Name a = name) by (by apply Hk).
    split; [by apply keyed_alter_infect|]. rewrite Hn.
    split; [|discriminate]. intros _. exists (infect a).
    rewrite lookup_alter_eq.
    match goal with H : _ !! name = Some a |- _ => rewrite H end.
    simpl. auto.
  - assert (Hn : Name t = name) by (by apply Hk).
    match goal with H : Evolution.isValidTarget _ _ = true |- _ =>
      destruct (evolution_button_valid p t _ name Hk ltac:(eassumption) H)
        as (Hi & Hr & _) end.
    assert (Hhost : hosted (Evolution.animals (Evolution.state w))
                           (Evolution.playerName (Evolution.state w)))
      by (apply Hh; by left).
    destruct (PrimFloat.ltb (Evolution.rng w O)
                (PrimFloat.mul (InfectionRate t)
                   (Strength (Evolution.virus (Evolution.state w))))) eqn:E.
    + rewrite evolution_button_success by exact E. simpl. rewrite Hn.
      split; [by apply keyed_insert|]. split.
      * intros _.
        apply (hosted_after _ _ name t (infect t) (Level p <? Level t));
          auto.
      * intros Hs.
        destruct ((Level p <? Level t)
                  && (Level t =? Evolution.maxLevel (Evolution.state w)))
          eqn:El; [|discriminate].
        apply andb_true_iff in El as [El1 El2]. rewrite El1.
        exists (infect t). rewrite lookup_insert_eq.
        split; [done|]. simpl. by apply Z.eqb_eq.
    + rewrite evolution_button_failure by exact E. simpl.
      split; [by apply keyed_insert|]. split; [|discriminate].
      intros _.
      apply (hosted_after _ _ name t t false); auto; discriminate.
Qed.

Lemma outbreak_run_sound (w : Outbreak.Window) (clicks : list (Z * Click)) :
  let w' := Outbreak.run w clicks in
  window_sound (Outbreak.animals (Outbreak.state w))
               (Outbreak.playerName (Outbreak.state w))
               (Outbreak.maxLevel (Outbreak.state w)) (Outbreak.screen w) ->
  window_sound (Outbreak.animals (Outbreak.state w'))
               (Outbreak.playerName (Outbreak.state w'))
               (Outbreak.maxLevel (Outbreak.state w')) (Outbreak.screen w').
Proof.
  cbv zeta. revert w. induction clicks as [|[now c] cs IH]; intros w H;
    [exact H|].
  apply (IH (Outbreak.step now w c).1). by apply outbreak_step_sound.
Qed.

Lemma evolution_run_sound (w : Evolution.Window) (clicks : list (Z * Click)) :
  let w' := Evolution.run w clicks in
  window_sound (Evolution.animals (Evolution.state w))
               (Evolution.playerName (Evolution.state w))
               (Evolution.maxLevel (Evolution.state w)) (Evolution.screen w) ->
  window_sound (Evolution.animals (Evolution.state w'))
               (Evolution.playerName (Evolution.state w'))
               (Evolution.maxLevel (Evolution.state w')) (Evolution.screen w').
Proof.
  cbv zeta. revert w. induction clicks as [|[now c] cs IH]; intros w H;
    [exact H|].
  apply (IH (Evolution.step now w c).1). by apply evolution_step_sound.
Qed.

Lemma outbreak_step_maxLevel (now : Z) (w : Outbreak.Window) (c : Click) :
  Outbreak.maxLevel (Outbreak.state (Outbreak.step now w c).1)
  = Outbreak.maxLevel (Outbreak.state w).
Proof.
  outbreak_cases now w c; try reflexivity.
  - unfold Outbreak.chooseButton. by destruct (RedHerring a).
  - unfold Outbreak.infectButton. destruct (RedHerring t); [reflexivity|].
    simpl. by destruct (PrimFloat.ltb _ _).
Qed.

Lemma evolution_step_maxLevel (now : Z) (w : Evolution.Window) (c : Click) :
  Evolution.maxLevel (Evolution.state (Evolution.step now w c).1)
  = Evolution.maxLevel (Evolution.state w).
Proof.
  evolution_cases now w c; try reflexivity.
  - unfold Evolution.chooseButton. by destruct (RedHerring a).
  - destruct (PrimFloat.ltb (Evolution.rng w O)
                (PrimFloat.mul (InfectionRate t)
                   (Strength (Evolution.virus (Evolution.state w))))) eqn:E.
    + by rewrite evolution_button_success by exact E.
    + by rewrite evolution_button_failure by exact E.
Qed.

Lemma outbreak_run_maxLevel (w : Outbreak.Window) (clicks : list (Z * Click)) :
  Outbreak.maxLevel (Outbreak.state (Outbreak.run w clicks))
  = Outbreak.maxLevel (Outbreak.state w).
Proof.
  revert w. induction clicks as [|[now c] cs IH]; intros w; [reflexivity|].
  unfold Outbreak.run in *. simpl. rewrite IH. apply outbreak_step_maxLevel.
Qed.

Lemma evolution_run_maxLevel (w : Evolution.Window)
    (clicks : list (Z * Click)) :
  Evolution.maxLevel (Evolution.state (Evolution.run w clicks))
  = Evolution.maxLevel (Evolution.state w).
Proof.
  revert w. induction clicks as [|[now c] cs IH]; intros w; [reflexivity|].
  unfold Evolution.run in *. simpl. rewrite IH. apply evolution_step_maxLevel.
Qed.

Lemma outbreak_boot_roster (raw : list (list Animal))
    (facts : gmap string RedHerringInfo) (now : Z) (g : Go.Rand) :
  let w := Outbreak.boot raw facts now g in
  Outbreak.animals (Outbreak.state w) = (loadAnimals raw).1
  /\ Outbreak.maxLevel (Outbreak.state w) = (loadAnimals raw).2
  /\ Outbreak.screen w = Intro
  /\ Outbreak.currentDay (Outbreak.state w) = 0.
Proof. unfold Outbreak.boot. by destruct (loadAnimals raw). Qed.

Lemma evolution_boot_roster (raw : list (list Animal))
    (facts : gmap string RedHerringInfo) (g : Go.Rand) :
  let w := Evolution.boot raw facts g in
  Evolution.animals (Evolution.state w) = (loadAnimals raw).1
  /\ Evolution.maxLevel (Evolution.state w) = (loadAnimals raw).2
  /\ Evolution.screen w = Intro
  /\ Evolution.currentDay (Evolution.state w) = 1.
Proof. unfold Evolution.boot. by destruct (loadAnimals raw). Qed.

(** The player's host once the screen is past the starter selection:
    in the roster, infected, no red herring, and on the win screen at
    the loader's [maxLevel], above which the roster has no host. *)
Lemma window_sound_apex (raw : list (list Animal))
    (animals : gmap string Animal) (playerName : string) (maxLevel : Z)
    (screen : Screen) :
  window_sound animals playerName maxLevel screen ->
  only_infects (loadAnimals raw).1 animals ->
  maxLevel = (loadAnimals raw).2 ->
  screen = GameScreen \/ screen = WinScreen ->
  exists p,
    animals !! playerName = Some p
    /\ Name p = playerName /\ Infected p = true /\ RedHerring p = false
    /\ (screen = WinScreen ->
        Level p = (loadAnimals raw).2
        /\ forall name a, animals !! name = Some a -> Level a <= Level p).
Proof.
  intros (Hk & Hh & Hw) Honly -> Hscr.
  destruct (Hh Hscr) as (p & Hp & Hi & Hr).
  exists p. split; [done|]. split; [by apply Hk|].
  split; [done | split; [done|]].
  intros Hs. destruct (Hw Hs) as (p' & Hp' & Hl).
  assert (p' = p) as -> by congruence.
  split; [done|]. intros name a Ha. rewrite Hl.
  destruct (only_infects_level _ _ name a Honly Ha) as (b & Hb & <-).
  by eapply loadAnimals_bound.
Qed.

(** X11: in every run of the graphical program with the inline INFECT
    handler, once a starter is chosen the host named as the player's is
    in the roster under that name, infected, and no red herring; the
    win screen is shown only when that host is at the highest level of
    the files, above which the roster has no host. *)
Theorem outbreak_player_hosted (raw : list (list Animal))
    (facts : gmap string RedHerringInfo) (now : Z) (rng : Go.Rand)
    (clicks : list (Z * Click)) :
  let w := Outbreak.run (Outbreak.boot raw facts now rng) clicks in
  let st := Outbreak.state w in
  Outbreak.screen w = GameScreen \/ Outbreak.screen w = WinScreen ->
  exists p,
    Outbreak.animals st !! Outbreak.playerName st = Some p
    /\ Name p = Outbreak.playerName st
    /\ Infected p = true /\ RedHerring p = false
    /\ (Outbreak.screen w = WinScreen ->
        Level p = (loadAnimals raw).2
        /\ forall name a,
             Outbreak.animals st !! name = Some a -> Level a <= Level p).
Proof.
  intros w st Hscr.
  destruct (outbreak_boot_roster raw facts now rng) as (Ea & Em & Es & _).
  apply (window_sound_apex raw _ _ (Outbreak.maxLevel st)); [| | |exact Hscr].
  - apply outbreak_run_sound. rewrite Ea, Es.
    split; [apply loadAnimals_keyed|].
    split; [intros [?|?]; discriminate | discriminate].
  - rewrite <- Ea. apply outbreak_run_only_infects.
  - unfold st, w. by rewrite outbreak_run_maxLevel.
Qed.

Lemma outbreak_player_hosted_witness :
  exists p,
    Outbreak.animals
      (Outbreak.state
         (Outbreak.run (Sample.outbreak 0.1)
            [(0, Begin); (5, Choose "Tourist")]))
      !! "Tourist"%string = Some p
    /\ Infected p = true.
Proof.
  destruct (outbreak_player_hosted Sample.raw ∅ 0 (Sample.always 0.1)
              [(0, Begin); (5, Choose "Tourist"%string)])
    as (p & Hp & _ & Hi & _); [left; vm_compute; reflexivity|].
  exists p. split; [exact Hp | exact Hi].
Defined.

(** X12: the same in every run of the first graphical program: the
    player's host is in the roster under its name, infected, and no red
    herring, and the win screen is shown only at the highest level of
    the files. *)
Theorem evolution_player_hosted (raw : list (list Animal))
    (facts : gmap string RedHerringInfo) (rng : Go.Rand)
    (clicks : list (Z * Click)) :
  let w := Evolution.run (Evolution.boot raw facts rng) clicks in
  let st := Evolution.state w in
  Evolution.screen w = GameScreen \/ Evolution.screen w = WinScreen ->
  exists p,
    Evolution.animals st !! Evolution.playerName st = Some p
    /\ Name p = Evolution.playerName st
    /\ Infected p = true /\ RedHerring p = false
    /\ (Evolution.screen w = WinScreen ->
        Level p = (loadAnimals raw).2
        /\ forall name a,
             Evolution.animals st !! name = Some a -> Level a <= Level p).
Proof.
  intros w st Hscr.
  destruct (evolution_boot_roster raw facts rng) as (Ea & Em & Es & _).
  apply (window_sound_apex raw _ _ (Evolution.maxLevel st)); [| | |exact Hscr].
  - apply evolution_run_sound. rewrite Ea, Es.
    split; [apply loadAnimals_keyed|].
    split; [intros [?|?]; discriminate | discriminate].
  - rewrite <- Ea. apply evolution_run_only_infects.
  - unfold st, w. by rewrite evolution_run_maxLevel.
Qed.

Lemma evolution_player_hosted_witness :
  exists p,
    Evolution.animals
      (Evolution.state
         (Evolution.run (Evolution.boot Sample.raw ∅ (Sample.always 0.1))
            [(0, Begin); (5, Choose "Marmot"); (9, Infect "Elk");
             (12, Infect "Wolf")]))
      !! "Wolf"%string = Some p
    /\ Level p = 3.
Proof.
  destruct (evolution_player_hosted Sample.raw ∅ (Sample.always 0.1)
              [(0, Begin); (5, Choose "Marmot"%string);
               (9, Infect "Elk"%string); (12, Infect "Wolf"%string)])
    as (p & Hp & _ & _ & _ & Hw); [right; vm_compute; reflexivity|].
  exists p. split; [exact Hp|].
  destruct Hw as (Hl & _); [vm_compute; reflexivity | exact Hl].
Defined.

(** ** What the day counts *)







(** ** The contact-list programs *)

Lemma contact_only_infects_refl (m : gmap string Contact.Animal) :
  Contact.only_infects m m.
Proof. intros name. destruct (m !! name); auto. Qed.

Lemma contact_only_infects_trans (m1 m2 m3 : gmap string Contact.Animal) :
  Contact.only_infects m1 m2 -> Contact.only_infects m2 m3 ->
  Contact.only_infects m1 m3.
Proof.
  intros H12 H23 name. specialize (H12 name). specialize (H23 name).
  destruct (m1 !! name) as [a|].
  - destruct H12 as [E|E]; rewrite E in H23; [exact H23|].
    destruct H23 as [E'|E']; auto.
  - by rewrite H12 in H23.
Qed.

Lemma contact_only_infects_insert (m : gmap string Contact.Animal)
    (k : string) (t t' : Contact.Animal) :
  m !! k = Some t -> t' = t \/ t' = Contact.infect t ->
  Contact.only_infects m (<[k := t']> m).
Proof.
  intros Hk Ht name. rewrite lookup_insert. case_decide as E.
  - subst name. rewrite Hk. destruct Ht as [-> | ->]; auto.
  - destruct (m !! name); auto.
Qed.

Lemma contact_only_infects_alter (m : gmap string Contact.Animal)
    (k : string) :
  Contact.only_infects m (alter Contact.infect k m).
Proof.
  intros name. rewrite lookup_alter. case_decide as E.
  - subst name. destruct (m !! k); simpl; auto.
  - destruct (m !! name); auto.
Qed.

Lemma contact_valid_iff (p : Contact.Animal) (m : gmap string Contact.Animal)
    (name : string) :
  name ∈ Contact.validTargets p m
  <-> name ∈ Contact.Contacts p
      /\ exists t, m !! name = Some t /\ Contact.Infected t = false.
Proof.
  unfold Contact.validTargets. rewrite elem_of_collect. split.
  - intros (x & Hin & Hkeep & ->). unfold id. split; [done|].
    destruct (m !! x) as [a|]; [|discriminate].
    exists a. split; [done|]. by destruct (Contact.Infected a).
  - intros (Hin & t & Ht & Hi). exists name. by rewrite Ht, Hi.
Qed.

Lemma contact_attempt_shape (source target : Contact.Animal) (v : Virus)
    (g : Go.Rand) :
  exists ok t',
    Contact.attemptInfection source target v g = (ok, t', fun n => g (S n))
    /\ (t' = target \/ t' = Contact.infect target)
    /\ (ok = true <-> t' = Contact.infect target /\
                      PrimFloat.ltb (g O)
                        (PrimFloat.mul (Contact.InfectionRate target)
                                       (Strength v)) = true).
Proof.
  unfold Contact.attemptInfection. simpl.
  destruct (PrimFloat.ltb (g O) _) eqn:E.
  - exists true, (Contact.infect target).
    split; [done|]. split; [by right|]. by split.
  - exists false, target. split; [done|]. split; [by left|].
    split; [discriminate | intros [_ ?]; discriminate].
Qed.

Section ContactProperties.

Variable Sprint : Z -> string.
Variable EqualFold : string -> string -> bool.

Lemma contact_match_elem (input : string) (l : list string) (idx : Z)
    (val : string) :
  Contact.matchTarget Sprint EqualFold input idx l = Some val -> val ∈ l.
Proof.
  revert idx. induction l as [|x l IH]; intros idx; simpl; [discriminate|].
  destruct (_ || _).
  - intros [= ->]. apply elem_of_cons. by left.
  - intros H. apply elem_of_cons. right. by apply (IH (idx + 1)).
Qed.

Lemma contact_chosen (words : bool) (p : Contact.Animal)
    (m : gmap string Contact.Animal) (input val : string) :
  Contact.chooseTarget Sprint EqualFold words p m input = Contact.Chosen val ->
  val ∈ Contact.validTargets p m.
Proof.
  unfold Contact.chooseTarget. cbv zeta.
  destruct (Contact.matchTarget _ _ _ _ _) as [v|] eqn:E.
  - intros [= <-]. by eapply contact_match_elem.
  - by destruct (_ || _).
Qed.

Lemma contact_endTurn_sound (m0 : gmap string Contact.Animal)
    (rng0 : Go.Rand) (g : Contact.Game) :
  Contact.phase g = Contact.Playing -> 1 <= Contact.turn g <= 6 ->
  Contact.only_infects m0 (Contact.animals g) ->
  (exists n : nat,
     Z.of_nat n < Contact.turn g + 1
     /\ forall k : nat, Contact.rng g k = rng0 (n + k)%nat) ->
  (exists p,
     Contact.animals g !! Contact.player g = Some p
     /\ Contact.Infected p = true
     /\ forall name a,
          Contact.animals g !! name = Some a -> Contact.Infected a = true ->
          name = Contact.player g \/ name ∈ Contact.Contacts p
          \/ exists a0, m0 !! name = Some a0 /\ Contact.Infected a0 = true) ->
  contact_sound m0 rng0 (Contact.endTurn g).
Proof.
  intros Hph Ht Ho Hr Hh.
  assert (Hadd : Go.add (Contact.turn g) 1 = Contact.turn g + 1)
    by (apply incr_small; unfold Go.int_min, Go.int_max; lia).
  unfold contact_sound, Contact.endTurn. simpl. rewrite Hadd.
  destruct (6 <? Contact.turn g + 1) eqn:E;
    [apply Z.ltb_lt in E | apply Z.ltb_ge in E].
  - split; [done|]. split; [discriminate|]. split; [discriminate|].
    split; [intros _; lia|]. split; [exact Hr | intros _; exact Hh].
  - split; [done|]. split; [discriminate|]. split; [intros _; lia|].
    split; [discriminate|]. split; [exact Hr | intros _; exact Hh].
Qed.

Lemma contact_step_sound (m0 : gmap string Contact.Animal) (rng0 : Go.Rand)
    (g : Contact.Game) (input : string) :
  contact_sound m0 rng0 g ->
  contact_sound m0 rng0 (Contact.step Sprint EqualFold g input).1.
Proof.
  intros Hs. unfold Contact.step.
  destruct (Contact.phase g) eqn:Hph; [| |exact Hs].
  - unfold Contact.askStarterAnimal.
    destruct (Contact.animals g !! input) as [a|] eqn:Hin; [|exact Hs].
    destruct Hs as (Ho & Hsel & _ & _ & (n & Hn & Hr) & _).
    destruct (Hsel Hph) as (Em & Et).
    unfold contact_sound. simpl. rewrite Em in *.
    split; [apply contact_only_infects_alter|].
    split; [discriminate|]. split; [intros _; lia|]. split; [discriminate|].
    split; [exists n; split; [lia | exact Hr]|].
    intros _. exists (Contact.infect a). rewrite lookup_alter_eq, Hin.
    split; [done|]. split; [done|].
    intros name b Hb Hi.
    destruct (decide (name = input)) as [->|Hne]; [by left|].
    right. right. exists b. by rewrite lookup_alter_ne in Hb.
  - destruct (Contact.animals g !! Contact.player g) as [p|] eqn:Hp;
      [|exact Hs].
    pose proof Hs as Hs0.
    destruct Hs as (Ho & _ & Hpl & _ & (n & Hn & Hr) & Hh).
    specialize (Hpl Hph).
    destruct Hh as (p' & Hp' & Hpi & Hinf); [congruence|].
    assert (p' = p) as -> by congruence.
    destruct (Contact.chooseTarget _ _ _ _ _ _) as [val| |] eqn:Hch.
    + apply contact_chosen, contact_valid_iff in Hch
        as (Hc & t & Ht & Hti).
      rewrite Ht.
      destruct (contact_attempt_shape p t (Contact.virus g) (Contact.rng g))
        as (ok & t' & -> & Ht' & _).
      assert (Hne : val <> Contact.player g)
        by (intros ->; congruence).
      apply contact_endTurn_sound; simpl.
      * done.
      * done.
      * eapply contact_only_infects_trans; [exact Ho|].
        by eapply contact_only_infects_insert.
      * exists (S n). split; [lia|]. intros k. rewrite Hr. f_equal. lia.
      * exists p. rewrite lookup_insert_ne by done.
        split; [done|]. split; [done|].
        intros name b Hb Hi.
        destruct (decide (name = val)) as [->|Hne']; [by right; left|].
        rewrite lookup_insert_ne in Hb by done. by eapply Hinf.
    + apply contact_endTurn_sound; try done.
      * exists n. split; [lia | exact Hr].
      * exists p. auto.
    + exact Hs0.
Qed.

Lemma contact_run_sound (m0 : gmap string Contact.Animal) (rng0 : Go.Rand)
    (g : Contact.Game) (inputs : list string) :
  contact_sound m0 rng0 g ->
  contact_sound m0 rng0 (Contact.run Sprint EqualFold g inputs).
Proof.
  revert g. induction inputs as [|line rest IH]; intros g Hs; [exact Hs|].
  apply (IH (Contact.step Sprint EqualFold g line).1).
  by apply contact_step_sound.
Qed.

Lemma contact_start_sound (g0 : Contact.Game) :
  Contact.phase g0 = Contact.SelectingStarter -> Contact.turn g0 = 1 ->
  contact_sound (Contact.animals g0) (Contact.rng g0) g0.
Proof.
  intros Hph Ht. unfold contact_sound. rewrite Hph, Ht.
  split; [apply contact_only_infects_refl|]. split; [done|].
  split; [discriminate|]. split; [discriminate|].
  split; [by exists O | done].
Qed.

Lemma contact_step_player (g : Contact.Game) (input : string) :
  Contact.phase g <> Contact.SelectingStarter ->
  let g' := (Contact.step Sprint EqualFold g input).1 in
  Contact.player g' = Contact.player g
  /\ Contact.phase g' <> Contact.SelectingStarter.
Proof.
  intros Hph. cbv zeta. unfold Contact.step.
  destruct (Contact.phase g) eqn:E;
    [by contradict Hph | | simpl; by rewrite E].
  destruct (Contact.animals g !! Contact.player g) as [p|];
    [|simpl; by rewrite E].
  destruct (Contact.chooseTarget _ _ _ _ _ _) as [val| |].
  - destruct (Contact.animals g !! val) as [t|]; [|simpl; by rewrite E].
    destruct (contact_attempt_shape p t (Contact.virus g) (Contact.rng g))
      as (ok & t' & -> & _).
    simpl. split; [done|]. by destruct (6 <? _).
  - simpl. split; [done|]. by destruct (6 <? _).
  - simpl. by rewrite E.
Qed.

Lemma contact_run_player (g : Contact.Game) (inputs : list string) :
  Contact.phase g <> Contact.SelectingStarter ->
  Contact.player (Contact.run Sprint EqualFold g inputs) = Contact.player g.
Proof.
  revert g. induction inputs as [|line rest IH]; intros g Hph; [reflexivity|].
  destruct (contact_step_player g line Hph) as (Hp & Hph').
  unfold Contact.run in *. simpl. by rewrite IH.
Qed.

(** X14: in the two contact-list programs the target that
    [chooseTarget] returns is one of the player's contacts, is in the
    roster and is not infected, whatever is typed and however numbers
    are printed and names compared; levels play no part. *)
Theorem contact_choose_target (words : bool) (p : Contact.Animal)
    (m : gmap string Contact.Animal) (input val : string) :
  Contact.chooseTarget Sprint EqualFold words p m input = Contact.Chosen val ->
  val ∈ Contact.Contacts p
  /\ exists t, m !! val = Some t /\ Contact.Infected t = false.
Proof. intros H. by apply contact_chosen, contact_valid_iff in H. Qed.

(** X15: in every run of a contact-list program the player's host stays
    the starter that was chosen, and the infection never leaves its
    neighbourhood: a host found infected is the starter, one of the
    starter's contacts, or was infected in the loaded roster. *)
Theorem contact_spread_confined (g0 : Contact.Game) (inputs : list string) :
  Contact.phase g0 = Contact.SelectingStarter -> Contact.turn g0 = 1 ->
  let g := Contact.run Sprint EqualFold g0 inputs in
  Contact.phase g <> Contact.SelectingStarter ->
  exists p,
    Contact.animals g !! Contact.player g = Some p
    /\ Contact.Infected p = true
    /\ (forall name a,
          Contact.animals g !! name = Some a -> Contact.Infected a = true ->
          name = Contact.player g \/ name ∈ Contact.Contacts p
          \/ exists a0, Contact.animals g0 !! name = Some a0
                        /\ Contact.Infected a0 = true)
    /\ forall more,
         Contact.player (Contact.run Sprint EqualFold g more)
         = Contact.player g.
Proof.
  intros Hph Ht g Hg.
  destruct (contact_run_sound _ _ g0 inputs (contact_start_sound g0 Hph Ht))
    as (_ & _ & _ & _ & _ & Hh).
  destruct (Hh Hg) as (p & Hp & Hi & Hinf).
  exists p. split; [done|]. split; [done|]. split; [exact Hinf|].
  intros more. by apply contact_run_player.
Qed.

(** X16: a contact-list program plays six turns and no more: the turn
    stays between 1 and 7, a prompt for a target is shown on turns 1 to
    6 only, the simulation is complete exactly on turn 7 and then takes
    no further input; fewer values are taken from the generator than
    the number of the turn, so six at most; and the roster changes by
    infections only. *)
Theorem contact_six_turns (g0 : Contact.Game) (inputs : list string) :
  Contact.phase g0 = Contact.SelectingStarter -> Contact.turn g0 = 1 ->
  let g := Contact.run Sprint EqualFold g0 inputs in
  Contact.only_infects (Contact.animals g0) (Contact.animals g)
  /\ 1 <= Contact.turn g <= 7
  /\ (Contact.phase g = Contact.Playing -> Contact.turn g <= 6)
  /\ (Contact.phase g = Contact.Complete <-> Contact.turn g = 7)
  /\ (Contact.phase g = Contact.Complete ->
      forall line, Contact.step Sprint EqualFold g line = (g, Refused))
  /\ exists n : nat,
       Z.of_nat n < Contact.turn g /\ (n <= 6)%nat
       /\ forall k : nat, Contact.rng g k = Contact.rng g0 (n + k)%nat.
Proof.
  intros Hph Ht g.
  destruct (contact_run_sound _ _ g0 inputs (contact_start_sound g0 Hph Ht))
    as (Ho & Hsel & Hpl & Hco & (n & Hn & Hr) & _).
  fold g in Ho, Hsel, Hpl, Hco, Hn, Hr.
  assert (Hturn : 1 <= Contact.turn g <= 7
                  /\ (Contact.turn g = 7 ->
                      Contact.phase g = Contact.Complete)).
  { destruct (Contact.phase g) eqn:E.
    - destruct (Hsel eq_refl) as (_ & ->). lia.
    - specialize (Hpl eq_refl). lia.
    - rewrite (Hco eq_refl). split; [lia | done]. }
  destruct Hturn as (Hturn & H7).
  split; [exact Ho|]. split; [exact Hturn|].
  split; [intros H; apply (Hpl H)|]. split; [by split|].
  split.
  - intros Hc line. unfold Contact.step. by rewrite Hc.
  - exists n. split; [exact Hn|]. split; [lia | exact Hr].
Qed.

End ContactProperties.

Lemma contact_choose_target_witness :
  "Wolf"%string
    ∈ Contact.Contacts
        (Contact.mkAnimal "Tourist" 1 "walk" 9 ["Grizzly Bear"; "Wolf"]%string
                          true 0.75 "Campsite")
  /\ exists t,
       Contact.LoadYellowstoneAnimals !! "Wolf"%string = Some t
       /\ Contact.Infected t = false.
Proof.
  apply (contact_choose_target Sample.Sprint Sample.EqualFold true
           (Contact.mkAnimal "Tourist" 1 "walk" 9
              ["Grizzly Bear"; "Wolf"]%string true 0.75 "Campsite")
           Contact.LoadYellowstoneAnimals "2"%string "Wolf"%string).
  vm_compute. reflexivity.
Defined.

Lemma contact_spread_confined_witness :
  exists p,
    Contact.animals
      (Contact.run Sample.Sprint Sample.EqualFold
         (Contact.bootFixed (Sample.always 0.1)) ["Tourist"; "wolf"; "3"]%string)
      !! "Tourist"%string = Some p
    /\ Contact.Infected p = true.
Proof.
  destruct (contact_spread_confined Sample.Sprint Sample.EqualFold
              (Contact.bootFixed (Sample.always 0.1))
              ["Tourist"; "wolf"; "3"]%string eq_refl eq_refl)
    as (p & Hp & Hi & _); [vm_compute; discriminate|].
  exists p. split; [exact Hp | exact Hi].
Defined.

Lemma contact_six_turns_witness :
  Contact.turn
    (Contact.run Sample.Sprint Sample.EqualFold
       (Contact.bootFixed (Sample.always 0.1))
       ["Tourist"; "wolf"; "skip"; "1"; "1"; "1"; "1"; "1"]%string)
  = 7.
Proof.
  destruct (contact_six_turns Sample.Sprint Sample.EqualFold
              (Contact.bootFixed (Sample.always 0.1))
              ["Tourist"; "wolf"; "skip"; "1"; "1"; "1"; "1"; "1"]%string
              eq_refl eq_refl)
    as (_ & _ & _ & (H & _) & _).
  apply H. vm_compute. reflexivity.
Defined.

(** ** Red herrings and starters in the graphical programs *)

Lemma evolution_step_rh_kept (now : Z) (w : Evolution.Window) (c : Click) :
  keyed (Evolution.animals (Evolution.state w)) ->
  rh_kept (Evolution.animals (Evolution.state w))
          (Evolution.animals (Evolution.state (Evolution.step now w c).1)).
Proof.
  intros Hk. evolution_cases now w c.
  - apply rh_kept_refl.
  - apply rh_kept_refl.
  - unfold Evolution.chooseButton.
    match goal with H : RedHerring a = false |- _ => rewrite H end.
    simpl. assert (Hn : Name a = name) by (by apply Hk). rewrite Hn.
    by eapply rh_kept_alter.
  - match goal with H : Evolution.isValidTarget _ _ = true |- _ =>
      destruct (evolution_button_valid p t _ name Hk ltac:(eassumption) H)
        as (_ & Hr & _) end.
    destruct (PrimFloat.ltb (Evolution.rng w O)
                (PrimFloat.mul (InfectionRate t)
                   (Strength (Evolution.virus (Evolution.state w))))) eqn:E.
    + rewrite evolution_button_success by exact E. simpl.
      by eapply rh_kept_insert.
    + rewrite evolution_button_failure by exact E. simpl.
      by eapply rh_kept_insert.
Qed.

Lemma evolution_run_rh_kept (w : Evolution.Window)
    (clicks : list (Z * Click)) :
  window_sound (Evolution.animals (Evolution.state w))
               (Evolution.playerName (Evolution.state w))
               (Evolution.maxLevel (Evolution.state w)) (Evolution.screen w) ->
  rh_kept (Evolution.animals (Evolution.state w))
          (Evolution.animals (Evolution.state (Evolution.run w clicks))).
Proof.
  revert w. induction clicks as [|[now c] cs IH]; intros w Hs;
    [apply rh_kept_refl|].
  eapply rh_kept_trans.
  - apply (evolution_step_rh_kept now w c). by destruct Hs.
  - apply (IH (Evolution.step now w c).1). by apply evolution_step_sound.
Qed.

(** X17: in every run of the first graphical program from the loaded
    roster, a red herring is found in the roster exactly as it was
    loaded: its cards never get the infect button and its starter card
    only explains. *)
Theorem evolution_red_herring_kept (raw : list (list Animal))
    (facts : gmap string RedHerringInfo) (rng : Go.Rand)
    (clicks : list (Z * Click)) (name : string) (a : Animal) :
  (loadAnimals raw).1 !! name = Some a -> RedHerring a = true ->
  Evolution.animals
    (Evolution.state (Evolution.run (Evolution.boot raw facts rng) clicks))
    !! name = Some a.
Proof.
  intros Ha Hr.
  destruct (evolution_boot_roster raw facts rng) as (Ea & _ & Es & _).
  apply (evolution_run_rh_kept (Evolution.boot raw facts rng) clicks);
    [|by rewrite Ea | exact Hr].
  rewrite Ea, Es. split; [apply loadAnimals_keyed|].
  split; [intros [?|?]; discriminate | discriminate].
Qed.

Lemma evolution_red_herring_kept_witness :
  Evolution.animals
    (Evolution.state
       (Evolution.run (Evolution.boot Sample.raw ∅ (Sample.always 0.1))
          [(0, Begin); (3, Choose "Raven"); (5, Choose "Marmot");
           (7, Infect "Raven"); (9, Infect "Elk")]))
    !! "Raven"%string = Some Sample.raven.
Proof.
  apply (evolution_red_herring_kept Sample.raw ∅ (Sample.always 0.1)
           [(0, Begin); (3, Choose "Raven"%string);
            (5, Choose "Marmot"%string); (7, Infect "Raven"%string);
            (9, Infect "Elk"%string)] "Raven"%string Sample.raven).
  - vm_compute. reflexivity.
  - reflexivity.
Defined.

(** X18: in both graphical programs the click that starts the game is
    a Choose button of the starter selection on a host of level 1 that
    is no red herring; the host becomes the player's and is left
    infected, the game screen is shown, and the clock of the score is
    started at that instant. *)
Theorem gui_starter_level_one (raw : list (list Animal))
    (facts : gmap string RedHerringInfo) (now : Z) (rng : Go.Rand)
    (clicks : list (Z * Click)) (at_ : Z) (c : Click) :
  (let w := Outbreak.run (Outbreak.boot raw facts now rng) clicks in
   let w' := (Outbreak.step at_ w c).1 in
   Outbreak.screen w = StarterSelection ->
   (Outbreak.step at_ w c).2 = Started ->
   exists name a,
     c = Choose name
     /\ Outbreak.animals (Outbreak.state w) !! name = Some a
     /\ Level a = 1 /\ RedHerring a = false
     /\ Outbreak.playerName (Outbreak.state w') = name
     /\ Outbreak.animals (Outbreak.state w') !! name = Some (infect a)
     /\ Outbreak.screen w' = GameScreen
     /\ StartTime (Outbreak.stats (Outbreak.state w')) = at_)
  /\ (let w := Evolution.run (Evolution.boot raw facts rng) clicks in
      let w' := (Evolution.step at_ w c).1 in
      Evolution.screen w = StarterSelection ->
      (Evolution.step at_ w c).2 = Started ->
      exists name a,
        c = Choose name
        /\ Evolution.animals (Evolution.state w) !! name = Some a
        /\ Level a = 1 /\ RedHerring a = false
        /\ Evolution.playerName (Evolution.state w') = name
        /\ Evolution.animals (Evolution.state w') !! name = Some (infect a)
        /\ Evolution.screen w' = GameScreen
        /\ StartTime (Evolution.stats (Evolution.state w')) = at_).
Proof.
  split.
  - cbv zeta.
    pose proof (outbreak_run_keyed raw facts now rng clicks) as Hk.
    revert Hk. generalize (Outbreak.run (Outbreak.boot raw facts now rng) clicks).
    intros w Hk Hscr. unfold Outbreak.step. rewrite Hscr.
    destruct c as [|name|name|]; try discriminate.
    destruct (Outbreak.animals (Outbreak.state w) !! name) as [a|] eqn:Ha;
      [|discriminate].
    destruct (Level a =? 1) eqn:El; [|discriminate].
    apply Z.eqb_eq in El. unfold Outbreak.chooseButton.
    destruct (RedHerring a) eqn:Hr; [discriminate|]. simpl. intros _.
    exists name, a. rewrite lookup_insert_eq.
    repeat (split; [done|]). split; [by apply Hk|]. done.
  - cbv zeta.
    assert (Hk : keyed (Evolution.animals
                          (Evolution.state
                             (Evolution.run (Evolution.boot raw facts rng)
                                            clicks)))).
    { destruct (evolution_boot_roster raw facts rng) as (Ea & _ & Es & _).
      apply evolution_run_sound. rewrite Ea, Es.
      split; [apply loadAnimals_keyed|].
      split; [intros [?|?]; discriminate | discriminate]. }
    revert Hk. generalize (Evolution.run (Evolution.boot raw facts rng) clicks).
    intros w Hk Hscr. unfold Evolution.step. rewrite Hscr.
    destruct c as [|name|name|]; try discriminate.
    destruct (Evolution.animals (Evolution.state w) !! name) as [a|] eqn:Ha;
      [|discriminate].
    destruct (Level a =? 1) eqn:El; [|discriminate].
    apply Z.eqb_eq in El. unfold Evolution.chooseButton.
    destruct (RedHerring a) eqn:Hr; [discriminate|]. simpl. intros _.
    exists name, a. rewrite (Hk name a Ha), lookup_alter_eq, Ha.
    repeat (split; [done|]). done.
Qed.

Lemma gui_starter_level_one_witness :
  exists name a,
    Choose "Tourist" = Choose name
    /\ Outbreak.animals
         (Outbreak.state (Outbreak.run (Sample.outbreak 0.1) [(0, Begin)]))
         !! name = Some a
    /\ Level a = 1 /\ RedHerring a = false.
Proof.
  destruct (gui_starter_level_one Sample.raw ∅ 0 (Sample.always 0.1)
              [(0, Begin)] 5 (Choose "Tourist"%string)) as (H & _).
  destruct H as (name & a & Hc & Ha & Hl & Hr & _);
    [vm_compute; reflexivity | vm_compute; reflexivity|].
  exists name, a. auto.
Defined.

(** * Reaching the apex *)

(** The test the programs make: a successful infection of a host above
    the player at [maxLevel] wins the console game. *)
Lemma console_reaches_max (g : Console.Game) (choice : Z) (p : Animal)
    (name : string) (t : Animal) :
  Console.phase g = Console.Playing ->
  Console.animals g !! Console.player g = Some p ->
  Console.chooseTarget p (Console.animals g) choice = Console.Chosen name ->
  Console.animals g !! name = Some t ->
  (Console.step g choice).2 = Success ->
  Level p < Level t -> Level t = Console.maxLevel g ->
  Console.phase (Console.step g choice).1 = Console.Won
  /\ Console.player (Console.step g choice).1 = name.
Proof.
  intros Hph Hp Hch Hm.
  rewrite (console_step_attempt g choice p name t Hph Hp Hch Hm).
  cbn [fst snd]. intros Ho Hlt Hmax.
  apply console_success_draw in Ho.
  rewrite console_attempt_success by exact Ho.
  unfold console_after. cbn [Console.won Console.moved].
  rewrite (proj2 (Z.ltb_lt _ _) Hlt), (proj2 (Z.eqb_eq _ _) Hmax).
  simpl. auto.
Qed.

(** And in the second graphical program a successful infection of a
    host at [maxLevel] brings the win screen. *)
Lemma outbreak_reaches_max (now : Z) (w : Outbreak.Window) (name : string)
    (p t : Animal) :
  Outbreak.screen w = GameScreen ->
  Outbreak.animals (Outbreak.state w)
    !! Outbreak.playerName (Outbreak.state w) = Some p ->
  Outbreak.animals (Outbreak.state w) !! name = Some t ->
  (Outbreak.step now w (Infect name)).2 = Success ->
  Level t = Outbreak.maxLevel (Outbreak.state w) ->
  Outbreak.screen (Outbreak.step now w (Infect name)).1 = WinScreen
  /\ Outbreak.playerName
       (Outbreak.state (Outbreak.step now w (Infect name)).1) = Name t.
Proof.
  intros Hs Hp Ht Ho.
  pose proof (outbreak_success_card now w name p t Hs Hp Ht Ho) as Hc.
  revert Ho. rewrite (outbreak_step_infect now w name p t Hs Hp Ht Hc).
  intros Ho Hmax. apply outbreak_success_draw in Ho as [Hr Ho].
  rewrite outbreak_button_success by assumption. cbv zeta.
  rewrite (proj2 (Z.eqb_eq _ _) Hmax). simpl. auto.
Qed.

Lemma console_run_snoc (g : Console.Game) (choices : list Z) (c : Z) :
  Console.run g (choices ++ [c])
  = (Console.step (Console.run g choices) c).1.
Proof. unfold Console.run. by rewrite fold_left_app. Qed.

Lemma outbreak_run_snoc (w : Outbreak.Window) (clicks : list (Z * Click))
    (now : Z) (c : Click) :
  Outbreak.run w (clicks ++ [(now, c)])
  = (Outbreak.step now (Outbreak.run w clicks) c).1.
Proof. unfold Outbreak.run. by rewrite fold_left_app. Qed.

(** A game that has started has a host at level 1 in its files, so the
    loader's maximum is at least 1. *)
Lemma console_started_level (raw : list (list Animal)) (now : Z)
    (rng : Go.Rand) (choices : list Z) :
  Console.phase (Console.run (Console.boot raw now rng) choices)
  <> Console.SelectingStarter ->
  1 <= (loadAnimals raw).2.
Proof.
  induction choices as [|c cs IH] using rev_ind.
  - unfold Console.run, Console.boot. simpl.
    destruct (loadAnimals raw). simpl. intros H. by contradict H.
  - rewrite console_run_snoc.
    pose proof (console_run_sound rng _ cs (console_boot_sound raw now rng))
      as Hs.
    pose proof (console_run_only_infects (Console.boot raw now rng) cs) as Ho.
    destruct (console_boot_roster raw now rng) as (Ea & _).
    rewrite Ea in Ho.
    revert IH Hs Ho.
    generalize (Console.run (Console.boot raw now rng) cs).
    intros g IH Hs Ho.
    destruct (Console.phase g) eqn:E;
      try (intros _; apply IH; discriminate).
    clear IH. console_cases g c; simpl; intros Hne.
    + by rewrite E in Hne.
    + destruct Hs as (_ & _ & _ & _ & _ & HF).
      match goal with H : Console.askStarterAnimal _ _ _ = _ |- _ =>
        destruct (console_starter_chosen _ _ _ _ H) as (a' & Ha' & _ & Hin)
      end.
      assert (a' = a) as -> by congruence.
      assert (Hl : Level a = 1) by (by eapply HF).
      destruct (only_infects_level _ _ start a Ho Ha') as (b & Hb & Hlb).
      apply loadAnimals_bound in Hb. lia.
    + congruence.
    + congruence.
Qed.

Lemma outbreak_started_level (raw : list (list Animal))
    (facts : gmap string RedHerringInfo) (now : Z) (rng : Go.Rand)
    (clicks : list (Z * Click)) :
  Outbreak.screen (Outbreak.run (Outbreak.boot raw facts now rng) clicks)
  = GameScreen ->
  1 <= (loadAnimals raw).2.
Proof.
  induction clicks as [|[at_ c] cs IH] using rev_ind.
  - destruct (outbreak_boot_roster raw facts now rng) as (_ & _ & Es & _).
    unfold Outbreak.run. simpl. rewrite Es. discriminate.
  - rewrite outbreak_run_snoc.
    pose proof (outbreak_run_only_infects (Outbreak.boot raw facts now rng) cs)
      as Ho.
    destruct (outbreak_boot_roster raw facts now rng) as (Ea & _).
    rewrite Ea in Ho.
    revert IH Ho.
    generalize (Outbreak.run (Outbreak.boot raw facts now rng) cs).
    intros w IH Ho. outbreak_cases at_ w c.
    + exact IH.
    + simpl. discriminate.
    + intros _.
      match goal with H : _ !! name = Some a |- _ =>
        destruct (only_infects_level _ _ name a Ho H) as (b & Hb & Hlb) end.
      apply loadAnimals_bound in Hb. lia.
    + intros _. by apply IH.
Qed.

(** When no two animals of the files share a name, a host of the roster
    that no host of the roster exceeds is at the loader's maximum. *)
Lemma roster_apex (raw : list (list Animal)) (m : gmap string Animal)
    (name : string) (t : Animal) :
  NoDup (parsedNames raw) -> only_infects (loadAnimals raw).1 m ->
  1 <= (loadAnimals raw).2 -> m !! name = Some t ->
  (forall name' a, m !! name' = Some a -> Level a <= Level t) ->
  Level t = (loadAnimals raw).2.
Proof.
  intros Hnd Ho Hpos Ht Hmax. apply Z.le_antisymm.
  - destruct (only_infects_level _ _ name t Ho Ht) as (b & Hb & <-).
    by eapply loadAnimals_bound.
  - destruct (loadAnimals_attained raw) as [H0 | (group & a & Hg & Ha & Hl)];
      [lia|].
    rewrite <- Hl.
    assert (Hin : a ∈ concat raw).
    { apply list_elem_of_In, in_concat. exists group.
      split; by apply list_elem_of_In. }
    pose proof (loadAnimals_found raw a Hnd Hin) as Hf.
    specialize (Ho (Name a)). rewrite Hf in Ho.
    destruct Ho as [Ho|Ho]; apply Hmax in Ho; exact Ho.
Qed.

(** C8, as stated, fails when a name occurs twice in the files: the
    loader's [maxLevel] counts the marmot entry of level 5 that the
    second entry overwrites, so the roster holds the marmot at level 1
    and the elk at level 2 while [maxLevel] is 5.  The successful
    next-level infection of the elk, the highest host of the roster,
    does not win: the console program goes on and ends with the days,
    the second graphical program shows the game screen again. *)
Lemma apex_wins_counterexample :
  let g := Console.run (Console.boot Sample.twice 0 (Sample.always 0.1)) [1] in
  let g' := (Console.step g 1).1 in
  let w := Outbreak.run (Outbreak.boot Sample.twice ∅ 0 (Sample.always 0.1))
             [(0, Begin); (5, Choose "Marmot")] in
  let w' := (Outbreak.step 9 w (Infect "Elk")).1 in
  (Console.phase g = Console.Playing
   /\ Console.animals g !! Console.player g = Some (infect Sample.marmot)
   /\ Console.animals g !! "Elk"%string = Some Sample.elk
   /\ (forall name a,
         Console.animals g !! name = Some a -> Level a <= Level Sample.elk)
   /\ Level Sample.elk = Level (infect Sample.marmot) + 1
   /\ Console.maxLevel g = 5
   /\ (Console.step g 1).2 = Success
   /\ Console.player g' = "Elk"%string
   /\ NextLevelInfections (Console.stats g') = 1
   /\ Console.phase g' = Console.Ended
   /\ Console.phase g' <> Console.Won)
  /\ (Outbreak.screen w = GameScreen
      /\ Outbreak.animals (Outbreak.state w)
           !! Outbreak.playerName (Outbreak.state w)
         = Some (infect Sample.marmot)
      /\ Outbreak.animals (Outbreak.state w) !! "Elk"%string = Some Sample.elk
      /\ (forall name a,
            Outbreak.animals (Outbreak.state w) !! name = Some a ->
            Level a <= Level Sample.elk)
      /\ (Outbreak.step 9 w (Infect "Elk")).2 = Success
      /\ Outbreak.playerName (Outbreak.state w') = "Elk"%string
      /\ NextLevelInfections (Outbreak.stats (Outbreak.state w')) = 1
      /\ Outbreak.screen w' = GameScreen
      /\ Outbreak.screen w' <> WinScreen).
Proof.
  cbv zeta. split.
  - split; [vm_compute; reflexivity|]. split; [vm_compute; reflexivity|].
    split; [vm_compute; reflexivity|]. split.
    { intros name a Ha.
      assert (Hall : map_Forall (fun _ a => Level a <= Level Sample.elk)
                       (Console.animals
                          (Console.run
                             (Console.boot Sample.twice 0 (Sample.always 0.1))
                             [1])))
        by (apply (bool_decide_unpack _); vm_compute; reflexivity).
      exact (Hall name a Ha). }
    split; [reflexivity|]. split; [vm_compute; reflexivity|].
    split; [vm_compute; reflexivity|]. split; [vm_compute; reflexivity|].
    split; [vm_compute; reflexivity|]. split; [vm_compute; reflexivity|].
    vm_compute. discriminate.
  - split; [vm_compute; reflexivity|]. split; [vm_compute; reflexivity|].
    split; [vm_compute; reflexivity|]. split.
    { intros name a Ha.
      assert (Hall : map_Forall (fun _ a => Level a <= Level Sample.elk)
                       (Outbreak.animals
                          (Outbreak.state
                             (Outbreak.run
                                (Outbreak.boot Sample.twice ∅ 0
                                               (Sample.always 0.1))
                                [(0, Begin); (5, Choose "Marmot"%string)]))))
        by (apply (bool_decide_unpack _); vm_compute; reflexivity).
      exact (Hall name a Ha). }
    split; [vm_compute; reflexivity|]. split; [vm_compute; reflexivity|].
    split; [vm_compute; reflexivity|]. split; [vm_compute; reflexivity|].
    vm_compute. discriminate.
Qed.

(** C8, amended: when no two animals of the files share a name, the
    loader's [maxLevel] is the maximum level in the roster, and in a run
    from the loaded roster a successful infection that takes the player
    up to a host that no host of the roster exceeds ends the game: the
    console program enters [Won] with that host as the player's, the
    second graphical program shows the win screen; from then on every
    further command, target choice or skip, leaves the whole state as it
    is.  Whatever the files, the test the programs make is against
    [maxLevel], which bounds the levels of the roster and is the level
    of a parsed animal (or 0). *)
Theorem apex_wins :
  (forall raw,
     (forall name a,
        (loadAnimals raw).1 !! name = Some a -> Level a <= (loadAnimals raw).2)
     /\ ((loadAnimals raw).2 = 0
         \/ exists group a,
              group ∈ raw /\ a ∈ group /\ Level a = (loadAnimals raw).2)
     /\ (NoDup (parsedNames raw) ->
         (loadAnimals raw).2 = 0
         \/ exists a, (loadAnimals raw).1 !! Name a = Some a
                      /\ Level a = (loadAnimals raw).2))
  /\ (forall raw now rng choices choice p name t,
     NoDup (parsedNames raw) ->
     let g := Console.run (Console.boot raw now rng) choices in
     let g' := (Console.step g choice).1 in
     Console.phase g = Console.Playing ->
     Console.animals g !! Console.player g = Some p ->
     Console.chooseTarget p (Console.animals g) choice = Console.Chosen name ->
     Console.animals g !! name = Some t ->
     (Console.step g choice).2 = Success ->
     Level p < Level t ->
     (forall name' a, Console.animals g !! name' = Some a ->
                      Level a <= Level t) ->
     Console.phase g' = Console.Won
     /\ Console.player g' = name
     /\ (forall choice', Console.step g' choice' = (g', Refused))
     /\ forall choices', Console.run g' choices' = g')
  /\ (forall g choice p name t,
     Console.phase g = Console.Playing ->
     Console.animals g !! Console.player g = Some p ->
     Console.chooseTarget p (Console.animals g) choice = Console.Chosen name ->
     Console.animals g !! name = Some t ->
     (Console.step g choice).2 = Success ->
     Level p < Level t -> Level t = Console.maxLevel g ->
     Console.phase (Console.step g choice).1 = Console.Won
     /\ Console.player (Console.step g choice).1 = name)
  /\ (forall g,
     Console.phase g = Console.Won ->
     (forall choice, Console.step g choice = (g, Refused))
     /\ forall choices, Console.run g choices = g)
  /\ (forall raw facts now rng clicks at_ name p t,
     NoDup (parsedNames raw) ->
     let w := Outbreak.run (Outbreak.boot raw facts now rng) clicks in
     let w' := (Outbreak.step at_ w (Infect name)).1 in
     Outbreak.screen w = GameScreen ->
     Outbreak.animals (Outbreak.state w)
       !! Outbreak.playerName (Outbreak.state w) = Some p ->
     Outbreak.animals (Outbreak.state w) !! name = Some t ->
     (Outbreak.step at_ w (Infect name)).2 = Success ->
     (forall name' a, Outbreak.animals (Outbreak.state w) !! name' = Some a ->
                      Level a <= Level t) ->
     Outbreak.screen w' = WinScreen
     /\ Outbreak.playerName (Outbreak.state w') = name
     /\ (forall at' c, (Outbreak.step at' w' c).1 = w')
     /\ forall clicks', Outbreak.run w' clicks' = w')
  /\ (forall now w name p t,
     Outbreak.screen w = GameScreen ->
     Outbreak.animals (Outbreak.state w)
       !! Outbreak.playerName (Outbreak.state w) = Some p ->
     Outbreak.animals (Outbreak.state w) !! name = Some t ->
     (Outbreak.step now w (Infect name)).2 = Success ->
     Level t = Outbreak.maxLevel (Outbreak.state w) ->
     Outbreak.screen (Outbreak.step now w (Infect name)).1 = WinScreen
     /\ Outbreak.playerName
          (Outbreak.state (Outbreak.step now w (Infect name)).1) = Name t)
  /\ (forall w,
     Outbreak.screen w = WinScreen ->
     (forall now c, (Outbreak.step now w c).1 = w)
     /\ forall clicks, Outbreak.run w clicks = w).
Proof.
  split.
  { intros raw. split; [apply loadAnimals_bound|].
    split; [apply loadAnimals_attained|]. intros Hnd.
    destruct (loadAnimals_attained raw) as [H0 | (group & a & Hg & Ha & Hl)];
      [by left|].
    right. exists a. split; [|exact Hl].
    apply loadAnimals_found; [exact Hnd|].
    apply list_elem_of_In, in_concat. exists group.
    split; by apply list_elem_of_In. }
  split.
  { intros raw now rng choices choice p name t Hnd g g' Hph Hp Hch Ht Ho Hlt
           Hmax.
    destruct (console_boot_roster raw now rng) as (Ea & Em).
    assert (Hl : Level t = Console.maxLevel g).
    { unfold g. rewrite console_run_maxLevel, Em.
      apply (roster_apex raw (Console.animals g) name t Hnd);
        [| |exact Ht|exact Hmax].
      - rewrite <- Ea. apply console_run_only_infects.
      - apply (console_started_level raw now rng choices).
        fold g. rewrite Hph. discriminate. }
    destruct (console_reaches_max g choice p name t Hph Hp Hch Ht Ho Hlt Hl)
      as (Hw & Hpl).
    fold g' in Hw, Hpl. split; [exact Hw|]. split; [exact Hpl|].
    split; intros.
    - apply console_terminal. by left.
    - apply console_run_terminal. by left. }
  split; [exact console_reaches_max|].
  split.
  { intros g Hw. split; intros.
    - apply console_terminal. by left.
    - apply console_run_terminal. by left. }
  split.
  { intros raw facts now rng clicks at_ name p t Hnd w w' Hs Hp Ht Ho Hmax.
    destruct (outbreak_boot_roster raw facts now rng) as (Ea & Em & _).
    assert (Hl : Level t = Outbreak.maxLevel (Outbreak.state w)).
    { unfold w. rewrite outbreak_run_maxLevel, Em.
      apply (roster_apex raw (Outbreak.animals (Outbreak.state w)) name t Hnd);
        [| |exact Ht|exact Hmax].
      - rewrite <- Ea. apply outbreak_run_only_infects.
      - by apply (outbreak_started_level raw facts now rng clicks). }
    destruct (outbreak_reaches_max at_ w name p t Hs Hp Ht Ho Hl)
      as (Hw & Hpl).
    fold w' in Hw, Hpl. split; [exact Hw|]. split.
    - rewrite Hpl.
      by apply (outbreak_run_keyed raw facts now rng clicks name t).
    - split; intros.
      + by apply outbreak_terminal.
      + by apply outbreak_run_terminal. }
  split; [exact outbreak_reaches_max|].
  intros w Hw. split; intros.
  - by apply outbreak_terminal.
  - by apply outbreak_run_terminal.
Qed.

(** A short game of the console program on the sample files, which have
    no name twice: from the elk the wolf is infected, a host that no
    host of the roster exceeds, and the game is won. *)
Lemma apex_wins_witness :
  let g := Console.run (Sample.console 0.1) [1; 1] in
  Console.phase (Console.step g 1).1 = Console.Won
  /\ Console.player (Console.step g 1).1 = "Wolf"%string.
Proof.
  destruct apex_wins as (_ & H & _).
  destruct (H Sample.raw 0 (Sample.always 0.1) [1; 1] 1 (infect Sample.elk)
              "Wolf"%string Sample.wolf) as (Hw & Hp & _).
  - apply (bool_decide_unpack _). vm_compute. reflexivity.
  - vm_compute. reflexivity.
  - vm_compute. reflexivity.
  - vm_compute. reflexivity.
  - vm_compute. reflexivity.
  - vm_compute. reflexivity.
  - vm_compute. reflexivity.
  - intros name a Ha.
    assert (Hall : map_Forall (fun _ a => Level a <= Level Sample.wolf)
                     (Console.animals
                        (Console.run
                           (Console.boot Sample.raw 0 (Sample.always 0.1))
                           [1; 1])))
      by (apply (bool_decide_unpack _); vm_compute; reflexivity).
    exact (Hall name a Ha).
  - split; [exact Hw | exact Hp].
Defined.
